(** * PowerpointMerger/pptx_merger.py: a shallow embedding

    The merger works on extracted OOXML packages: directory trees of XML
    parts, relationship parts and a content-type manifest.  This file embeds
    the Python functions of [pptx_merger.py] as Rocq functions over

    - Python strings as [string] (code points below 256),
    - Python integers as [Z],
    - [pathlib] paths as a root and a list of components,
    - the file system as a finite map from normalised absolute paths to
      nodes, with [..] resolved the way the kernel does it,
    - parsed XML documents through the three views the merger reads
      (relationships, slide list, content types),
    - exceptions as an explicit result type.

    The recursion of [copy_part_with_dependencies] is bounded by a fuel
    argument; running out of fuel is a result of its own, distinct from a
    Python exception. *)

From Stdlib Require Import ZArith String Ascii List DecimalString Decimal DecimalN.
From stdpp Require Import gmap strings list fin_maps sorting.

Open Scope string_scope.
Open Scope Z_scope.
Open Scope list_scope.

(* ===================================================================== *)
(** * Python primitives *)
(* ===================================================================== *)

Module Py.

(** ** Exceptions and results *)

Inductive exn :=
| FileNotFoundError
| NotADirectoryError
| IsADirectoryError
| FileExistsError
| SameFileError
| XMLSyntaxError
| ValueError
| TypeError
| IndexError.

Inductive res (A : Type) :=
| Ok (a : A)
| Raise (e : exn)
| OutOfFuel.

Arguments Ok {A} a.
Arguments Raise {A} e.
Arguments OutOfFuel {A}.

Definition bind {A B} (k : A -> res B) (c : res A) : res B :=
  match c with
  | Ok a => k a
  | Raise e => Raise e
  | OutOfFuel => OutOfFuel
  end.

#[export] Instance res_ret : MRet res := @Ok.
#[export] Instance res_bind : MBind res := @bind.

(** ** str methods *)

Definition truthy (o : option string) : bool :=
  match o with
  | Some (String _ _) => true
  | _ => false
  end.

Definition startswith (p s : string) : bool := String.prefix p s.

Fixpoint endswith (suf s : string) : bool :=
  String.eqb s suf
  || match s with
     | "" => false
     | String _ r => endswith suf r
     end.

(** [s[n:]] *)
Fixpoint drop_chars (n : nat) (s : string) : string :=
  match n, s with
  | S n', String _ r => drop_chars n' r
  | _, _ => s
  end.

(** [s.replace("\\", "/")] *)
Fixpoint replace_backslash (s : string) : string :=
  match s with
  | "" => ""
  | String c r =>
      String (if Ascii.eqb c "\" then "/"%char else c) (replace_backslash r)
  end.

Fixpoint lstrip_slash (s : string) : string :=
  match s with
  | String "/" r => lstrip_slash r
  | _ => s
  end.

Fixpoint rstrip_slash (s : string) : string :=
  match s with
  | "" => ""
  | String c r =>
      match rstrip_slash r with
      | "" => if Ascii.eqb c "/" then "" else String c ""
      | r' => String c r'
      end
  end.

(** [s.strip("/")] *)
Definition strip_slash (s : string) : string := rstrip_slash (lstrip_slash s).

(** [while s.startswith("../"): s = s[3:]] *)
Fixpoint strip_parent_markers (s : string) : string :=
  match s with
  | String "." (String "." (String "/" r)) => strip_parent_markers r
  | _ => s
  end.

Fixpoint join_with (sep : string) (l : list string) : string :=
  match l with
  | [] => ""
  | [x] => x
  | x :: r => x +:+ sep +:+ join_with sep r
  end.

(** [s.split("/")] *)
Fixpoint split_slash (s : string) : list string :=
  match s with
  | "" => [""]
  | String c r =>
      if Ascii.eqb c "/" then "" :: split_slash r
      else match split_slash r with
           | h :: t => String c h :: t
           | [] => [String c ""]
           end
  end.

(** ** Decimal digits, [str(int)], [int(str)] and the regex [(\d+)] *)

Definition is_digit (c : ascii) : bool :=
  match c with
  | "0" | "1" | "2" | "3" | "4" | "5" | "6" | "7" | "8" | "9" => true
  | _ => false
  end%char.

Definition digits_of_N (n : N) : string := NilZero.string_of_uint (N.to_uint n).

(** [str(z)] *)
Definition str (z : Z) : string :=
  if z <? 0 then "-" +:+ digits_of_N (Z.to_N (- z)) else digits_of_N (Z.to_N z).

(** The value of a non-empty string of ASCII digits. *)
Definition int_of_digits (s : string) : option Z :=
  match NilZero.uint_of_string s with
  | Some u => Some (Z.of_N (N.of_uint u))
  | None => None
  end.

(** Characters [int()] strips: the C-locale white space, and the two
    Latin-1 code points Unicode classifies as white space. *)
Definition is_int_space (c : ascii) : bool :=
  match N_of_ascii c with
  | 9 | 10 | 11 | 12 | 13 | 32 | 133 | 160 => true
  | _ => false
  end%N.

Fixpoint lstrip_space (s : string) : string :=
  match s with
  | String c r => if is_int_space c then lstrip_space r else s
  | "" => ""
  end.

Fixpoint rstrip_space (s : string) : string :=
  match s with
  | "" => ""
  | String c r =>
      match rstrip_space r with
      | "" => if is_int_space c then "" else String c ""
      | r' => String c r'
      end
  end.

(** Digit groups separated by single underscores ([1_000]): the digits
    with the underscores removed, or [None] when the shape is wrong. *)
Fixpoint after_digit (s : string) : option string :=
  match s with
  | "" => Some ""
  | String c r =>
      if is_digit c then option_map (String c) (after_digit r)
      else if Ascii.eqb c "_" then
        match r with
        | String c' r' =>
            if is_digit c' then option_map (String c') (after_digit r') else None
        | "" => None
        end
      else None
  end.

Definition digit_groups (s : string) : option string :=
  match s with
  | String c r => if is_digit c then option_map (String c) (after_digit r) else None
  | "" => None
  end.

Definition int_unsigned (s : string) : option Z :=
  match digit_groups s with
  | Some d => int_of_digits d
  | None => None
  end.

(** [int(s)] in base ten; [None] stands for [ValueError]. *)
Definition int (s : string) : option Z :=
  match rstrip_space (lstrip_space s) with
  | String "-" r => option_map Z.opp (int_unsigned r)
  | String "+" r => int_unsigned r
  | t => int_unsigned t
  end.

Fixpoint take_digits (s : string) : string :=
  match s with
  | String c r => if is_digit c then String c (take_digits r) else ""
  | "" => ""
  end.

(** [re.search(r"(\d+)", s)]: the first maximal run of digits. *)
Fixpoint search_digits (s : string) : option string :=
  match s with
  | "" => None
  | String c r => if is_digit c then Some (String c (take_digits r)) else search_digits r
  end.

(** ** pathlib.PurePosixPath *)

Record path := MkPath { p_root : string; p_parts : list string }.

Definition keep_part (s : string) : bool :=
  negb (String.eqb s "") && negb (String.eqb s ".").

Definition root_of (s : string) : string :=
  if startswith "///" s then "/"
  else if startswith "//" s then "//"
  else if startswith "/" s then "/"
  else "".

(** [PurePosixPath(s)]: empty and single-dot components are dropped,
    double dots are kept. *)
Definition Path (s : string) : path :=
  {| p_root := root_of s; p_parts := filter (fun x => keep_part x = true) (split_slash s) |}.

Definition is_absolute (p : path) : bool := negb (String.eqb (p_root p) "").

(** [p / s] *)
Definition joinpath (p : path) (s : string) : path :=
  let q := Path s in
  if is_absolute q then q
  else {| p_root := p_root p; p_parts := p_parts p ++ p_parts q |}.

Definition as_posix (p : path) : string :=
  match p_root p, p_parts p with
  | "", [] => "."
  | r, l => r +:+ join_with "/" l
  end.

Definition parent (p : path) : path :=
  match p_parts p with
  | [] => p
  | l => {| p_root := p_root p; p_parts := removelast l |}
  end.

Definition name (p : path) : string := List.last (p_parts p) "".

(** ** os.path *)

(** The part of [s] before and from its last dot. *)
Fixpoint rsplit_dot (s : string) : option (string * string) :=
  match s with
  | "" => None
  | String c r =>
      match rsplit_dot r with
      | Some (b, e) => Some (String c b, e)
      | None => if Ascii.eqb c "." then Some ("", s) else None
      end
  end.

Fixpoint leading_dots (s : string) : string * string :=
  match s with
  | String "." r => let '(d, t) := leading_dots r in (String "." d, t)
  | _ => ("", s)
  end.

(** [os.path.splitext] on a single path component: leading dots never
    start an extension. *)
Definition splitext (s : string) : string * string :=
  let '(d, t) := leading_dots s in
  match rsplit_dot t with
  | Some (b, e) => (d +:+ b, e)
  | None => (s, "")
  end.

(** Lexical normalisation of components on top of an absolute stack:
    [os.path.normpath] applied to an absolute path. *)
Fixpoint norm_onto (stack : list string) (l : list string) : list string :=
  match l with
  | [] => stack
  | c :: r =>
      if String.eqb c "" || String.eqb c "." then norm_onto stack r
      else if String.eqb c ".." then norm_onto (removelast stack) r
      else norm_onto (stack ++ [c]) r
  end.

(** The components of [os.path.abspath(s)]. *)
Definition abspath (cwd : list string) (s : string) : list string :=
  if startswith "/" s then norm_onto [] (split_slash s)
  else norm_onto cwd (split_slash s).

Fixpoint drop_common (a b : list string) : list string * list string :=
  match a, b with
  | x :: a', y :: b' => if String.eqb x y then drop_common a' b' else (a, b)
  | _, _ => (a, b)
  end.

(** [os.path.relpath(p, start=start)] *)
Definition relpath (cwd : list string) (p start : string) : res string :=
  match p with
  | "" => Raise ValueError
  | _ =>
      let '(s', p') := drop_common (abspath cwd start) (abspath cwd p) in
      match (List.map (fun _ => "..") s' ++ p')%list with
      | [] => Ok "."
      | l => Ok (join_with "/" l)
      end
  end.

(** The loop of [os.path.normpath] over the components: [initial] tells
    whether the path starts with a slash. *)
Fixpoint normpath_comps (initial : bool) (new_comps comps : list string) : list string :=
  match comps with
  | [] => new_comps
  | comp :: r =>
      if String.eqb comp "" || String.eqb comp "." then normpath_comps initial new_comps r
      else if negb (String.eqb comp "..")
              || (negb initial && bool_decide (new_comps = []))
              || bool_decide (last new_comps = Some "..")
      then normpath_comps initial (new_comps ++ [comp]) r
      else normpath_comps initial (removelast new_comps) r
  end.

(** [os.path.normpath(s)] *)
Definition normpath (s : string) : string :=
  match s with
  | "" => "."
  | _ =>
      let initial_slashes :=
        if startswith "/" s then
          if startswith "//" s && negb (startswith "///" s) then "//" else "/"
        else "" in
      match initial_slashes
            +:+ join_with "/" (normpath_comps (startswith "/" s) [] (split_slash s)) with
      | "" => "."
      | r => r
      end
  end.

End Py.


Import Py.

(* ===================================================================== *)
(** * Parsed XML parts *)
(* ===================================================================== *)

(** A [Relationship] element; [el.get(...)] of a missing attribute is
    [None]. *)
Record relationship := MkRel {
  rel_id : option string;
  rel_type : option string;
  rel_target : option string
}.

(** A [p:sldId] element with its [id] and [r:id] attributes. *)
Record sldId := MkSld {
  sld_id : option string;
  sld_rid : option string
}.

(** The children of the content-type manifest's root. *)
Inductive ct_child :=
| Default (extension content_type : option string)
| Override (part_name content_type : option string).

(** What the merger observes of a parsed document: the [Relationship]
    children of the root, the [p:sldId] children of the root's
    [p:sldIdLst] child when there is one, the manifest children, and the
    rest of the document. *)
Record document := MkDoc {
  doc_relationships : list relationship;
  doc_sldIdLst : option (list sldId);
  doc_types : list ct_child;
  doc_rest : string
}.

Inductive content :=
| Xml (d : document)
| Bytes (b : string).

Definition set_relationships (d : document) (l : list relationship) : document :=
  {| doc_relationships := l; doc_sldIdLst := doc_sldIdLst d;
     doc_types := doc_types d; doc_rest := doc_rest d |}.

Definition set_sldIdLst (d : document) (l : list sldId) : document :=
  {| doc_relationships := doc_relationships d; doc_sldIdLst := Some l;
     doc_types := doc_types d; doc_rest := doc_rest d |}.

Definition set_types (d : document) (l : list ct_child) : document :=
  {| doc_relationships := doc_relationships d; doc_sldIdLst := doc_sldIdLst d;
     doc_types := l; doc_rest := doc_rest d |}.

Definition set_target (r : relationship) (t : string) : relationship :=
  {| rel_id := rel_id r; rel_type := rel_type r; rel_target := Some t |}.

Definition slide_rel_type : string :=
  "http://schemas.openxmlformats.org/officeDocument/2006/relationships/slide".

Definition CT_OVERRIDES (folder : string) : option string :=
  if String.eqb folder "slides" then
    Some "application/vnd.openxmlformats-officedocument.presentationml.slide+xml"
  else if String.eqb folder "slideLayouts" then
    Some "application/vnd.openxmlformats-officedocument.presentationml.slideLayout+xml"
  else if String.eqb folder "slideMasters" then
    Some "application/vnd.openxmlformats-officedocument.presentationml.slideMaster+xml"
  else if String.eqb folder "charts" then
    Some "application/vnd.openxmlformats-officedocument.drawingml.chart+xml"
  else if String.eqb folder "theme" then
    Some "application/vnd.openxmlformats-officedocument.theme+xml"
  else if String.eqb folder "notesSlides" then
    Some "application/vnd.openxmlformats-officedocument.presentationml.notesSlide+xml"
  else if String.eqb folder "handoutMasters" then
    Some "application/vnd.openxmlformats-officedocument.presentationml.handoutMaster+xml"
  else if String.eqb folder "notesMasters" then
    Some "application/vnd.openxmlformats-officedocument.presentationml.notesMaster+xml"
  else None.

(* ===================================================================== *)
(** * The file system *)
(* ===================================================================== *)

Module FS.

Inductive node :=
| File (c : content)
| Dir.

(** Keys are normalised absolute paths; the root [[]] is always a
    directory. *)
Abbreviation t := (gmap (list string) node).

Definition node_at (fs : t) (n : list string) : option node :=
  match n with
  | [] => Some Dir
  | _ => fs !! n
  end.

Definition is_dir (fs : t) (n : list string) : bool :=
  match node_at fs n with
  | Some Dir => true
  | _ => false
  end.

(** Component-wise lookup: every component is looked up in a directory,
    and [..] moves to the parent of the directory reached so far. *)
Fixpoint walk (fs : t) (cur : list string) (l : list string) : option (list string) :=
  match l with
  | [] => Some cur
  | c :: r =>
      if is_dir fs cur then
        if String.eqb c ".." then walk fs (removelast cur) r
        else walk fs (cur ++ [c]) r
      else None
  end.

Definition resolve (cwd : list string) (fs : t) (p : path) : option (list string) :=
  walk fs (if is_absolute p then [] else cwd) (p_parts p).

Definition stat (cwd : list string) (fs : t) (p : path) : option node :=
  match resolve cwd fs p with
  | Some n => node_at fs n
  | None => None
  end.

(** [p.exists()] *)
Definition path_exists (cwd : list string) (fs : t) (p : path) : bool :=
  match stat cwd fs p with
  | Some _ => true
  | None => false
  end.

(** [p.mkdir(parents=True, exist_ok=True)] *)
Fixpoint mkdirs (fs : t) (cur : list string) (l : list string) : res t :=
  match l with
  | [] => Ok fs
  | c :: r =>
      if String.eqb c ".." then mkdirs fs (removelast cur) r
      else
        let n := (cur ++ [c])%list in
        match node_at fs n with
        | Some Dir => mkdirs fs n r
        | Some (File _) => Raise FileExistsError
        | None => mkdirs (<[n := Dir]> fs) n r
        end
  end.

Definition mkdir_parents (cwd : list string) (fs : t) (p : path) : res t :=
  mkdirs fs (if is_absolute p then [] else cwd) (p_parts p).

(** [open(p, "rb").read()] *)
Definition read (cwd : list string) (fs : t) (p : path) : res content :=
  match stat cwd fs p with
  | Some (File c) => Ok c
  | Some Dir => Raise IsADirectoryError
  | None => Raise FileNotFoundError
  end.

(** [open(p, "wb").write(c)] *)
Definition write (cwd : list string) (fs : t) (p : path) (c : content) : res t :=
  match resolve cwd fs p with
  | Some n =>
      match node_at fs n with
      | Some Dir => Raise IsADirectoryError
      | _ => Ok (<[n := File c]> fs)
      end
  | None => Raise FileNotFoundError
  end.

Definition samefile (cwd : list string) (fs : t) (p q : path) : bool :=
  match resolve cwd fs p, resolve cwd fs q with
  | Some n, Some m =>
      match node_at fs n, node_at fs m with
      | Some _, Some _ => bool_decide (n = m)
      | _, _ => false
      end
  | _, _ => false
  end.

(** [shutil.copyfile(src, dst)] *)
Definition copyfile (cwd : list string) (fs : t) (src dst : path) : res t :=
  if samefile cwd fs src dst then Raise SameFileError
  else c ← read cwd fs src; write cwd fs dst c.

Fixpoint child_of (d k : list string) : option string :=
  match d, k with
  | [], [x] => Some x
  | a :: d', b :: k' => if String.eqb a b then child_of d' k' else None
  | _, _ => None
  end.

(** [os.listdir(p)]; the order is the map's, as arbitrary as the
    system's. *)
Definition listdir (cwd : list string) (fs : t) (p : path) : res (list string) :=
  match resolve cwd fs p with
  | Some n =>
      match node_at fs n with
      | Some Dir => Ok (omap (fun kv => child_of n kv.1) (map_to_list fs))
      | Some (File _) => Raise NotADirectoryError
      | None => Raise FileNotFoundError
      end
  | None => Raise FileNotFoundError
  end.

End FS.

(* ===================================================================== *)
(** * pptx_merger.py *)
(* ===================================================================== *)

(** ** Content-type registry *)

Definition has_override (part_name : string) (el : ct_child) : bool :=
  match el with
  | Override p _ => bool_decide (p = Some part_name)
  | Default _ _ => false
  end.

Definition add_content_type_override
    (ct : list ct_child) (part_name content_type : string) : list ct_child :=
  if existsb (has_override part_name) ct then ct
  else ct ++ [Override (Some part_name) (Some content_type)].

Definition default_pair (el : ct_child) : option (option string * option string) :=
  match el with
  | Default e c => Some (e, c)
  | Override _ _ => None
  end.

(** The body of the loop over the source's [Default] elements.  Setting an
    attribute to [None] is a [TypeError] in lxml. *)
Fixpoint add_missing_defaults
    (droot : list ct_child) (have : gset (option string * option string))
    (src : list (option string * option string)) : res (list ct_child) :=
  match src with
  | [] => Ok droot
  | kv :: rest =>
      if bool_decide (kv ∈ have) then add_missing_defaults droot have rest
      else
        match kv with
        | (Some x, Some c) =>
            add_missing_defaults (droot ++ [Default (Some x) (Some c)])
                                 ({[kv]} ∪ have) rest
        | _ => Raise TypeError
        end
  end.

Definition ensure_default_types_from_source
    (dest_ct src_ct : list ct_child) : res (list ct_child) :=
  let have : gset (option string * option string) :=
    list_to_set (omap default_pair dest_ct) in
  add_missing_defaults dest_ct have (omap default_pair src_ct).

(** ** Relationship ids *)

(** The integers [next_rel_id] collects in [rids]. *)
Definition rid_number (rel : relationship) : option Z :=
  match rel_id rel with
  | Some rid =>
      if truthy (Some rid) && startswith "rId" rid then int (drop_chars 3 rid)
      else None
  | None => None
  end.

(** [max(l)] for a non-empty list. *)
Definition list_max_Z (x : Z) (l : list Z) : Z := fold_left Z.max l x.

Definition next_rel_id (rels : list relationship) : string :=
  let rids := omap rid_number rels in
  "rId" +:+ str (match rids with
                 | x :: l => list_max_Z x l
                 | [] => 0
                 end + 1).

(** ** The Name Allocator *)

Section Allocator.

Variable cwd : list string.

Definition max_index_step (prefix suffix : string) (mx : res Z) (entry : string) : res Z :=
  mx ← mx;
  if startswith prefix entry && endswith suffix entry then
    match search_digits entry with
    | Some d =>
        match int d with
        | Some v => Ok (Z.max mx v)
        | None => Raise ValueError
        end
    | None => Ok mx
    end
  else Ok mx.

Definition max_index (fs : FS.t) (dir_path : path) (prefix suffix : string) : res Z :=
  if negb (FS.path_exists cwd fs dir_path) then Ok 0
  else
    names ← FS.listdir cwd fs dir_path;
    fold_left (max_index_step prefix suffix) names (Ok 0).

(** The [while] loop of the fallback: [candidate] is tried, then
    [base_i ext] for [i], [i + 1], ...; [fuel] bounds the number of
    tests. *)
Fixpoint first_unused (fuel : nat) (fs : FS.t) (dst_folder : path)
    (base ext : string) (candidate : string) (i : Z) : res string :=
  match fuel with
  | O => OutOfFuel
  | S fuel' =>
      if FS.path_exists cwd fs (joinpath dst_folder candidate) then
        first_unused fuel' fs dst_folder base ext (base +:+ "_" +:+ str i +:+ ext) (i + 1)
      else Ok candidate
  end.

Definition numbered (fs : FS.t) (dst_folder : path) (prefix : string) : res string :=
  n ← max_index fs dst_folder prefix ".xml";
  Ok (prefix +:+ str (n + 1) +:+ ".xml").

(** The closure [pick_new_filename] of [copy_part_with_dependencies] with
    the variables it captures as arguments.  Every test of the loop that
    succeeds names a distinct entry of the file system, so two more tests
    than there are entries are enough (lemma [first_unused_returns]). *)
Definition pick_new_filename (fs : FS.t) (dst_folder : path)
    (folder fname base ext : string) : res string :=
  if String.eqb folder "slides" then numbered fs dst_folder "slide"
  else if String.eqb folder "slideLayouts" then numbered fs dst_folder "slideLayout"
  else if String.eqb folder "slideMasters" then numbered fs dst_folder "slideMaster"
  else if String.eqb folder "charts" then numbered fs dst_folder "chart"
  else if String.eqb folder "theme" then numbered fs dst_folder "theme"
  else if String.eqb folder "notesSlides" then numbered fs dst_folder "notesSlide"
  else first_unused (2 + size fs) fs dst_folder base ext fname 1.

End Allocator.

(** ** The Dependency Copier *)

(** The arguments of [copy_part_with_dependencies] that stay the same
    through a pass, and the working directory of the process. *)
Record env := MkEnv {
  cwd : list string;
  src_root : path;
  dst_root : path;
  ct_src : list ct_child
}.

(** What the copier mutates: the file system, the name map and the
    destination manifest.  [copied] is the trace of the part copies
    ([shutil.copyfile(src_part, dst_part)]), oldest first, each with the
    source root, the source part path and the destination part path. *)
Record state := MkState {
  fs : FS.t;
  name_map : gmap string string;
  ct_dst : list ct_child;
  copied : list (path * string * string)
}.

Definition with_fs (st : state) (f : FS.t) : state :=
  {| fs := f; name_map := name_map st; ct_dst := ct_dst st; copied := copied st |}.

Definition parse_xml (cwd : list string) (fs : FS.t) (p : path) : res document :=
  c ← FS.read cwd fs p;
  match c with
  | Xml d => Ok d
  | Bytes _ => Raise XMLSyntaxError
  end.

Definition write_xml (cwd : list string) (fs : FS.t) (tree : document) (p : path) : res FS.t :=
  fs1 ← FS.mkdir_parents cwd fs (parent p);
  FS.write cwd fs1 p (Xml tree).

Definition ensure_dir (cwd : list string) (fs : FS.t) (p : path) : res FS.t :=
  FS.mkdir_parents cwd fs p.

Section Copier.

Variable e : env.

(** The recursive call, one unit of fuel down. *)
Variable copy_rec : string -> state -> res (string * state).

(** The loop over the relationships of the copied [.rels] part: the
    patched elements, the [changed] flag and the state after the
    recursive copies. *)
Fixpoint patch_relationships (part_rel folder : string)
    (rels : list relationship) (changed : bool) (st : state)
    : res (list relationship * bool * state) :=
  match rels with
  | [] => Ok ([], changed, st)
  | rel :: rest =>
      match rel_target rel with
      | Some target =>
          if truthy (Some target) && startswith "../" target then
            let source_part_dir := parent (Path part_rel) in
            let targ_rel := as_posix (joinpath source_part_dir target) in
            let targ_rel := strip_parent_markers targ_rel in
            let targ_rel := replace_backslash targ_rel in
            '(new_dep_rel, st1) ← copy_rec targ_rel st;
            rp ← relpath (cwd e) new_dep_rel folder;
            let new_target := replace_backslash rp in
            let new_target :=
              if startswith "../" new_target then new_target
              else "../" +:+ new_target in
            '(rest', changed', st2) ← patch_relationships part_rel folder rest true st1;
            Ok (set_target rel new_target :: rest', changed', st2)
          else
            '(rest', changed', st2) ← patch_relationships part_rel folder rest changed st;
            Ok (rel :: rest', changed', st2)
      | None =>
          '(rest', changed', st2) ← patch_relationships part_rel folder rest changed st;
          Ok (rel :: rest', changed', st2)
      end
  end.

Definition copy_body (part_rel : string) (st : state) : res (string * state) :=
  match name_map st !! part_rel with
  | Some d => Ok (d, st)
  | None =>
      let src_part := joinpath (src_root e) part_rel in
      if negb (FS.path_exists (cwd e) (fs st) src_part) then Ok (part_rel, st)
      else
        let folder := strip_slash (as_posix (parent (Path part_rel))) in
        let fname := name (Path part_rel) in
        let '(base, ext) := splitext fname in
        let dst_folder := joinpath (dst_root e) folder in
        fs1 ← ensure_dir (cwd e) (fs st) dst_folder;
        new_fname ← pick_new_filename (cwd e) fs1 dst_folder folder fname base ext;
        let dst_part_rel :=
          if truthy (Some folder) then folder +:+ "/" +:+ new_fname else new_fname in
        let dst_part := joinpath (dst_root e) dst_part_rel in
        fs2 ← FS.copyfile (cwd e) fs1 src_part dst_part;
        let nm := <[part_rel := dst_part_rel]> (name_map st) in
        let log := (copied st ++ [(src_root e, part_rel, dst_part_rel)])%list in
        ct ← match CT_OVERRIDES folder with
             | Some content_type =>
                 Ok (add_content_type_override (ct_dst st)
                       ("/ppt/" +:+ dst_part_rel) content_type)
             | None => ensure_default_types_from_source (ct_dst st) (ct_src e)
             end;
        let st1 := {| fs := fs2; name_map := nm; ct_dst := ct; copied := log |} in
        let rels_name := base +:+ ext +:+ ".rels" in
        let rels_src_path := joinpath (joinpath (joinpath (src_root e) folder) "_rels") rels_name in
        if FS.path_exists (cwd e) fs2 rels_src_path then
          let rels_dst_folder := joinpath (joinpath (dst_root e) folder) "_rels" in
          fs3 ← ensure_dir (cwd e) fs2 rels_dst_folder;
          let rels_dst_path := joinpath rels_dst_folder rels_name in
          fs4 ← FS.copyfile (cwd e) fs3 rels_src_path rels_dst_path;
          rels_tree ← parse_xml (cwd e) fs4 rels_dst_path;
          '(rels', changed, st2) ←
            patch_relationships part_rel folder (doc_relationships rels_tree) false
                                (with_fs st1 fs4);
          if (changed : bool) then
            fs5 ← write_xml (cwd e) (fs st2) (set_relationships rels_tree rels') rels_dst_path;
            Ok (dst_part_rel, with_fs st2 fs5)
          else Ok (dst_part_rel, st2)
        else Ok (dst_part_rel, st1)
  end.

End Copier.

Fixpoint copy_part_with_dependencies (fuel : nat) (e : env)
    (part_rel : string) (st : state) : res (string * state) :=
  match fuel with
  | O => OutOfFuel
  | S fuel' => copy_body e (copy_part_with_dependencies fuel' e) part_rel st
  end.

(** ** Archive I/O *)

(** A package archive: the stem of its file name (which holds no
    separator) and its members in archive order, each with its name and
    bytes.  A member whose name ends with a slash is a directory. *)
Record package := MkPackage {
  pk_stem : string;
  pk_members : list (string * content)
}.

Definition valid_member_part (x : string) : bool :=
  negb (String.eqb x "" || String.eqb x "." || String.eqb x "..").

Definition member_parts (filename : string) : list string :=
  filter (fun x => valid_member_part x = true) (split_slash filename).

(** [ZipFile._extract_member]: the member name loses its empty, [.] and
    [..] components before it is joined to the target directory. *)
Definition member_path (to_dir : path) (filename : string) : path :=
  {| p_root := p_root to_dir; p_parts := p_parts to_dir ++ member_parts filename |}.

Definition extract_member (cwd : list string) (to_dir : path)
    (acc : res FS.t) (m : string * content) : res FS.t :=
  fs ← acc;
  let targetpath := member_path to_dir m.1 in
  let upperdirs := parent targetpath in
  fs1 ← (if FS.path_exists cwd fs upperdirs then Ok fs
         else FS.mkdir_parents cwd fs upperdirs);
  if endswith "/" m.1 then FS.mkdir_parents cwd fs1 targetpath
  else FS.write cwd fs1 targetpath m.2.

Definition extract_pptx (cwd : list string) (fs : FS.t)
    (pptx : package) (to_dir : path) : res FS.t :=
  fold_left (extract_member cwd to_dir) (pk_members pptx) (Ok fs).

Fixpoint drop_prefix (d k : list string) : option (list string) :=
  match d, k with
  | [], _ => Some k
  | a :: d', b :: k' => if String.eqb a b then drop_prefix d' k' else None
  | _ :: _, [] => None
  end.

(** [os.walk] reaches a file through directories only: the walk starts
    in [cur] and descends along [rel], whose last component is the file.
    The top of the walk is no file of the walk. *)
Fixpoint walked (fs : FS.t) (cur rel : list string) : bool :=
  match rel with
  | [] => false
  | c :: r =>
      FS.is_dir fs cur
      && match r with
         | [] => true
         | _ => walked fs (cur ++ [c]) r
         end
  end.

(** The files [os.walk] yields below the directory [d], each with its
    path relative to [d]. *)
Definition walk_file (fs : FS.t) (d : list string) (kv : list string * FS.node)
    : option (list string * content) :=
  match kv.2 with
  | FS.File c =>
      match drop_prefix d kv.1 with
      | Some rel => if walked fs d rel then Some (rel, c) else None
      | None => None
      end
  | FS.Dir => None
  end.

(** [arc = str(full.relative_to(src_dir)).replace("\\", "/")] *)
Definition arc_name (rel : list string) : string :=
  replace_backslash (join_with "/" rel).

(** [ZipInfo.from_file]: the name goes through [os.path.normpath] and
    loses its leading separators; [arcname[0]] raises on a name that was
    nothing but separators.  (File names are those of a POSIX file
    system, which have no NUL character: the cut [ZipInfo] makes at the
    first NUL never applies.  The model has no time stamps.) *)
Definition zip_info_name (arcname : string) : res string :=
  match lstrip_slash (normpath arcname) with
  | "" => Raise IndexError
  | n => Ok n
  end.

(** [z.write(str(full), arc)] for the walked files in turn: the archive
    gets one more member, also when it has a member of that name. *)
Fixpoint write_members (files : list (list string * content))
    : res (list (string * content)) :=
  match files with
  | [] => Ok []
  | f :: r =>
      n ← zip_info_name (arc_name f.1);
      l ← write_members r;
      Ok ((n, f.2) :: l)
  end.

(** [zip_dir]: the members of the archive written for [src_dir], each
    with its name and bytes.  The order of the members is the order of
    the walk, which is the system's; here it is the map's.  A top that is
    no directory gives an empty walk. *)
Definition zip_dir (cwd : list string) (fs : FS.t) (src_dir : path)
    : res (list (string * content)) :=
  match FS.resolve cwd fs src_dir with
  | Some d => write_members (omap (walk_file fs d) (map_to_list fs))
  | None => Ok []
  end.

(** ** The Package Merge Orchestrator *)

(** The state of the loops of [merge_presentations]: the copier's state
    (whose manifest is [ct_tree]), the [p:sldId] children of [sldIdLst],
    the relationships of [pres_rels_root] and [max_sld_id]. *)
Record merge_state := MkMerge {
  m_st : state;
  m_sldIdLst : list sldId;
  m_pres_rels : list relationship;
  m_max_sld_id : Z
}.

Definition sld_id_step (mx : Z) (el : sldId) : Z :=
  match int (default "256" (sld_id el)) with
  | Some v => Z.max mx v
  | None => mx
  end.

Definition current_max_sld_id (sldIdLst : list sldId) : Z :=
  fold_left sld_id_step sldIdLst 256.

(** The dict comprehension over the slide relationships: a later
    relationship with the same [Id] replaces an earlier one. *)
Definition id_to_target_step
    (m : gmap (option string) (option string)) (rel : relationship)
    : gmap (option string) (option string) :=
  if bool_decide (rel_type rel = Some slide_rel_type)
  then <[rel_id rel := rel_target rel]> m else m.

Definition id_to_target (rels : list relationship)
    : gmap (option string) (option string) :=
  fold_left id_to_target_step rels ∅.

(** [target[len("/ppt/"):]] when the target is absolute. *)
Definition normalize_target (target : string) : string :=
  if startswith "/ppt/" target then drop_chars 5 target else target.

Definition slides_content_type : string :=
  "application/vnd.openxmlformats-officedocument.presentationml.slide+xml".

(** The body of the loop over the source's slide list. *)
Definition merge_slide (fuel : nat) (e : env)
    (targets : gmap (option string) (option string))
    (acc : res merge_state) (sld : sldId) : res merge_state :=
  ms ← acc;
  let rid := sld_rid sld in
  let target := mjoin (targets !! rid) in
  if negb (truthy target) then Ok ms
  else
    let part_rel := normalize_target (default "" target) in
    '(dst_part_rel, st) ← copy_part_with_dependencies fuel e part_rel (m_st ms);
    let new_rid := next_rel_id (m_pres_rels ms) in
    let rels :=
      (m_pres_rels ms ++
       [MkRel (Some new_rid) (Some slide_rel_type) (Some dst_part_rel)])%list in
    let mx := m_max_sld_id ms + 1 in
    let slds := (m_sldIdLst ms ++ [MkSld (Some (str mx)) (Some new_rid)])%list in
    let ct := add_content_type_override (ct_dst st)
                ("/ppt/" +:+ dst_part_rel) slides_content_type in
    ct' ← ensure_default_types_from_source ct (ct_src e);
    Ok {| m_st := {| fs := fs st; name_map := name_map st;
                     ct_dst := ct'; copied := copied st |};
          m_sldIdLst := slds; m_pres_rels := rels; m_max_sld_id := mx |}.

(** The body of the loop over [inputs[1:]]. *)
Definition merge_source (fuel : nat) (cwd : list string) (workdir : path)
    (acc : res merge_state) (src_file : package) : res merge_state :=
  ms ← acc;
  let base_dir := joinpath workdir "base" in
  let src_dir := joinpath workdir ("src_" +:+ pk_stem src_file) in
  fs1 ← extract_pptx cwd (fs (m_st ms)) src_file src_dir;
  ct_src_tree ← parse_xml cwd fs1 (joinpath src_dir "[Content_Types].xml");
  t ← parse_xml cwd fs1 (joinpath (joinpath src_dir "ppt") "presentation.xml");
  src_pres_rels ←
    parse_xml cwd fs1
      (joinpath (joinpath (joinpath src_dir "ppt") "_rels") "presentation.xml.rels");
  let targets := id_to_target (doc_relationships src_pres_rels) in
  let ms1 := {| m_st := with_fs (m_st ms) fs1; m_sldIdLst := m_sldIdLst ms;
                m_pres_rels := m_pres_rels ms; m_max_sld_id := m_max_sld_id ms |} in
  match doc_sldIdLst t with
  | None => Ok ms1
  | Some sldIdLst_src =>
      let e := {| cwd := cwd; src_root := joinpath src_dir "ppt";
                  dst_root := joinpath base_dir "ppt";
                  ct_src := doc_types ct_src_tree |} in
      let ms2 := {| m_st := {| fs := fs1; name_map := ∅;
                               ct_dst := ct_dst (m_st ms); copied := copied (m_st ms) |};
                    m_sldIdLst := m_sldIdLst ms; m_pres_rels := m_pres_rels ms;
                    m_max_sld_id := m_max_sld_id ms |} in
      fold_left (merge_slide fuel e targets) sldIdLst_src (Ok ms2)
  end.

(** What [merge_presentations] leaves behind: the three manifests it
    saved, the file system, the trace of part copies, and the archive
    written to [output] (the output path itself is not modelled). *)
Record merged := MkMerged {
  out_presentation : document;
  out_presentation_rels : document;
  out_content_types : document;
  out_fs : FS.t;
  out_copied : list (path * string * string);
  out_archive : list (string * content)
}.

(** [workdir] is the temporary directory, an absolute path; [fs0] is the
    file system the run starts in. *)
Definition merge_presentations (fuel : nat) (cwd : list string) (workdir : path)
    (fs0 : FS.t) (inputs : list package) : res merged :=
  match inputs with
  | [] => Raise ValueError
  | base :: extras =>
      let base_dir := joinpath workdir "base" in
      fs1 ← extract_pptx cwd fs0 base base_dir;
      let pres_xml_path := joinpath (joinpath base_dir "ppt") "presentation.xml" in
      pres_tree ← parse_xml cwd fs1 pres_xml_path;
      let pres_rels_path :=
        joinpath (joinpath (joinpath base_dir "ppt") "_rels") "presentation.xml.rels" in
      pres_rels_tree ← parse_xml cwd fs1 pres_rels_path;
      let ct_path := joinpath base_dir "[Content_Types].xml" in
      ct_tree ← parse_xml cwd fs1 ct_path;
      let sldIdLst := default [] (doc_sldIdLst pres_tree) in
      let ms0 :=
        {| m_st := {| fs := fs1; name_map := ∅; ct_dst := doc_types ct_tree;
                      copied := [] |};
           m_sldIdLst := sldIdLst;
           m_pres_rels := doc_relationships pres_rels_tree;
           m_max_sld_id := current_max_sld_id sldIdLst |} in
      ms ← fold_left (merge_source fuel cwd workdir) extras (Ok ms0);
      let pres := set_sldIdLst pres_tree (m_sldIdLst ms) in
      let rels := set_relationships pres_rels_tree (m_pres_rels ms) in
      let ct := set_types ct_tree (ct_dst (m_st ms)) in
      fs2 ← write_xml cwd (fs (m_st ms)) pres pres_xml_path;
      fs3 ← write_xml cwd fs2 rels pres_rels_path;
      fs4 ← write_xml cwd fs3 ct ct_path;
      archive ← zip_dir cwd fs4 base_dir;
      Ok {| out_presentation := pres; out_presentation_rels := rels;
            out_content_types := ct; out_fs := fs4;
            out_copied := copied (m_st ms);
            out_archive := archive |}
  end.

(** The slide list of the merged presentation document. *)
Definition slide_list (d : document) : list sldId := default [] (doc_sldIdLst d).

(* ===================================================================== *)
(** * Predicates used in the statements *)
(* ===================================================================== *)

Fixpoint all_digits (s : string) : bool :=
  match s with
  | "" => true
  | String c r => is_digit c && all_digits r
  end.

Fixpoint no_digit (s : string) : bool :=
  match s with
  | "" => true
  | String c r => negb (is_digit c) && no_digit r
  end.

Fixpoint no_slash (s : string) : bool :=
  match s with
  | "" => true
  | String c r => negb (Ascii.eqb c "/") && no_slash r
  end.

Fixpoint mem_char (c : ascii) (s : string) : bool :=
  match s with
  | "" => false
  | String x r => Ascii.eqb x c || mem_char c r
  end.

(** The number the allocator reads off a directory entry: the first run
    of digits of a name that starts with the prefix and ends with the
    suffix. *)
Definition entry_index (prefix suffix entry : string) : option Z :=
  if startswith prefix entry && endswith suffix entry then
    match search_digits entry with
    | Some d => int d
    | None => None
    end
  else None.

(** The file-name prefix of the folders with a numbered convention. *)
Definition kind_prefix (folder : string) : option string :=
  if String.eqb folder "slides" then Some "slide"
  else if String.eqb folder "slideLayouts" then Some "slideLayout"
  else if String.eqb folder "slideMasters" then Some "slideMaster"
  else if String.eqb folder "charts" then Some "chart"
  else if String.eqb folder "theme" then Some "theme"
  else if String.eqb folder "notesSlides" then Some "notesSlide"
  else None.

(** ** The conventions as the specification words them *)

(** The value of a non-empty string of ASCII digits; any other string
    has none. *)
Definition digits_value (s : string) : option Z :=
  if all_digits s && negb (String.eqb s "") then int_of_digits s else None.

(** The index of a name under the convention [prefix\d+\.xml]: the
    digits between the prefix and [.xml]. *)
Definition spec_index (prefix entry : string) : option Z :=
  if startswith prefix entry && endswith ".xml" entry
  then digits_value (String.substring (String.length prefix)
                       (String.length entry - String.length prefix - 4) entry)
  else None.

(** The name the specification words for a numbered kind: the prefix,
    one plus the greatest index under the convention (zero when no name
    follows it), then [.xml]. *)
Definition spec_next_name (prefix : string) (names : list string) : string :=
  prefix +:+ str (fold_left Z.max (omap (spec_index prefix) names) 0 + 1) +:+ ".xml".

(** The number of an id of the form [rId<digits>]; an id of another
    shape has none. *)
Definition spec_rid_number (rel : relationship) : option Z :=
  match rel_id rel with
  | Some rid => if startswith "rId" rid then digits_value (drop_chars 3 rid) else None
  | None => None
  end.

(** The identifier the specification words: [rId], then one plus the
    greatest number of an id of the form [rId<digits>] (zero when there
    is none). *)
Definition spec_next_rel_id (rels : list relationship) : string :=
  "rId" +:+ str (fold_left Z.max (omap spec_rid_number rels) 0 + 1).

(** A single ordinary path component. *)
Definition plain (s : string) : Prop :=
  no_slash s = true ∧ s ≠ "" ∧ s ≠ "." ∧ s ≠ "..".


(** The candidates of the fallback loop. *)
Definition candidate (base ext : string) (i : Z) : string :=
  base +:+ "_" +:+ str i +:+ ext.


(** Every prefix of a normalised path is a directory. *)
Definition chain (fs : FS.t) (d : list string) : Prop :=
  ∀ pre, pre `prefix_of` d → FS.is_dir fs pre = true.

(** [p] names a directory that is reached through directories. *)
Definition directory (cwd : list string) (fs : FS.t) (p : path) : Prop :=
  ∃ d, FS.resolve cwd fs p = Some d ∧ chain fs d.

(** The number of part copies of the source path [k] in a trace. *)
Definition copies_of (k : string) (l : list (path * string * string)) : nat :=
  length (filter (λ ev, ev.1.2 = k) l).

(** The invariant of one source-input pass that started with the trace
    [log0] and an empty name map: the part copies made since then are
    copies from this pass's source root, one for each key of the name map
    and to the path the map gives. *)
Definition pass_inv (e : env) (log0 : list (path * string * string)) (st : state) : Prop :=
  ∃ l, copied st = log0 ++ l
       ∧ (∀ ev, ev ∈ l → ev.1.1 = src_root e ∧ name_map st !! ev.1.2 = Some ev.2)
       ∧ (∀ k, copies_of k l = match name_map st !! k with
                               | Some _ => 1%nat
                               | None => 0%nat
                               end).

(** The part copies made since the trace was [log0]. *)
Definition copies_since (log0 : list (path * string * string)) (st : state)
    : list (path * string * string) :=
  drop (length log0) (copied st).

(** [st'] comes after [st] in a pass: the name map and the trace have
    only grown, and the pass invariant has been kept. *)
Definition extends (e : env) (st st' : state) : Prop :=
  name_map st ⊆ name_map st'
  ∧ copied st `prefix_of` copied st'
  ∧ ∀ log0, pass_inv e log0 st → pass_inv e log0 st'.

(** What a call of the copier guarantees when it returns. *)
Definition copy_post (e : env) (part_rel : string) (st : state)
    (r : string) (st' : state) : Prop :=
  extends e st st'
  ∧ (name_map st' !! part_rel = Some r
     ∨ (r = part_rel ∧ st' = st ∧ name_map st !! part_rel = None
        ∧ FS.path_exists (cwd e) (fs st) (joinpath (src_root e) part_rel) = false)).

(** ** Packages as inputs *)

(** The bytes of the last file member of the archive stored under the
    components [parts]. *)
Definition pk_file_step (parts : list string) (acc : option content)
    (m : string * content) : option content :=
  if bool_decide (member_parts m.1 = parts) && negb (endswith "/" m.1)
  then Some m.2 else acc.

Definition pk_file (pkg : package) (parts : list string) : option content :=
  fold_left (pk_file_step parts) (pk_members pkg) None.

Definition presentation_parts : list string := ["ppt"; "presentation.xml"].
Definition presentation_rels_parts : list string := ["ppt"; "_rels"; "presentation.xml.rels"].
Definition content_types_parts : list string := ["[Content_Types].xml"].

(** The package holds its three manifests, as well-formed XML. *)
Definition has_manifests (pkg : package) : Prop :=
  ∃ pres rels ct,
    pk_file pkg presentation_parts = Some (Xml pres)
    ∧ pk_file pkg presentation_rels_parts = Some (Xml rels)
    ∧ pk_file pkg content_types_parts = Some (Xml ct).

Definition pk_document (pkg : package) (parts : list string) : document :=
  match pk_file pkg parts with
  | Some (Xml d) => d
  | _ => MkDoc [] None [] ""
  end.

(** The slide list of an input package, in its stored order. *)
Definition pk_slides (pkg : package) : list sldId :=
  default [] (doc_sldIdLst (pk_document pkg presentation_parts)).

Definition pk_targets (pkg : package) : gmap (option string) (option string) :=
  id_to_target (doc_relationships (pk_document pkg presentation_rels_parts)).

(** The slide-list entry's relationship id names a slide relationship of
    the package with a non-empty target. *)
Definition resolves (targets : gmap (option string) (option string)) (s : sldId) : bool :=
  truthy (mjoin (targets !! sld_rid s)).

(** The entries of the package's slide list that the merger imports, in
    list order, each with the part path it asks the copier for. *)
Definition imported_slides (pkg : package) : list sldId :=
  filter (λ s, resolves (pk_targets pkg) s = true) (pk_slides pkg).

Definition requested_part (pkg : package) (s : sldId) : string :=
  normalize_target (default "" (mjoin (pk_targets pkg !! sld_rid s))).

Definition pk_src_root (workdir : path) (pkg : package) : path :=
  joinpath (joinpath workdir ("src_" +:+ pk_stem pkg)) "ppt".


(** ** What a merge adds *)

(** One imported slide: the source root and part path the copier was
    asked for, the slide-list entry and the relationship appended for
    it. *)
Record import := MkImport {
  imp_src : path;
  imp_part : string;
  imp_sld : sldId;
  imp_rel : relationship
}.

(** The [k]-th import of a merge that started with the greatest slide id
    [m0]: the entry's id is [m0 + 1 + k]; its relationship id names the
    appended slide relationship and no other relationship of [rels]; the
    relationship's target is what the copier returned, the requested path
    itself or the destination of a recorded copy of it. *)
Definition import_ok (m0 : Z) (rels : list relationship)
    (log : list (path * string * string)) (k : nat) (imp : import) : Prop :=
  ∃ rid d,
    imp_sld imp = MkSld (Some (str (m0 + 1 + Z.of_nat k))) (Some rid)
    ∧ imp_rel imp = MkRel (Some rid) (Some slide_rel_type) (Some d)
    ∧ (d = imp_part imp ∨ (imp_src imp, imp_part imp, d) ∈ log)
    ∧ (∀ rel, rel ∈ rels → rel_id rel = Some rid → rel = imp_rel imp).

Definition grown (ms0 ms : merge_state) (imports : list import) : Prop :=
  m_sldIdLst ms = m_sldIdLst ms0 ++ map imp_sld imports
  ∧ m_pres_rels ms = m_pres_rels ms0 ++ map imp_rel imports
  ∧ m_max_sld_id ms = m_max_sld_id ms0 + Z.of_nat (length imports)
  ∧ copied (m_st ms0) `prefix_of` copied (m_st ms)
  ∧ ∀ k imp, imports !! k = Some imp →
      import_ok (m_max_sld_id ms0) (m_pres_rels ms) (copied (m_st ms)) k imp.

(** The import was made for the slide-list entry [s] of the package. *)
Definition import_of (workdir : path) (ps : package * sldId) (imp : import) : Prop :=
  imp_src imp = pk_src_root workdir ps.1 ∧ imp_part imp = requested_part ps.1 ps.2.

(** The slide-list entries the merger imports from the extra inputs, in
    input order and, within an input, in list order. *)
Definition all_imported (extras : list package) : list (package * sldId) :=
  flat_map (λ pkg, map (pair pkg) (imported_slides pkg)) extras.


(** The normalised components of a path relative to the package's
    content root, and of a relationship target read from the folder of
    its owner. *)
Definition norm_path (p : string) : list string := norm_onto [] (split_slash p).

Definition resolve_target (folder target : string) : list string :=
  norm_path (folder +:+ "/" +:+ target).

(** An observation of a result that returned. *)
Definition observe {A B : Type} (f : A → B) (r : res A) : option B :=
  match r with
  | Ok a => Some (f a)
  | _ => None
  end.

(* ===================================================================== *)
(** * Example packages *)
(* ===================================================================== *)

Module Examples.

Definition empty_doc : document :=
  {| doc_relationships := []; doc_sldIdLst := None; doc_types := []; doc_rest := "" |}.

Definition rels_doc (l : list relationship) : document :=
  set_relationships empty_doc l.

Definition slide_rel (rid target : string) : relationship :=
  MkRel (Some rid) (Some slide_rel_type) (Some target).

Definition dep_rel (rid target : string) : relationship :=
  MkRel (Some rid) (Some "dep") (Some target).

Definition manifest : content :=
  Xml (set_types empty_doc
         [Default (Some "rels") (Some "application/vnd.openxmlformats-package.relationships+xml");
          Default (Some "xml") (Some "application/xml")]).

Definition cwd0 : list string := ["home"].
Definition workdir0 : path := MkPath "/" ["tmp"; "td"].
Definition fs0 : FS.t := <[ ["tmp"; "td"] := FS.Dir ]> (<[ ["tmp"] := FS.Dir ]> ∅).

(** A deck with one slide. *)
Definition deck_a : package :=
  {| pk_stem := "a";
     pk_members :=
       [("[Content_Types].xml", manifest);
        ("ppt/presentation.xml", Xml (set_sldIdLst empty_doc [MkSld (Some "256") (Some "rId2")]));
        ("ppt/_rels/presentation.xml.rels", Xml (rels_doc [slide_rel "rId2" "slides/slide1.xml"]));
        ("ppt/slides/slide1.xml", Xml empty_doc)] |}.

(** A deck with two slides; the first one shows a picture. *)
Definition deck_b : package :=
  {| pk_stem := "b";
     pk_members :=
       [("[Content_Types].xml", manifest);
        ("ppt/presentation.xml",
         Xml (set_sldIdLst empty_doc [MkSld (Some "300") (Some "rId7"); MkSld (Some "257") (Some "rId3")]));
        ("ppt/_rels/presentation.xml.rels",
         Xml (rels_doc [slide_rel "rId3" "slides/slide1.xml"; slide_rel "rId7" "slides/slide2.xml"]));
        ("ppt/slides/slide1.xml", Xml empty_doc);
        ("ppt/slides/slide2.xml", Xml empty_doc);
        ("ppt/slides/_rels/slide2.xml.rels", Xml (rels_doc [dep_rel "rId1" "../media/image1.png"]));
        ("ppt/media/image1.png", Bytes "PNG")] |}.

(** A deck whose slide uses a layout, whose layout uses a master, whose
    master lists the layout: the cycle every real deck has. *)
Definition deck_c : package :=
  {| pk_stem := "c";
     pk_members :=
       [("[Content_Types].xml", manifest);
        ("ppt/presentation.xml", Xml (set_sldIdLst empty_doc [MkSld (Some "256") (Some "rId2")]));
        ("ppt/_rels/presentation.xml.rels", Xml (rels_doc [slide_rel "rId2" "slides/slide1.xml"]));
        ("ppt/slides/slide1.xml", Xml empty_doc);
        ("ppt/slides/_rels/slide1.xml.rels",
         Xml (rels_doc [dep_rel "rId1" "../slideLayouts/slideLayout1.xml"]));
        ("ppt/slideLayouts/slideLayout1.xml", Xml empty_doc);
        ("ppt/slideLayouts/_rels/slideLayout1.xml.rels",
         Xml (rels_doc [dep_rel "rId1" "../slideMasters/slideMaster1.xml"]));
        ("ppt/slideMasters/slideMaster1.xml", Xml empty_doc);
        ("ppt/slideMasters/_rels/slideMaster1.xml.rels",
         Xml (rels_doc [dep_rel "rId1" "../slideLayouts/slideLayout1.xml"]))] |}.

(** A deck whose slide list names a relationship the package does not
    have. *)
Definition deck_d : package :=
  {| pk_stem := "d";
     pk_members :=
       [("[Content_Types].xml", manifest);
        ("ppt/presentation.xml", Xml (set_sldIdLst empty_doc [MkSld (Some "256") (Some "rId9")]));
        ("ppt/_rels/presentation.xml.rels", Xml (rels_doc [slide_rel "rId2" "slides/slide1.xml"]));
        ("ppt/slides/slide1.xml", Xml empty_doc)] |}.

(** A deck whose slides were reordered: the ids in its slide list go
    down. *)
Definition deck_e : package :=
  {| pk_stem := "e";
     pk_members :=
       [("[Content_Types].xml", manifest);
        ("ppt/presentation.xml",
         Xml (set_sldIdLst empty_doc [MkSld (Some "258") (Some "rId3"); MkSld (Some "257") (Some "rId2")]));
        ("ppt/_rels/presentation.xml.rels",
         Xml (rels_doc [slide_rel "rId2" "slides/slide1.xml"; slide_rel "rId3" "slides/slide2.xml"]));
        ("ppt/slides/slide1.xml", Xml empty_doc);
        ("ppt/slides/slide2.xml", Xml empty_doc)] |}.

(** A deck whose first slide links to its second slide with a target
    that starts with the parent-directory marker. *)
Definition deck_f : package :=
  {| pk_stem := "f";
     pk_members :=
       [("[Content_Types].xml", manifest);
        ("ppt/presentation.xml", Xml (set_sldIdLst empty_doc [MkSld (Some "256") (Some "rId2")]));
        ("ppt/_rels/presentation.xml.rels", Xml (rels_doc [slide_rel "rId2" "slides/slide1.xml"]));
        ("ppt/slides/slide1.xml", Xml empty_doc);
        ("ppt/slides/_rels/slide1.xml.rels", Xml (rels_doc [dep_rel "rId1" "../slides/slide2.xml"]));
        ("ppt/slides/slide2.xml", Xml empty_doc)] |}.

(** A deck with two slides whose first slide links to the second one,
    again with a target that starts with the parent-directory marker.
    [second] is what the second slide part holds. *)
Definition second : content := Xml (MkDoc [] None [] "second slide").

Definition deck_g : package :=
  {| pk_stem := "g";
     pk_members :=
       [("[Content_Types].xml", manifest);
        ("ppt/presentation.xml",
         Xml (set_sldIdLst empty_doc [MkSld (Some "256") (Some "rId2"); MkSld (Some "257") (Some "rId3")]));
        ("ppt/_rels/presentation.xml.rels",
         Xml (rels_doc [slide_rel "rId2" "slides/slide1.xml"; slide_rel "rId3" "slides/slide2.xml"]));
        ("ppt/slides/slide1.xml", Xml empty_doc);
        ("ppt/slides/_rels/slide1.xml.rels", Xml (rels_doc [dep_rel "rId1" "../slides/slide2.xml"]));
        ("ppt/slides/slide2.xml", second)] |}.

(** A destination folder [theme] that holds a theme and a theme
    override. *)
Definition theme_folder : path := MkPath "/" ["d"; "theme"].

Definition theme_fs : FS.t :=
  <[ ["d"; "theme"; "themeOverride3.xml"] := FS.File (Xml empty_doc) ]>
    (<[ ["d"; "theme"; "theme1.xml"] := FS.File (Xml empty_doc) ]>
       (<[ ["d"; "theme"] := FS.Dir ]> (<[ ["d"] := FS.Dir ]> ∅))).

Definition base_dir0 : path := joinpath workdir0 "base".
Definition src_dir0 (pkg : package) : path := joinpath workdir0 ("src_" +:+ pk_stem pkg).

(** The file system after deck [a] was extracted as the base and [pkg]
    as a source. *)
Definition extracted (pkg : package) : FS.t :=
  match extract_pptx cwd0 fs0 deck_a base_dir0 with
  | Ok fs1 =>
      match extract_pptx cwd0 fs1 pkg (src_dir0 pkg) with
      | Ok fs2 => fs2
      | _ => fs1
      end
  | _ => fs0
  end.

Definition env0 (pkg : package) : env :=
  {| cwd := cwd0; src_root := joinpath (src_dir0 pkg) "ppt";
     dst_root := joinpath base_dir0 "ppt"; ct_src := [] |}.

Definition state0 (pkg : package) : state :=
  {| fs := extracted pkg; name_map := ∅; ct_dst := []; copied := [] |}.

End Examples.

(** ** A part that refers to itself *)

Module SelfReference.

Import Examples.

(** A deck whose only slide part, [a/x.xml], has a relationship to
    itself. *)
Definition deck_s : package :=
  {| pk_stem := "s";
     pk_members :=
       [("[Content_Types].xml", manifest);
        ("ppt/presentation.xml", Xml (set_sldIdLst empty_doc [MkSld (Some "256") (Some "rId2")]));
        ("ppt/_rels/presentation.xml.rels", Xml (rels_doc [slide_rel "rId2" "a/x.xml"]));
        ("ppt/a/x.xml", Xml empty_doc);
        ("ppt/a/_rels/x.xml.rels", Xml (rels_doc [dep_rel "rId1" "../a/x.xml"]))] |}.

Definition src : list string := ["tmp"; "td"; "src_s"; "ppt"].
Definition dst : list string := ["tmp"; "td"; "base"; "ppt"].

(** The folder components under which the [k]-th nested call finds the
    part, and the part path it is given. *)
Fixpoint folder_parts (k : nat) : list string :=
  match k with
  | O => ["a"]
  | S k' => "a" :: ".." :: folder_parts k'
  end.

Definition part_path (k : nat) : string := join_with "/" (folder_parts k ++ ["x.xml"]).
Definition folder_path (k : nat) : string := join_with "/" (folder_parts k).

(** [mkdir] of one directory that may exist already. *)
Definition with_dir (n : list string) (fs : FS.t) : FS.t :=
  match fs !! n with
  | None => <[n := FS.Dir]> fs
  | Some _ => fs
  end.

Definition dir_or_absent (o : option FS.node) : Prop := o = None ∨ o = Some FS.Dir.

(** What the nested calls keep of the file system: the source part and
    its relationships part are in place, and nothing but directories is
    in the way of the destination folder and its [_rels] folder. *)
Record fs_ok (fs : FS.t) : Prop := MkFsOk {
  ok_src : chain fs src;
  ok_src_a : fs !! (src ++ ["a"]) = Some FS.Dir;
  ok_src_x : fs !! (src ++ ["a"; "x.xml"]) = Some (FS.File (Xml empty_doc));
  ok_src_rels : fs !! (src ++ ["a"; "_rels"]) = Some FS.Dir;
  ok_src_xrels :
    fs !! (src ++ ["a"; "_rels"; "x.xml.rels"])
    = Some (FS.File (Xml (rels_doc [dep_rel "rId1" "../a/x.xml"])));
  ok_dst : chain fs dst;
  ok_dst_a : dir_or_absent (fs !! (dst ++ ["a"]));
  ok_dst_rels : dir_or_absent (fs !! (dst ++ ["a"; "_rels"]));
  ok_dst_xrels : fs !! (dst ++ ["a"; "_rels"; "x.xml.rels"]) ≠ Some FS.Dir
}.

(** The environment of the copy pass over deck [s], for a source manifest
    [cs]. *)
Definition env_of (cs : list ct_child) : env :=
  {| cwd := cwd0; src_root := MkPath "/" src; dst_root := MkPath "/" dst; ct_src := cs |}.

(** The state in which the [k]-th nested call starts: the destination
    manifest already has the defaults of the source manifest [cs], and
    every key of the name map is shorter than the path the call is
    given. *)
Definition nested (cs : list ct_child) (k : nat) (st : state) : Prop :=
  fs_ok (fs st)
  ∧ ensure_default_types_from_source (ct_dst st) cs = Ok (ct_dst st)
  ∧ ∀ key d, name_map st !! key = Some d →
             (String.length key < String.length (part_path k))%nat.

(** A path component that [Path] keeps as it is. *)
Definition good (x : string) : Prop := no_slash x = true ∧ x ≠ "" ∧ x ≠ ".".

(** The file system after deck [a] was extracted as the base. *)
Definition base_fs : FS.t :=
  match extract_pptx cwd0 fs0 deck_a base_dir0 with
  | Ok f => f
  | _ => fs0
  end.

(** The [Default] and [Override] elements of the manifest the example
    decks share. *)
Definition manifest_types : list ct_child :=
  match manifest with
  | Xml d => doc_types d
  | Bytes _ => []
  end.

(** Computable form of [chain]. *)
Definition chainb (fs : FS.t) (d : list string) : bool :=
  forallb (λ n, FS.is_dir fs (take n d)) (seq 0 (S (length d))).

End SelfReference.
(* ===================================================================== *)
(** * Further predicates *)
(* ===================================================================== *)

(** The [PartName] an [Override] element registers. *)
Definition override_name (el : ct_child) : option string :=
  match el with
  | Override (Some p) _ => Some p
  | _ => None
  end.

(** The slide relationships that carry the id [rid], in document order. *)
Definition slide_rels_with (rid : option string) (rels : list relationship)
    : list relationship :=
  filter (λ r, rel_type r = Some slide_rel_type ∧ rel_id r = rid) rels.

(** The number [current_max_sld_id] reads off a slide-list entry. *)
Definition sld_number (el : sldId) : option Z := int (default "256" (sld_id el)).

(** A path made of ordinary names: no empty, [.] or [..] component. *)
Definition ordinary (p : path) : Prop :=
  Forall (λ x, valid_member_part x = true) (p_parts p).

(** Nothing is stored at or below the normalised path [d]. *)
Definition vacant (fs : FS.t) (d : list string) : Prop :=
  ∀ k, d `prefix_of` k → fs !! k = None.

(** A file name that needs no care in an archive: an ordinary path
    component without a backslash. *)
Definition tidy (x : string) : Prop :=
  valid_member_part x = true ∧ no_slash x = true ∧ mem_char "\" x = false.

(** ** The copier's local names *)

(** [folder], [fname] and the name of the relationships part, as
    [copy_part_with_dependencies] computes them from [part_rel]. *)
Definition part_folder (part_rel : string) : string :=
  strip_slash (as_posix (parent (Path part_rel))).

Definition part_name (part_rel : string) : string := name (Path part_rel).

Definition rels_name (part_rel : string) : string :=
  (splitext (part_name part_rel)).1 +:+ (splitext (part_name part_rel)).2 +:+ ".rels".

(** [dst_part_rel] for the file name the allocator returned. *)
Definition dst_rel (folder new_fname : string) : string :=
  if truthy (Some folder) then folder +:+ "/" +:+ new_fname else new_fname.

Definition rels_src_path (e : env) (part_rel : string) : path :=
  joinpath (joinpath (joinpath (src_root e) (part_folder part_rel)) "_rels")
           (rels_name part_rel).

Definition rels_dst_folder (e : env) (part_rel : string) : path :=
  joinpath (joinpath (dst_root e) (part_folder part_rel)) "_rels".

Definition rels_dst_path (e : env) (part_rel : string) : path :=
  joinpath (rels_dst_folder e part_rel) (rels_name part_rel).

(** The relationship has an internal target, one the copier follows. *)
Definition is_internal (rel : relationship) : bool :=
  match rel_target rel with
  | Some target => truthy (Some target) && startswith "../" target
  | None => false
  end.

(** ** Growth *)

(** [fs'] has every entry of [fs], with its kind: a directory is still a
    directory and a file is still a file, whose bytes may have changed. *)
Definition fs_grows (fs fs' : FS.t) : Prop :=
  ∀ k, match fs !! k with
       | Some FS.Dir => fs' !! k = Some FS.Dir
       | Some (FS.File _) => ∃ c, fs' !! k = Some (FS.File c)
       | None => True
       end.

(** Nothing was taken away between [st] and [st']: the file system has
    grown, the manifest has its former children first and in place, and
    the name map has its former entries. *)
Definition state_grows (st st' : state) : Prop :=
  fs_grows (fs st) (fs st')
  ∧ ct_dst st `prefix_of` ct_dst st'
  ∧ name_map st ⊆ name_map st'.

(** [p] names a file. *)
Definition is_file (cwd : list string) (fs : FS.t) (p : path) : Prop :=
  ∃ n c, FS.resolve cwd fs p = Some n ∧ fs !! n = Some (FS.File c).

(** Every destination the name map records is a file of the destination
    tree. *)
Definition map_files (e : env) (st : state) : Prop :=
  ∀ k d, name_map st !! k = Some d →
         is_file (cwd e) (fs st) (joinpath (dst_root e) d).

(** Every destination in the trace of part copies is a file below
    [dst]. *)
Definition trace_files (cwd : list string) (dst : path) (fs : FS.t)
    (log : list (path * string * string)) : Prop :=
  ∀ ev, ev ∈ log → is_file cwd fs (joinpath dst ev.2).

(** What every call of the copier keeps. *)
Definition keeps (e : env) (st st' : state) : Prop :=
  state_grows st st'
  ∧ (map_files e st → map_files e st')
  ∧ (trace_files (cwd e) (dst_root e) (fs st) (copied st) →
     trace_files (cwd e) (dst_root e) (fs st') (copied st')).

(** ** What a merge keeps *)

(** The relationships after the first [n] have a target whose part name
    the manifest [ct] registers. *)
Definition slides_registered (n : nat) (rels : list relationship)
    (ct : list ct_child) : Prop :=
  ∀ r, r ∈ drop n rels →
       ∃ d, rel_target r = Some d ∧ ("/ppt/" +:+ d) ∈ omap override_name ct.

(** The invariant of the merge loops over the base's relationships
    [base_rels] and manifest children [base_ct]. *)
Definition merge_inv (base_rels : list relationship) (base_ct : list ct_child)
    (ms : merge_state) : Prop :=
  base_rels `prefix_of` m_pres_rels ms
  ∧ (NoDup (map rel_id base_rels) → NoDup (map rel_id (m_pres_rels ms)))
  ∧ base_ct `prefix_of` ct_dst (m_st ms)
  ∧ slides_registered (length base_rels) (m_pres_rels ms) (ct_dst (m_st ms)).

(** The file-system side of the merge loops: nothing of [fs_base] was
    taken away, and every destination in the trace of part copies is a
    file below [dst]. *)
Definition merge_files (cwd : list string) (dst : path) (fs_base : FS.t)
    (ms : merge_state) : Prop :=
  fs_grows fs_base (fs (m_st ms))
  ∧ trace_files cwd dst (fs (m_st ms)) (copied (m_st ms)).

(* ===================================================================== *)
(** * The interactive file list *)
(* ===================================================================== *)

(** ** More of [str] and [pathlib] *)

Module PyText.

(** [str.isspace] on the code points below 256: what [str.split()] and
    [str.strip()] treat as white space. *)
Definition is_space (c : ascii) : bool :=
  match N_of_ascii c with
  | 9 | 10 | 11 | 12 | 13 | 28 | 29 | 30 | 31 | 32 | 133 | 160 => true
  | _ => false
  end%N.

Fixpoint lstrip (s : string) : string :=
  match s with
  | String c r => if is_space c then lstrip r else s
  | "" => ""
  end.

Fixpoint rstrip (s : string) : string :=
  match s with
  | "" => ""
  | String c r =>
      match rstrip r with
      | "" => if is_space c then "" else String c ""
      | r' => String c r'
      end
  end.

(** [s.strip()] *)
Definition strip (s : string) : string := rstrip (lstrip s).

(** [s.split()]: the maximal runs of characters that are not white
    space. *)
Fixpoint split (s : string) : list string :=
  match s with
  | "" => []
  | String c r =>
      if is_space c then split r
      else
        match r with
        | "" => [String c ""]
        | String c' _ =>
            if is_space c' then String c "" :: split r
            else match split r with
                 | h :: t => String c h :: t
                 | [] => [String c ""]
                 end
        end
  end.

(** [str.lower] on the code points below 256. *)
Definition lower_char (c : ascii) : ascii :=
  let n := N_of_ascii c in
  if ((65 <=? n) && (n <=? 90) || (192 <=? n) && (n <=? 222) && negb (n =? 215))%N
  then ascii_of_N (n + 32) else c.

Fixpoint lower (s : string) : string :=
  match s with
  | "" => ""
  | String c r => String (lower_char c) (lower r)
  end.

(** [p.suffix]: the name from its last dot, unless that dot is the
    first or the last character of the name. *)
Definition suffix (p : path) : string :=
  match rsplit_dot (name p) with
  | Some (b, x) => if String.eqb b "" || String.eqb x "." then "" else x
  | None => ""
  end.

(** [l[i]] *)
Definition getitem {A} (l : list A) (i : Z) : option A :=
  if 0 <=? i then l !! Z.to_nat i
  else if - Z.of_nat (length l) <=? i then l !! Z.to_nat (Z.of_nat (length l) + i)
  else None.

(** The child [folder / x] that [iterdir] yields for the entry [x]. *)
Definition child (folder : path) (x : string) : path :=
  {| p_root := p_root folder; p_parts := p_parts folder ++ [x] |}.

Definition nl : string := String (ascii_of_nat 10) "".

End PyText.

Import PyText.

(** ** The terminal *)

(** The lines [input()] has still to read, and what was written: one
    entry for the text of each [print] call and for each prompt. *)
Record console := MkConsole {
  stdin : list string;
  stdout : list string
}.

(** How a call ends when it does not return. *)
Inductive signal :=
| Exc (e : exn)
| IndexError
| EOFError
| SystemExit (code : Z).

Definition print (s : string) (c : console) : console :=
  {| stdin := stdin c; stdout := stdout c ++ [s] |}.

(** ** [build_file_list_from_folder] *)

Definition is_pptx (p : path) : bool := String.eqb (lower (suffix p)) ".pptx".

Definition invalid_message : string :=
  "Invalid input. Please enter each file number exactly once, separated by spaces.".

Definition order_prompt : string :=
  "Enter the desired order as space-separated numbers (e.g., 2 1 3 4):".

(** The body of the [try]: [Some idxs] when no exception is raised. *)
Definition parse_order (n : nat) (order : string) : option (list Z) :=
  idxs ← mapM int (split order);
  if bool_decide (merge_sort Z.le idxs = seqZ 1 (Z.of_nat n)) then Some idxs else None.

(** The [while True] loop: one turn for each line read. *)
Fixpoint read_order (n : nat) (lines : list string) (out : list string)
    : (signal + list Z) * console :=
  match lines with
  | [] => (inl EOFError, {| stdin := []; stdout := out ++ ["> "] |})
  | line :: rest =>
      match parse_order n (strip line) with
      | Some idxs => (inr idxs, {| stdin := rest; stdout := out ++ ["> "] |})
      | None => read_order n rest (out ++ ["> "; invalid_message])
      end
  end.

Definition list_files (c : console) (files : list (Z * path)) : console :=
  fold_left (λ c ip, print ("  " +:+ str ip.1 +:+ ". " +:+ name ip.2) c) files c.

Definition enumerate {A} (start : Z) (l : list A) : list (Z * A) :=
  zip (seqZ start (Z.of_nat (length l))) l.

Definition build_file_list_from_folder (cwd : list string) (fs : FS.t)
    (folder : path) (c : console) : (signal + list path) * console :=
  match FS.listdir cwd fs folder with
  | Ok names =>
      let pptx_files := filter (λ p, is_pptx p = true) (map (child folder) names) in
      match pptx_files with
      | [] => (inl (SystemExit 1), print "No .pptx files found in this folder." c)
      | _ =>
          let c := print (nl +:+ "Found the following .pptx files:" +:+ nl) c in
          let c := list_files c (enumerate 1 pptx_files) in
          let c := print (nl +:+ order_prompt) c in
          match read_order (length pptx_files) (stdin c) (stdout c) with
          | (inr idxs, c') =>
              match mapM (λ i, getitem pptx_files (i - 1)) idxs with
              | Some files => (inr files, c')
              | None => (inl IndexError, c')
              end
          | (inl s, c') => (inl s, c')
          end
      end
  | Raise x => (inl (Exc x), c)
  (* [FS.listdir] has no loop: this case does not occur *)
  | OutOfFuel => (inl (Exc FileNotFoundError), c)
  end.

(** A folder with two decks and a text file, and what the user types:
    a line that repeats a number, a line that is no number, the order
    [2 1], and a line that is never read. *)
Module CliExample.

Definition folder_fs : FS.t :=
  <[ ["home"; "b.PPTX"] := FS.File (Bytes "b") ]>
    (<[ ["home"; "notes.txt"] := FS.File (Bytes "n") ]>
       (<[ ["home"; "a.pptx"] := FS.File (Bytes "a") ]>
          (<[ ["home"] := FS.Dir ]> ∅))).

Definition here : path := Path ".".

Definition terminal : console :=
  {| stdin := ["2 2"; "first"; " 2 1 "; "unread"]; stdout := [] |}.

End CliExample.

(* ===================================================================== *)
(** * Strings and numbers *)
(* ===================================================================== *)

Section StringFacts.

Lemma app_cons (c : ascii) (a b : string) : String c a +:+ b = String c (a +:+ b).
Proof. reflexivity. Qed.

Lemma app_nil_l_s (a : string) : "" +:+ a = a.
Proof. reflexivity. Qed.

Lemma startswith_app (p s : string) : startswith p (p +:+ s) = true.
Proof.
  unfold startswith. induction p as [|c p IH]; simpl.
  - by destruct s.
  - destruct (ascii_dec c c); [apply IH | congruence].
Qed.

Lemma startswith_inv (p s : string) :
  startswith p s = true → s = p +:+ drop_chars (String.length p) s.
Proof.
  unfold startswith. revert s. induction p as [|c p IH]; intros s H; simpl in *.
  - by destruct s.
  - destruct s as [|b s]; [discriminate|]. simpl in H.
    destruct (ascii_dec c b) as [->|]; [|discriminate].
    rewrite app_cons. simpl. f_equal. by apply IH.
Qed.

Lemma drop_chars_app (p s : string) : drop_chars (String.length p) (p +:+ s) = s.
Proof. induction p as [|c p IH]; [by destruct s | rewrite app_cons; apply IH]. Qed.

Lemma endswith_app (s suf : string) : endswith suf (s +:+ suf) = true.
Proof.
  induction s as [|c s IH].
  - rewrite app_nil_l_s. destruct suf; simpl; [done|].
    by rewrite Ascii.eqb_refl, String.eqb_refl.
  - rewrite app_cons. simpl. rewrite IH. apply orb_true_r.
Qed.

Lemma app_assoc_s (a b c : string) : (a +:+ b) +:+ c = a +:+ (b +:+ c).
Proof. induction a as [|x a IH]; [done | by rewrite !app_cons, IH]. Qed.

Lemma app_nil_r_s (a : string) : a +:+ "" = a.
Proof. induction a as [|x a IH]; [done | by rewrite app_cons, IH]. Qed.

Lemma app_length_s (a b : string) :
  String.length (a +:+ b) = (String.length a + String.length b)%nat.
Proof. induction a as [|x a IH]; [done | by rewrite app_cons; simpl; rewrite IH]. Qed.

Lemma app_inv_tail_s (a b c : string) : a +:+ c = b +:+ c → a = b.
Proof.
  revert b. induction a as [|x a IH]; intros [|y b] H;
    rewrite ?app_cons, ?app_nil_l_s in H.
  - done.
  - apply (f_equal String.length) in H. simpl in H. rewrite app_length_s in H. lia.
  - apply (f_equal String.length) in H. simpl in H. rewrite app_length_s in H. lia.
  - injection H as -> H. f_equal. by apply IH.
Qed.

Lemma is_digit_not_space c : is_digit c = true → is_int_space c = false.
Proof. destruct c as [[] [] [] [] [] [] [] []]; simpl; try discriminate; reflexivity. Qed.

Lemma digit_not_underscore c : is_digit c = true → Ascii.eqb c "_" = false.
Proof. destruct c as [[] [] [] [] [] [] [] []]; simpl; try discriminate; reflexivity. Qed.

Lemma all_digits_of_uint d : all_digits (NilEmpty.string_of_uint d) = true.
Proof. induction d; simpl; auto. Qed.

Lemma N_to_uint_not_nil n : N.to_uint n ≠ Nil.
Proof.
  destruct n as [|p]; simpl; [discriminate|].
  intros H. pose proof (DecimalPos.Unsigned.to_uint_nonnil p) as E. done.
Qed.

Lemma digits_of_N_spec n :
  ∃ c r, digits_of_N n = String c r ∧ is_digit c = true ∧ all_digits r = true.
Proof.
  unfold digits_of_N, NilZero.string_of_uint.
  pose proof (N_to_uint_not_nil n) as Hn.
  pose proof (all_digits_of_uint (N.to_uint n)) as Hd.
  destruct (N.to_uint n) eqn:E; try congruence; simpl in *;
    eexists _, _; (split; [reflexivity|]); auto.
Qed.

Lemma int_of_digits_of_N n : int_of_digits (digits_of_N n) = Some (Z.of_N n).
Proof.
  unfold int_of_digits, digits_of_N.
  rewrite NilZero.usu by apply N_to_uint_not_nil.
  by rewrite DecimalN.Unsigned.of_to.
Qed.

Lemma after_digit_digits s : all_digits s = true → after_digit s = Some s.
Proof.
  induction s as [|c s IH]; simpl; [done|].
  intros [Hc Hs]%andb_true_iff. rewrite Hc, (IH Hs). done.
Qed.

Lemma digit_groups_digits c s :
  is_digit c = true → all_digits s = true → digit_groups (String c s) = Some (String c s).
Proof. intros Hc Hs. simpl. by rewrite Hc, after_digit_digits. Qed.

Lemma lstrip_space_digit c s : is_int_space c = false → lstrip_space (String c s) = String c s.
Proof. intros H. simpl. by rewrite H. Qed.

Lemma rstrip_space_digits s :
  all_digits s = true → rstrip_space s = s.
Proof.
  induction s as [|c s IH]; simpl; [done|].
  intros [Hc Hs]%andb_true_iff. rewrite (IH Hs).
  destruct s; [by rewrite (is_digit_not_space _ Hc) | done].
Qed.

Lemma int_unsigned_digits_of_N n : int_unsigned (digits_of_N n) = Some (Z.of_N n).
Proof.
  unfold int_unsigned. destruct (digits_of_N_spec n) as (c & r & E & Hc & Hr).
  rewrite E, digit_groups_digits by done. rewrite <- E. apply int_of_digits_of_N.
Qed.

Lemma int_digit_string c r :
  is_digit c = true → all_digits r = true →
  int (String c r) = int_unsigned (String c r).
Proof.
  intros Hc Hr. unfold int.
  rewrite lstrip_space_digit by by apply is_digit_not_space.
  rewrite rstrip_space_digits by (simpl; by rewrite Hc, Hr).
  destruct c as [[] [] [] [] [] [] [] []]; simpl in Hc; try discriminate; reflexivity.
Qed.

(** [int(str(z)) == z] *)
Lemma int_str z : int (str z) = Some z.
Proof.
  unfold str. destruct (Z.ltb_spec z 0) as [Hneg|Hpos].
  - destruct (digits_of_N_spec (Z.to_N (- z))) as (c & r & E & Hc & Hr).
    assert (Hd : all_digits (digits_of_N (Z.to_N (- z))) = true)
      by (rewrite E; simpl; by rewrite Hc, Hr).
    rewrite app_cons, app_nil_l_s. unfold int.
    assert (lstrip_space (String "-" (digits_of_N (Z.to_N (- z))))
            = String "-" (digits_of_N (Z.to_N (- z)))) as -> by reflexivity.
    assert (rstrip_space (String "-" (digits_of_N (Z.to_N (- z))))
            = String "-" (digits_of_N (Z.to_N (- z)))) as ->.
    { simpl. rewrite rstrip_space_digits by done. by rewrite E. }
    rewrite int_unsigned_digits_of_N. simpl. f_equal. lia.
  - destruct (digits_of_N_spec (Z.to_N z)) as (c & r & E & Hc & Hr).
    rewrite E, int_digit_string by done. rewrite <- E.
    rewrite int_unsigned_digits_of_N. f_equal. lia.
Qed.

Lemma str_inj a b : str a = str b → a = b.
Proof. intros H. apply (f_equal int) in H. rewrite !int_str in H. congruence. Qed.

End StringFacts.

(* ===================================================================== *)
(** * Relationship ids *)
(* ===================================================================== *)

Section RelIds.

Lemma list_max_Z_ge (l : list Z) : ∀ x, x ≤ list_max_Z x l.
Proof.
  unfold list_max_Z. induction l as [|y l IH]; intros x; simpl; [lia|].
  specialize (IH (Z.max x y)). lia.
Qed.

Lemma list_max_Z_ub (l : list Z) : ∀ x y, y ∈ l → y ≤ list_max_Z x l.
Proof.
  unfold list_max_Z. induction l as [|z l IH]; intros x y Hy; simpl.
  - by apply elem_of_nil in Hy.
  - apply elem_of_cons in Hy as [->|Hy]; [|by apply IH].
    pose proof (list_max_Z_ge l (Z.max x z)) as H. unfold list_max_Z in H. lia.
Qed.

Lemma list_max_Z_in (l : list Z) : ∀ x, list_max_Z x l ∈ x :: l.
Proof.
  unfold list_max_Z. induction l as [|z l IH]; intros x; simpl.
  - apply list_elem_of_here.
  - specialize (IH (Z.max x z)). apply elem_of_cons in IH as [E|IH].
    + rewrite E. destruct (Z.max_spec x z) as [[_ ->]|[_ ->]];
        [apply list_elem_of_further|]; apply list_elem_of_here.
    + by do 2 apply list_elem_of_further.
Qed.

(** What [next_rel_id] reads off a relationship: the integer [int()]
    parses from the rest of an [Id] that starts with [rId]. *)
Lemma rid_number_spec (rel : relationship) (k : Z) :
  rid_number rel = Some k ↔
  ∃ d, rel_id rel = Some ("rId" +:+ d) ∧ int d = Some k.
Proof.
  unfold rid_number. split.
  - destruct (rel_id rel) as [rid|]; [|discriminate].
    destruct (truthy (Some rid) && startswith "rId" rid) eqn:E; [|discriminate].
    apply andb_true_iff in E as [_ E]. apply startswith_inv in E.
    intros H. exists (drop_chars 3 rid). split; [by f_equal|done].
  - intros (d & -> & Hd). rewrite startswith_app. simpl truthy. simpl andb.
    pose proof (drop_chars_app "rId" d) as E. cbv [String.length] in E.
    by rewrite E.
Qed.

Lemma rid_number_str (rel : relationship) (k : Z) :
  rel_id rel = Some ("rId" +:+ str k) → rid_number rel = Some k.
Proof. intros H. apply rid_number_spec. exists (str k). split; [done|apply int_str]. Qed.

Lemma next_rel_id_shape (rels : list relationship) :
  ∃ n, next_rel_id rels = "rId" +:+ str (n + 1)
       ∧ (∀ m, m ∈ omap rid_number rels → m ≤ n)
       ∧ (n ∈ omap rid_number rels ∨ (omap rid_number rels = [] ∧ n = 0)).
Proof.
  unfold next_rel_id. destruct (omap rid_number rels) as [|x l] eqn:E.
  - exists 0. split; [done|]. split; [|by right].
    intros m Hm. by apply elem_of_nil in Hm.
  - exists (list_max_Z x l). split; [done|]. split; [|left; apply list_max_Z_in].
    intros m [->|Hm]%elem_of_cons; [apply list_max_Z_ge | by apply list_max_Z_ub].
Qed.

Lemma next_rel_id_not_among (rels : list relationship) (rel : relationship) :
  rel ∈ rels → rel_id rel ≠ Some (next_rel_id rels).
Proof.
  destruct (next_rel_id_shape rels) as (n & -> & Hub & _). intros Hrel Hid.
  apply rid_number_str in Hid.
  assert (n + 1 ∈ omap rid_number rels) as Hin
    by (apply list_elem_of_omap; eauto).
  apply Hub in Hin. lia.
Qed.

End RelIds.

(** C10, as the code has it.  [next_rel_id] returns an identifier no
    relationship of the set carries.  It is [rId] followed by one plus the greatest integer among
    the numbers of the existing ids (zero when there is none), where the
    number of an id is what [int()] reads after an [rId] prefix; ids
    without the prefix, and ids whose rest does not parse, have no
    number. *)
Theorem next_rel_id_fresh (rels : list relationship) :
  (∀ rel, rel ∈ rels → rel_id rel ≠ Some (next_rel_id rels))
  ∧ (∃ n, next_rel_id rels = "rId" +:+ str (n + 1)
          ∧ (∀ m, m ∈ omap rid_number rels → m ≤ n)
          ∧ (n ∈ omap rid_number rels ∨ (omap rid_number rels = [] ∧ n = 0)))
  ∧ (∀ rel k, rid_number rel = Some k ↔
              ∃ d, rel_id rel = Some ("rId" +:+ d) ∧ int d = Some k)
  ∧ (∀ rel n, rel_id rel = Some ("rId" +:+ digits_of_N n) →
              rid_number rel = Some (Z.of_N n)).
Proof.
  split_and!.
  - apply next_rel_id_not_among.
  - apply next_rel_id_shape.
  - apply rid_number_spec.
  - intros rel n H. apply rid_number_spec. exists (digits_of_N n). split; [done|].
    destruct (digits_of_N_spec n) as (c & r & E & Hc & Hr).
    rewrite E, int_digit_string by done. rewrite <- E. apply int_unsigned_digits_of_N.
Qed.

(* ===================================================================== *)
(** * Content-type defaults *)
(* ===================================================================== *)

Section Defaults.

Lemma add_missing_defaults_spec (src : list (option string * option string)) :
  ∀ droot have droot',
    add_missing_defaults droot have src = Ok droot' →
    ∃ added,
      droot' = (droot ++ added)%list
      ∧ (∀ el, el ∈ added ↔ ∃ kv, default_pair el = Some kv ∧ kv ∈ src ∧ kv ∉ have)
      ∧ (∀ kv, kv ∈ src → kv ∈ have ∨ ∃ el, el ∈ added ∧ default_pair el = Some kv).
Proof.
  induction src as [|kv rest IH]; intros droot have droot' H; simpl in H.
  - injection H as <-. exists []. rewrite app_nil_r. split; [done|]. split.
    + intros el. split; [by intros ?%elem_of_nil|].
      by intros (? & _ & ?%elem_of_nil & _).
    + by intros ? ?%elem_of_nil.
  - case_bool_decide as Hin.
    + apply IH in H as (added & -> & Hadd & Hcov). exists added. split; [done|]. split.
      * intros el. rewrite Hadd. split.
        -- intros (kv' & ? & ? & ?). exists kv'. split_and!; [done| |done].
           by apply list_elem_of_further.
        -- intros (kv' & ? & [->|?]%elem_of_cons & ?); [done|]. by exists kv'.
      * intros kv' [->|Hk]%elem_of_cons; [by left | by apply Hcov].
    + destruct kv as [[x|] [c|]]; try discriminate.
      apply IH in H as (added & -> & Hadd & Hcov).
      exists (Default (Some x) (Some c) :: added).
      split; [by rewrite <- app_assoc|]. split.
      * intros el. rewrite elem_of_cons, Hadd. split.
        -- intros [->|(kv' & ? & ? & Hn)].
           ++ exists (Some x, Some c). split_and!; [done|apply list_elem_of_here|done].
           ++ exists kv'. split_and!; [done|by apply list_elem_of_further|set_solver].
        -- intros (kv' & Hd & [->|Hr]%elem_of_cons & Hn).
           ++ left. destruct el as [? ?|]; simpl in Hd; congruence.
           ++ destruct (decide (kv' = (Some x, Some c))) as [->|Hne].
              ** left. destruct el as [? ?|]; simpl in Hd; congruence.
              ** right. exists kv'. split_and!; [done|done|set_solver].
      * intros kv' [->|Hk]%elem_of_cons.
        -- right. exists (Default (Some x) (Some c)). split; [apply list_elem_of_here|done].
        -- destruct (Hcov _ Hk) as [Hh|(el & ? & ?)].
           ++ apply elem_of_union in Hh as [->%elem_of_singleton|Hh]; [|by left].
              right. exists (Default (Some x) (Some c)). split; [apply list_elem_of_here|done].
           ++ right. exists el. split; [by apply list_elem_of_further|done].
Qed.

End Defaults.

(** C4, as the code has it.  [ensure_default_types_from_source] keeps
    every element of the destination manifest in place and appends
    [Default] elements after them: exactly the source's (extension, type)
    pairs that the destination did not hold as a pair.  A source pair whose
    extension the destination maps to another type is therefore appended
    next to the original entry. *)
Theorem ensure_default_types_additive (dest_ct src_ct dest_ct' : list ct_child) :
  ensure_default_types_from_source dest_ct src_ct = Ok dest_ct' →
  ∃ added,
    dest_ct' = (dest_ct ++ added)%list
    ∧ (∀ el, el ∈ added ↔
             ∃ x c, el = Default x c ∧ Default x c ∈ src_ct ∧ Default x c ∉ dest_ct).
Proof.
  unfold ensure_default_types_from_source. intros H.
  apply add_missing_defaults_spec in H as (added & -> & Hadd & _).
  exists added. split; [done|]. intros el. rewrite Hadd. split.
  - intros ([x c] & Hd & Hs & Hn). destruct el as [x' c'|]; [|discriminate].
    injection Hd as -> ->. exists x, c. split; [done|].
    apply list_elem_of_omap in Hs as (el & Hel & Hp).
    destruct el as [x' c'|]; [|discriminate]. injection Hp as -> ->.
    split; [done|]. intros Hin. apply Hn, elem_of_list_to_set, list_elem_of_omap.
    by exists (Default x c).
  - intros (x & c & -> & Hs & Hn). exists (x, c). split; [done|]. split.
    + apply list_elem_of_omap. by exists (Default x c).
    + intros (el & Hel & Hp)%elem_of_list_to_set%list_elem_of_omap.
      destruct el as [x' c'|]; [|discriminate]. injection Hp as -> ->. done.
Qed.

Lemma ensure_default_types_additive_witness :
  ∃ added,
    [Default (Some "png") (Some "image/png"); Default (Some "xml") (Some "application/xml")]
    = ([Default (Some "png") (Some "image/png")] ++ added)%list
    ∧ (∀ el, el ∈ added ↔
             ∃ x c, el = Default x c
                    ∧ Default x c ∈ [Default (Some "xml") (Some "application/xml");
                                     Default (Some "png") (Some "image/png")]
                    ∧ Default x c ∉ [Default (Some "png") (Some "image/png")]).
Proof.
  apply (ensure_default_types_additive
           [Default (Some "png") (Some "image/png")]
           [Default (Some "xml") (Some "application/xml");
            Default (Some "png") (Some "image/png")]).
  vm_compute. reflexivity.
Defined.

(** C4 as stated fails: the destination maps [png] to [image/png], the
    source maps it to [image/x-png], and the merge appends the source's
    pair, so that [png] has two types afterwards. *)
Lemma ensure_default_types_adds_differing_type :
  ensure_default_types_from_source
    [Default (Some "png") (Some "image/png")]
    [Default (Some "png") (Some "image/x-png")]
  = Ok [Default (Some "png") (Some "image/png");
        Default (Some "png") (Some "image/x-png")].
Proof. vm_compute. reflexivity. Qed.

(* ===================================================================== *)
(** * File-system facts *)
(* ===================================================================== *)

Section FSFacts.

Implicit Types (cwd d k : list string) (fs : FS.t) (p : path) (s x : string).

Lemma no_slash_app a b : no_slash (a +:+ b) = no_slash a && no_slash b.
Proof.
  induction a as [|c a IH]; [done|]. rewrite app_cons. simpl. rewrite IH.
  by rewrite andb_assoc.
Qed.

Lemma mem_char_app c a b : mem_char c (a +:+ b) = mem_char c a || mem_char c b.
Proof.
  induction a as [|x a IH]; [done|]. rewrite app_cons. simpl. rewrite IH.
  by rewrite orb_assoc.
Qed.

Lemma all_digits_no_slash s : all_digits s = true → no_slash s = true.
Proof.
  induction s as [|c s IH]; [done|]. simpl. intros [Hc Hs]%andb_true_iff.
  rewrite (IH Hs), andb_true_r.
  destruct c as [[] [] [] [] [] [] [] []]; simpl in Hc; try discriminate; reflexivity.
Qed.

Lemma digits_of_N_all_digits n : all_digits (digits_of_N n) = true.
Proof.
  destruct (digits_of_N_spec n) as (c & r & -> & Hc & Hr). simpl. by rewrite Hc, Hr.
Qed.

Lemma str_no_slash z : no_slash (str z) = true.
Proof.
  unfold str. destruct (z <? 0).
  - rewrite no_slash_app. simpl. apply all_digits_no_slash, digits_of_N_all_digits.
  - apply all_digits_no_slash, digits_of_N_all_digits.
Qed.

Lemma split_slash_no_slash s : no_slash s = true → split_slash s = [s].
Proof.
  induction s as [|c s IH]; [done|]. simpl. intros [Hc Hs]%andb_true_iff.
  apply negb_true_iff in Hc. rewrite Hc, (IH Hs). done.
Qed.

Lemma Path_plain s : plain s → Path s = {| p_root := ""; p_parts := [s] |}.
Proof.
  intros (Hs & H0 & H1 & _). unfold Path. rewrite split_slash_no_slash by done.
  f_equal.
  - destruct s as [|c s]; [done|]. simpl in Hs. apply andb_true_iff in Hs as [Hc _].
    unfold root_of, startswith. simpl.
    destruct c as [[] [] [] [] [] [] [] []]; simpl in Hc; try discriminate; reflexivity.
  - assert (keep_part s = true) as Hk.
    { unfold keep_part. apply String.eqb_neq in H0, H1. by rewrite H0, H1. }
    rewrite filter_cons, decide_True by done. done.
Qed.

Lemma joinpath_plain p s :
  plain s → joinpath p s = {| p_root := p_root p; p_parts := p_parts p ++ [s] |}.
Proof. intros H. unfold joinpath. by rewrite (Path_plain s H). Qed.

Lemma walk_app fs l1 : ∀ cur l2,
  FS.walk fs cur (l1 ++ l2) =
  match FS.walk fs cur l1 with
  | Some c => FS.walk fs c l2
  | None => None
  end.
Proof.
  induction l1 as [|c l1 IH]; intros cur l2; [done|]. simpl.
  destruct (FS.is_dir fs cur); [|done]. destruct (String.eqb c ".."); apply IH.
Qed.

Lemma node_at_snoc (fs : FS.t) d x : FS.node_at fs (d ++ [x]) = fs !! (d ++ [x]).
Proof. unfold FS.node_at. by destruct d. Qed.

Lemma stat_child cwd (fs : FS.t) p d s :
  FS.resolve cwd fs p = Some d → FS.is_dir fs d = true → plain s →
  FS.resolve cwd fs (joinpath p s) = Some (d ++ [s])
  ∧ FS.stat cwd fs (joinpath p s) = fs !! (d ++ [s]).
Proof.
  intros Hr Hd Hs. unfold FS.stat, FS.resolve in *. rewrite (joinpath_plain _ _ Hs).
  unfold is_absolute in *. simpl. rewrite walk_app, Hr. simpl. rewrite Hd.
  destruct Hs as (_ & _ & _ & H2). apply String.eqb_neq in H2. rewrite H2.
  split; [done|]. apply node_at_snoc.
Qed.

Lemma child_of_spec d : ∀ k x, FS.child_of d k = Some x ↔ k = d ++ [x].
Proof.
  induction d as [|a d IH]; intros k x; simpl.
  - destruct k as [|y [|z k]]; simpl; naive_solver.
  - destruct k as [|b k]; [split; [discriminate|]; by destruct d|].
    destruct (String.eqb_spec a b) as [->|Hne].
    + rewrite IH. naive_solver.
    + naive_solver.
Qed.

Lemma listdir_spec cwd (fs : FS.t) p names x :
  FS.listdir cwd fs p = Ok names →
  x ∈ names ↔ ∃ d, FS.resolve cwd fs p = Some d ∧ is_Some (fs !! (d ++ [x])).
Proof.
  unfold FS.listdir. destruct (FS.resolve cwd fs p) as [d|]; [|discriminate].
  destruct (FS.node_at fs d) as [[c|]|]; try discriminate.
  intros [= <-]. rewrite list_elem_of_omap. split.
  - intros ([k v] & Hkv & Hc). apply elem_of_map_to_list in Hkv.
    apply child_of_spec in Hc. simpl in Hc. subst k. exists d. split; [done|]. by exists v.
  - intros (d' & [= <-] & v & Hv). exists (d ++ [x], v). split.
    + by apply elem_of_map_to_list.
    + by apply child_of_spec.
Qed.

Lemma stat_dir_inv cwd fs p :
  FS.stat cwd fs p = Some FS.Dir →
  ∃ d, FS.resolve cwd fs p = Some d ∧ FS.is_dir fs d = true
       ∧ FS.path_exists cwd fs p = true
       ∧ ∃ names, FS.listdir cwd fs p = Ok names.
Proof.
  unfold FS.path_exists, FS.listdir, FS.stat, FS.is_dir.
  destruct (FS.resolve cwd fs p) as [d|]; [|discriminate].
  intros H. exists d. rewrite H. split_and!; try done. by eexists.
Qed.

End FSFacts.

(* ===================================================================== *)
(** * The Name Allocator *)
(* ===================================================================== *)

Section AllocatorFacts.

Implicit Types (cwd d : list string) (fs : FS.t) (p : path).

Lemma uint_of_string_digits (s : string) :
  all_digits s = true → ∃ u, NilEmpty.uint_of_string s = Some u.
Proof.
  induction s as [|c s IH]; [by eexists|]. simpl.
  intros [Hc Hs]%andb_true_iff. destruct (IH Hs) as [u ->].
  destruct c as [[] [] [] [] [] [] [] []]; simpl in Hc; try discriminate;
    by eexists.
Qed.

Lemma int_digits_total (c : ascii) (r : string) :
  is_digit c = true → all_digits r = true → ∃ v, int (String c r) = Some v.
Proof.
  intros Hc Hr. rewrite int_digit_string by done.
  unfold int_unsigned. rewrite digit_groups_digits by done.
  unfold int_of_digits, NilZero.uint_of_string.
  destruct (uint_of_string_digits (String c r)) as [u ->];
    [simpl; by rewrite Hc, Hr | by eexists].
Qed.

Lemma take_digits_all (s : string) : all_digits (take_digits s) = true.
Proof.
  induction s as [|c s IH]; [done|]. simpl.
  destruct (is_digit c) eqn:E; [|done]. simpl. by rewrite E, IH.
Qed.

Lemma search_digits_spec (s d : string) :
  search_digits s = Some d →
  ∃ c r, d = String c r ∧ is_digit c = true ∧ all_digits r = true.
Proof.
  induction s as [|c s IH]; [discriminate|]. simpl.
  destruct (is_digit c) eqn:E; [|exact IH].
  intros [= <-]. exists c, (take_digits s). split_and!; [done|done|apply take_digits_all].
Qed.

Lemma search_digits_skip (p s : string) :
  no_digit p = true → search_digits (p +:+ s) = search_digits s.
Proof.
  induction p as [|c p IH]; [done|]. rewrite app_cons. simpl.
  intros [Hc Hp]%andb_true_iff. apply negb_true_iff in Hc. rewrite Hc. by apply IH.
Qed.

Lemma take_digits_app (ds q : string) :
  all_digits ds = true → take_digits q = "" → take_digits (ds +:+ q) = ds.
Proof.
  induction ds as [|c ds IH]; [done|]. rewrite app_cons. simpl.
  intros [Hc Hs]%andb_true_iff Hq. rewrite Hc. f_equal. by apply IH.
Qed.

Lemma search_digits_run (p ds q : string) :
  no_digit p = true → all_digits ds = true → ds ≠ "" → take_digits q = "" →
  search_digits (p +:+ ds +:+ q) = Some ds.
Proof.
  intros Hp Hd Hne Hq. rewrite search_digits_skip by done.
  destruct ds as [|c ds]; [done|]. rewrite app_cons. simpl in *.
  apply andb_true_iff in Hd as [Hc Hd]. rewrite Hc. by rewrite take_digits_app.
Qed.

(** A name of the canonical shape carries its own number. *)
Lemma entry_index_canonical (prefix : string) (k : Z) :
  no_digit prefix = true → 0 ≤ k →
  entry_index prefix ".xml" (prefix +:+ str k +:+ ".xml") = Some k.
Proof.
  intros Hp Hk. unfold entry_index. rewrite startswith_app.
  rewrite <- app_assoc_s, endswith_app, app_assoc_s. simpl andb. cbv iota.
  assert (str k = digits_of_N (Z.to_N k)) as E.
  { unfold str. destruct (Z.ltb_spec k 0); [lia|done]. }
  destruct (digits_of_N_spec (Z.to_N k)) as (c & r & E' & Hc & Hr).
  rewrite search_digits_run; try done.
  - rewrite <- (int_str k). done.
  - rewrite E, E'. simpl. by rewrite Hc, Hr.
  - by rewrite E, E'.
Qed.

Lemma max_index_step_ok (prefix suffix : string) (acc : Z) (x : string) :
  ∃ acc',
    max_index_step prefix suffix (Ok acc) x = Ok acc'
    ∧ acc ≤ acc'
    ∧ (∀ k, entry_index prefix suffix x = Some k → k ≤ acc')
    ∧ (acc' = acc ∨ entry_index prefix suffix x = Some acc').
Proof.
  unfold max_index_step, entry_index. simpl.
  destruct (startswith prefix x && endswith suffix x);
    [|exists acc; split_and!; [done|lia|done|by left]].
  destruct (search_digits x) as [d|] eqn:E;
    [|exists acc; split_and!; [done|lia|done|by left]].
  apply search_digits_spec in E as (c & r & -> & Hc & Hr).
  destruct (int_digits_total c r Hc Hr) as [v Hv]. rewrite Hv.
  exists (acc `max` v). split_and!; [done|lia|intros k [= <-]; lia|].
  destruct (Z.max_spec acc v) as [[_ ->]|[_ ->]]; [by right|by left].
Qed.

Lemma max_index_fold (prefix suffix : string) (names : list string) :
  ∀ acc, ∃ n,
    fold_left (max_index_step prefix suffix) names (Ok acc) = Ok n
    ∧ acc ≤ n
    ∧ (∀ x k, x ∈ names → entry_index prefix suffix x = Some k → k ≤ n)
    ∧ (n = acc ∨ ∃ x, x ∈ names ∧ entry_index prefix suffix x = Some n).
Proof.
  induction names as [|x names IH]; intros acc; cbn [fold_left].
  - exists acc. split_and!; [done|lia| |by left]. by intros ? ? ?%elem_of_nil.
  - destruct (max_index_step_ok prefix suffix acc x) as (acc' & -> & Hle & Hub & Hat).
    destruct (IH acc') as (n & Hn & Hle' & Hub' & Hat'). exists n.
    split_and!; [done|lia| |].
    + intros y k [->|Hy]%elem_of_cons Hk; [apply Hub in Hk; lia | by eapply Hub'].
    + destruct Hat' as [->|(y & Hy & Hk)].
      * destruct Hat as [->|Hat]; [by left|]. right. exists x.
        split; [apply list_elem_of_here|done].
      * right. exists y. split; [by apply list_elem_of_further|done].
Qed.

Lemma kind_prefix_no_digit (folder prefix : string) :
  kind_prefix folder = Some prefix → no_digit prefix = true.
Proof.
  unfold kind_prefix.
  repeat (destruct (String.eqb folder _); [by intros [= <-]|]). discriminate.
Qed.

Lemma pick_numbered cwd fs p (folder fname base ext prefix : string) :
  kind_prefix folder = Some prefix →
  pick_new_filename cwd fs p folder fname base ext = numbered cwd fs p prefix.
Proof.
  unfold kind_prefix, pick_new_filename.
  repeat (destruct (String.eqb folder _); [by intros [= <-]|]). discriminate.
Qed.

Lemma pick_fallback cwd fs p (folder fname base ext : string) :
  kind_prefix folder = None →
  pick_new_filename cwd fs p folder fname base ext
  = first_unused cwd (2 + size fs) fs p base ext fname 1.
Proof.
  unfold kind_prefix, pick_new_filename.
  repeat (destruct (String.eqb folder _); [discriminate|]). done.
Qed.

Lemma candidate_inj (base ext : string) : Inj eq eq (candidate base ext).
Proof.
  intros i j H. unfold candidate in H.
  apply String.app_inj in H. apply (String.app_inj "_") in H.
  apply app_inv_tail_s in H. by apply str_inj.
Qed.

Lemma candidate_plain (base ext : string) (i : Z) :
  no_slash base = true → no_slash ext = true → plain (candidate base ext i).
Proof.
  intros Hb He. unfold candidate.
  assert (mem_char "_" (base +:+ "_" +:+ str i +:+ ext) = true) as Hm.
  { rewrite mem_char_app. simpl. apply orb_true_r. }
  split_and!.
  - rewrite !no_slash_app, Hb, He, str_no_slash. done.
  - intros E. by rewrite E in Hm.
  - intros E. by rewrite E in Hm.
  - intros E. by rewrite E in Hm.
Qed.

Lemma first_unused_ok cwd fs p (base ext : string) (fuel : nat) :
  ∀ (c : string) (i : Z) (r : string),
    first_unused cwd fuel fs p base ext c i = Ok r →
    FS.path_exists cwd fs (joinpath p r) = false
    ∧ (r = c ∨ ∃ j, i ≤ j ∧ r = candidate base ext j).
Proof.
  induction fuel as [|fuel IH]; intros c i r; simpl; [discriminate|].
  destruct (FS.path_exists cwd fs (joinpath p c)) eqn:E.
  - intros H. apply IH in H as [Hn [->|(j & Hj & ->)]].
    + split; [done|]. right. exists i. split; [lia|done].
    + split; [done|]. right. exists j. split; [lia|done].
  - intros [= <-]. split; [done|by left].
Qed.

Lemma first_unused_exhausted cwd fs p (base ext : string) (fuel : nat) :
  ∀ (c : string) (i : Z),
    first_unused cwd fuel fs p base ext c i ≠ OutOfFuel
    ∨ ∀ j : nat, (S j < fuel)%nat →
        FS.path_exists cwd fs (joinpath p (candidate base ext (i + Z.of_nat j))) = true.
Proof.
  induction fuel as [|fuel IH]; intros c i; simpl; [right; intros; lia|].
  destruct (FS.path_exists cwd fs (joinpath p c)) eqn:E; [|by left].
  destruct fuel as [|fuel]; [right; intros; lia|].
  destruct (IH (candidate base ext i) (i + 1)) as [H|H]; [by left|].
  simpl in H |- *.
  destruct (FS.path_exists cwd fs (joinpath p (candidate base ext i))) eqn:E';
    [|left; unfold candidate in E'; by rewrite E'].
  right. intros [|j] Hj.
  - by rewrite Z.add_0_r.
  - replace (i + Z.of_nat (S j)) with (i + 1 + Z.of_nat j) by lia. apply H. lia.
Qed.

Lemma first_unused_no_raise cwd fs p (base ext : string) (fuel : nat) :
  ∀ (c : string) (i : Z) (x : exn),
    first_unused cwd fuel fs p base ext c i ≠ Raise x.
Proof.
  induction fuel as [|fuel IH]; intros c i x; simpl; [done|].
  destruct (FS.path_exists cwd fs (joinpath p c)); [apply IH|done].
Qed.

(** The fallback loop always ends: the candidates it rejects are distinct
    entries of the destination folder. *)
Lemma first_unused_returns cwd fs p (base ext fname : string) :
  FS.stat cwd fs p = Some FS.Dir →
  no_slash base = true → no_slash ext = true →
  ∃ r, first_unused cwd (2 + size fs) fs p base ext fname 1 = Ok r.
Proof.
  intros Hdir Hb He.
  destruct (first_unused cwd (2 + size fs) fs p base ext fname 1) as [r|x|] eqn:E;
    [by eexists | by apply first_unused_no_raise in E |].
  exfalso.
  destruct (first_unused_exhausted cwd fs p base ext (2 + size fs) fname 1)
    as [H|H]; [done|].
  apply stat_dir_inv in Hdir as (d & Hres & Hd & _).
  set (keys := (λ j : nat, d ++ [candidate base ext (1 + Z.of_nat j)]) <$> seq 0 (S (size fs))).
  assert (NoDup keys) as Hnd.
  { apply NoDup_fmap_2; [|apply NoDup_seq].
    intros i j Hij. apply app_inv_head in Hij. injection Hij as Hij.
    apply candidate_inj in Hij. lia. }
  assert (list_to_set keys ⊆ dom fs) as Hsub.
  { intros k Hk. apply elem_of_list_to_set, list_elem_of_fmap in Hk as (j & -> & Hj).
    apply elem_of_seq in Hj. apply elem_of_dom.
    specialize (H j ltac:(lia)). unfold FS.path_exists in H.
    destruct (stat_child cwd fs p d (candidate base ext (1 + Z.of_nat j)) Hres Hd
                (candidate_plain base ext _ Hb He)) as [_ Hs].
    rewrite Hs in H. destruct (fs !! _); [by eexists|done]. }
  apply subseteq_size in Hsub. rewrite size_list_to_set, size_dom in Hsub by done.
  unfold keys in Hsub. rewrite length_fmap, length_seq in Hsub. lia.
Qed.

Lemma splitext_app (s b x : string) : splitext s = (b, x) → s = b +:+ x.
Proof.
  assert (Hl : ∀ s ld t : string, leading_dots s = (ld, t) → s = ld +:+ t).
  { clear. induction s as [|c s IH]; intros ld t; simpl; [by intros [= <- <-]|].
    destruct (Ascii.eqb_spec c ".") as [->|Hne].
    - destruct (leading_dots s) as [ld' t'] eqn:E. intros [= <- <-].
      rewrite app_cons. f_equal. by apply IH.
    - assert (leading_dots (String c s) = ("", String c s)) as E.
      { simpl. destruct c as [[] [] [] [] [] [] [] []]; try done. }
      simpl in E. rewrite E. by intros [= <- <-]. }
  assert (Hr : ∀ t b e : string, rsplit_dot t = Some (b, e) → t = b +:+ e).
  { clear. induction t as [|c t IH]; intros b e; simpl; [discriminate|].
    destruct (rsplit_dot t) as [[b' e']|].
    - intros [= <- <-]. rewrite app_cons. f_equal. by apply IH.
    - destruct (Ascii.eqb c "."); [|discriminate]. by intros [= <- <-]. }
  unfold splitext. destruct (leading_dots s) as [ld t] eqn:Ed.
  apply Hl in Ed. destruct (rsplit_dot t) as [[b' e']|] eqn:Er.
  - apply Hr in Er. intros [= <- <-]. by rewrite app_assoc_s, <- Er.
  - intros [= <- <-]. by rewrite app_nil_r_s.
Qed.

End AllocatorFacts.

Section AllocatorTheorem.

Implicit Types (cwd d : list string) (fs : FS.t) (p : path).

Lemma split_slash_parts (s : string) :
  ∀ x, x ∈ split_slash s → no_slash x = true.
Proof.
  induction s as [|c s IH]; simpl.
  - by intros x ->%list_elem_of_singleton.
  - destruct (Ascii.eqb c "/") eqn:E.
    + intros x [->|Hx]%elem_of_cons; [done|by apply IH].
    + destruct (split_slash s) as [|h t] eqn:Es.
      * intros x ->%list_elem_of_singleton. simpl. by rewrite E.
      * intros x [->|Hx]%elem_of_cons.
        -- simpl. rewrite E. simpl. apply IH, list_elem_of_here.
        -- by apply IH, list_elem_of_further.
Qed.

(** [Path(s).name] is a single component. *)
Lemma name_no_slash (s : string) : no_slash (name (Path s)) = true.
Proof.
  unfold name, Path. simpl.
  set (l := filter _ _).
  assert (∀ x, x ∈ l → no_slash x = true) as H.
  { intros x Hx. apply list_elem_of_filter in Hx as [_ Hx]. by apply (split_slash_parts s). }
  clearbody l. induction l as [|a l IH]; [done|].
  destruct l as [|b l]; [apply H, list_elem_of_here|].
  apply IH. intros x Hx. by apply H, list_elem_of_further.
Qed.

Lemma is_dir_mono fs fs' d : fs ⊆ fs' → FS.is_dir fs d = true → FS.is_dir fs' d = true.
Proof.
  unfold FS.is_dir, FS.node_at. intros Hsub. destruct d as [|a d]; [done|].
  destruct (fs !! (a :: d)) as [[c|]|] eqn:E; try discriminate.
  by rewrite (lookup_weaken _ _ _ _ E Hsub).
Qed.

Lemma chain_mono fs fs' d : fs ⊆ fs' → chain fs d → chain fs' d.
Proof. intros Hsub H pre Hpre. eapply is_dir_mono; eauto. Qed.

Lemma chain_removelast fs d : chain fs d → chain fs (removelast d).
Proof.
  intros H pre Hpre. apply H. etrans; [exact Hpre|].
  destruct d as [|a d] using rev_ind; [done|].
  rewrite removelast_last. by apply prefix_app_r.
Qed.

Lemma prefix_snoc_inv (pre d : list string) (x : string) :
  pre `prefix_of` d ++ [x] → pre = d ++ [x] ∨ pre `prefix_of` d.
Proof.
  intros [k Hk]. destruct k as [|y k _] using rev_ind.
  - left. by rewrite app_nil_r in Hk.
  - right. rewrite app_assoc in Hk. apply app_inj_tail in Hk as [-> _].
    by apply prefix_app_r.
Qed.

Lemma chain_snoc fs d x :
  chain fs d → FS.is_dir fs (d ++ [x]) = true → chain fs (d ++ [x]).
Proof.
  intros H Hx pre Hpre. apply prefix_snoc_inv in Hpre as [->|Hpre]; [done|by apply H].
Qed.

Lemma chain_self fs d : chain fs d → FS.is_dir fs d = true.
Proof. intros H. by apply H. Qed.

(** [mkdir(parents=True, exist_ok=True)] only adds entries, and the path
    it was given is a directory afterwards. *)
Lemma mkdirs_spec (l : list string) :
  ∀ fs cur fs',
    FS.mkdirs fs cur l = Ok fs' → chain fs cur →
    fs ⊆ fs' ∧ ∃ d, FS.walk fs' cur l = Some d ∧ chain fs' d.
Proof.
  induction l as [|c l IH]; intros fs cur fs'; simpl.
  - intros [= <-] Hc. split; [done|]. by exists cur.
  - destruct (String.eqb c "..") eqn:E.
    + intros H Hc. apply IH in H as [Hsub (d & Hw & Hd)]; [|by apply chain_removelast].
      split; [done|]. exists d. split; [|done].
      by rewrite (is_dir_mono _ _ _ Hsub (chain_self _ _ Hc)).
    + rewrite node_at_snoc.
      destruct (fs !! (cur ++ [c])) as [[?|]|] eqn:En; [discriminate| |].
      * intros H Hc. apply IH in H as [Hsub (d & Hw & Hd)].
        -- split; [done|]. exists d. split; [|done].
           by rewrite (is_dir_mono _ _ _ Hsub (chain_self _ _ Hc)).
        -- apply chain_snoc; [done|]. unfold FS.is_dir. by rewrite node_at_snoc, En.
      * intros H Hc.
        assert (fs ⊆ <[cur ++ [c] := FS.Dir]> fs) as Hins by by apply insert_subseteq.
        apply IH in H as [Hsub (d & Hw & Hd)].
        -- split; [by etrans|]. exists d. split; [|done].
           rewrite (is_dir_mono fs fs' cur); [done|by etrans|by apply chain_self].
        -- apply chain_snoc; [by eapply chain_mono|].
           unfold FS.is_dir. by rewrite node_at_snoc, lookup_insert_eq.
Qed.

Lemma directory_stat cwd fs p :
  directory cwd fs p → FS.stat cwd fs p = Some FS.Dir.
Proof.
  intros (d & Hr & Hc). unfold FS.stat. rewrite Hr.
  apply chain_self in Hc. unfold FS.is_dir in Hc.
  by destruct (FS.node_at fs d) as [[?|]|].
Qed.

(** After [ensure_dir] the folder is a directory. *)
Lemma ensure_dir_directory cwd fs p fs' :
  is_absolute p = true →
  ensure_dir cwd fs p = Ok fs' →
  fs ⊆ fs' ∧ directory cwd fs' p.
Proof.
  unfold ensure_dir, FS.mkdir_parents, directory, FS.resolve. intros ->.
  intros H. apply mkdirs_spec in H as [Hsub (d & -> & Hd)].
  - split; [done|]. by exists d.
  - intros pre ->%prefix_nil_inv. done.
Qed.

End AllocatorTheorem.

(** C6, as the code has it.  In a destination folder that is a directory,
    and for a file name that is a single path component, the Name Allocator
    returns a name, and that name is not the name of any entry of the
    folder.  For the numbered kinds the name is the kind's prefix, then
    one plus the greatest index found in the folder, then [.xml]; the
    index of an entry is the first run of digits of a name that starts
    with the prefix and ends with [.xml], and the greatest index is zero
    when no entry has one.  In particular an entry [prefix k .xml] has
    index [k]. *)
Theorem pick_new_filename_unused
    (cwd : list string) (fs : FS.t) (dst_folder : path) (folder fname : string) :
  directory cwd fs dst_folder →
  no_slash fname = true →
  ∃ new names,
    pick_new_filename cwd fs dst_folder folder fname
                      (splitext fname).1 (splitext fname).2 = Ok new
    ∧ FS.listdir cwd fs dst_folder = Ok names
    ∧ (new ∉ names)
    ∧ ∀ prefix, kind_prefix folder = Some prefix →
        ∃ n, new = (prefix +:+ str (n + 1) +:+ ".xml")
             ∧ 0 ≤ n
             ∧ (∀ x k, x ∈ names → entry_index prefix ".xml" x = Some k → k ≤ n)
             ∧ (n = 0 ∨ ∃ x, x ∈ names ∧ entry_index prefix ".xml" x = Some n)
             ∧ (∀ k, 0 ≤ k → (prefix +:+ str k +:+ ".xml") ∈ names → k ≤ n).
Proof.
  intros Hdirectory Hf.
  pose proof (directory_stat _ _ _ Hdirectory) as Hdir.
  destruct Hdirectory as (d & Hres & Hchain).
  destruct (stat_dir_inv _ _ _ Hdir) as (d0 & Hres0 & Hd & Hex & names & Hls).
  rewrite Hres in Hres0. injection Hres0 as <-.
  destruct (kind_prefix folder) as [prefix|] eqn:Ek.
  - rewrite (pick_numbered _ _ _ _ _ _ _ _ Ek).
    unfold numbered, max_index. rewrite Hex, Hls. simpl.
    destruct (max_index_fold prefix ".xml" names 0) as (n & -> & Hle & Hub & Hat).
    pose proof (kind_prefix_no_digit _ _ Ek) as Hp.
    assert (∀ k, 0 ≤ k → (prefix +:+ str k +:+ ".xml") ∈ names → k ≤ n) as Hcan.
    { intros k Hk Hin. eapply Hub; [exact Hin|]. by apply entry_index_canonical. }
    simpl. eexists _, names. split_and!; [done|done| |].
    + intros Hin. apply Hcan in Hin; lia.
    + intros ? [= <-]. exists n. split_and!; done.
  - rewrite (pick_fallback _ _ _ _ _ _ _ Ek).
    destruct (splitext fname) as [base ext] eqn:Es. simpl.
    pose proof (splitext_app _ _ _ Es) as Hsplit.
    assert (no_slash base = true ∧ no_slash ext = true) as [Hb He].
    { rewrite Hsplit, no_slash_app in Hf. by apply andb_true_iff in Hf. }
    destruct (first_unused_returns cwd fs dst_folder base ext fname Hdir Hb He) as [r Hr].
    exists r, names. split_and!; [done|done| |discriminate].
    apply first_unused_ok in Hr as [Hne Hshape].
    intros Hin. apply (listdir_spec _ _ _ _ r Hls) in Hin as (d' & Hd' & Hsome).
    rewrite Hres in Hd'. injection Hd' as <-.
    assert (plain r) as Hplain.
    { destruct Hshape as [->|(j & _ & ->)]; [|by apply candidate_plain].
      split; [done|]. unfold FS.path_exists, FS.stat, FS.resolve in Hne.
      unfold FS.resolve in Hres.
      assert (FS.node_at fs d = Some FS.Dir) as Hnode.
      { unfold FS.is_dir in Hd. by destruct (FS.node_at fs d) as [[?|]|]. }
      split_and!; intros ->.
      - change (joinpath dst_folder "") with
          {| p_root := p_root dst_folder; p_parts := p_parts dst_folder ++ [] |} in Hne.
        unfold is_absolute in *. simpl in Hne.
        by rewrite app_nil_r, Hres, Hnode in Hne.
      - change (joinpath dst_folder ".") with
          {| p_root := p_root dst_folder; p_parts := p_parts dst_folder ++ [] |} in Hne.
        unfold is_absolute in *. simpl in Hne.
        by rewrite app_nil_r, Hres, Hnode in Hne.
      - change (joinpath dst_folder "..") with
          {| p_root := p_root dst_folder; p_parts := p_parts dst_folder ++ [".."] |} in Hne.
        unfold is_absolute in *. simpl in Hne.
        rewrite walk_app, Hres in Hne. simpl in Hne. rewrite Hd in Hne.
        pose proof (chain_self _ _ (chain_removelast _ _ Hchain)) as Hpar.
        unfold FS.is_dir in Hpar.
        by destruct (FS.node_at fs (removelast d)) as [[?|]|]. }
    destruct (stat_child cwd fs dst_folder d r Hres Hd Hplain) as [_ Hs].
    unfold FS.path_exists in Hne. rewrite Hs in Hne.
    destruct Hsome as [v Hv]. by rewrite Hv in Hne.
Qed.

(* ===================================================================== *)
(** * The Dependency Copier *)
(* ===================================================================== *)

Section CopierFacts.

Variable e : env.

Lemma bind_ok {A B} (c : res A) (k : A → res B) (b : B) :
  c ≫= k = Ok b → ∃ a, c = Ok a ∧ k a = Ok b.
Proof. destruct c as [a| |]; simpl; [by exists a|done..]. Qed.

Lemma observe_ok {A B} (f : A → B) (r : res A) (v : B) :
  observe f r = Some v → ∃ a, r = Ok a ∧ f a = v.
Proof. destruct r as [a| |]; simpl; [|done..]. intros [= <-]. by exists a. Qed.

Lemma extends_refl st : extends e st st.
Proof. by split_and!. Qed.

Lemma extends_trans st1 st2 st3 :
  extends e st1 st2 → extends e st2 st3 → extends e st1 st3.
Proof.
  intros (Hm & Hc & Hp) (Hm' & Hc' & Hp'). split_and!; [by etrans|by etrans|auto].
Qed.

Lemma extends_same st st' :
  name_map st' = name_map st → copied st' = copied st → extends e st st'.
Proof.
  intros Hm Hc. split_and!; [by rewrite Hm|by rewrite Hc|].
  unfold pass_inv. by rewrite Hm, Hc.
Qed.

Lemma copies_of_app k l1 l2 : copies_of k (l1 ++ l2) = (copies_of k l1 + copies_of k l2)%nat.
Proof. unfold copies_of. by rewrite filter_app, length_app. Qed.

Lemma extends_insert st st' (p d : string) :
  name_map st !! p = None →
  name_map st' = <[p := d]> (name_map st) →
  copied st' = copied st ++ [(src_root e, p, d)] →
  extends e st st'.
Proof.
  intros Hn Hm Hc. split_and!.
  - rewrite Hm. by apply insert_subseteq.
  - rewrite Hc. by apply prefix_app_r.
  - intros log0 (l & Hl & Hev & Hcount). exists (l ++ [(src_root e, p, d)]).
    rewrite Hm, Hc, Hl, <- app_assoc. split_and!; [done| |].
    + intros ev [Hin| ->%list_elem_of_singleton]%elem_of_app.
      * destruct (Hev _ Hin) as [? Hk]. split; [done|].
        rewrite lookup_insert_ne; [done|]. intros Heq. rewrite <- Heq in Hk. congruence.
      * simpl. by rewrite lookup_insert_eq.
    + intros k. rewrite copies_of_app, Hcount.
      unfold copies_of. rewrite filter_cons, filter_nil. simpl.
      destruct (decide (p = k)) as [->|Hne].
      * by rewrite lookup_insert_eq, Hn.
      * rewrite lookup_insert_ne by done. destruct (name_map st !! k); simpl; lia.
Qed.

(** The loop over the relationships keeps what the recursive calls
    keep. *)
Lemma patch_relationships_extends
    (rec : string → state → res (string * state)) (part_rel folder : string) :
  (∀ p st r st', rec p st = Ok (r, st') → copy_post e p st r st') →
  ∀ rels changed st rels' changed' st',
    patch_relationships e rec part_rel folder rels changed st = Ok (rels', changed', st') →
    extends e st st'.
Proof.
  intros Hrec. induction rels as [|rel rels IH]; intros changed st rels' changed' st'; simpl.
  - intros [= _ _ <-]. apply extends_refl.
  - destruct (rel_target rel) as [target|].
    + destruct (_ && startswith "../" target).
      * intros H. apply bind_ok in H as ([dep st1] & Hcall & H).
        apply bind_ok in H as (rp & _ & H).
        apply bind_ok in H as ([[rest c'] st2] & Hrest & H).
        injection H as _ _ <-.
        apply Hrec in Hcall as [Hext _]. apply IH in Hrest.
        by eapply extends_trans.
      * intros H. apply bind_ok in H as ([[rest c'] st2] & Hrest & H).
        injection H as _ _ <-. by eapply IH.
    + intros H. apply bind_ok in H as ([[rest c'] st2] & Hrest & H).
      injection H as _ _ <-. by eapply IH.
Qed.

Lemma copy_body_post (rec : string → state → res (string * state)) :
  (∀ p st r st', rec p st = Ok (r, st') → copy_post e p st r st') →
  ∀ p st r st', copy_body e rec p st = Ok (r, st') → copy_post e p st r st'.
Proof.
  intros Hrec p st r st'. unfold copy_body.
  destruct (name_map st !! p) as [d|] eqn:Hmap.
  { intros [= <- <-]. split; [apply extends_refl|by left]. }
  destruct (FS.path_exists (cwd e) (fs st) (joinpath (src_root e) p)) eqn:Hex; simpl.
  2:{ intros [= <- <-]. split; [apply extends_refl|]. right. by split_and!. }
  destruct (splitext (name (Path p))) as [base ext].
  intros H. apply bind_ok in H as (fs1 & _ & H).
  apply bind_ok in H as (new_fname & _ & H).
  apply bind_ok in H as (fs2 & _ & H).
  apply bind_ok in H as (ct & _ & H).
  match type of H with
  | context [with_fs ?s _] => set (st1 := s) in *
  end.
  assert (extends e st st1) as Hext1 by (by eapply extends_insert).
  assert (name_map st1 !! p = Some r → extends e st1 st' → copy_post e p st r st') as Hfin.
  { intros Hr Hx. split; [by eapply extends_trans|]. left.
    destruct Hx as (Hsub & _). by eapply lookup_weaken. }
  destruct (FS.path_exists (cwd e) fs2 _).
  - apply bind_ok in H as (fs3 & _ & H).
    apply bind_ok in H as (fs4 & _ & H).
    apply bind_ok in H as (rels_tree & _ & H).
    apply bind_ok in H as ([[rels' changed] st2] & Hpatch & H).
    apply patch_relationships_extends in Hpatch; [|done].
    assert (extends e st1 st2) as Hext2.
    { eapply extends_trans; [|exact Hpatch]. by apply extends_same. }
    destruct changed.
    + apply bind_ok in H as (fs5 & _ & H). injection H as <- <-.
      apply Hfin; [apply lookup_insert_eq|].
      eapply extends_trans; [exact Hext2|]. by apply extends_same.
    + injection H as <- <-. apply Hfin; [apply lookup_insert_eq|done].
  - injection H as <- <-. apply Hfin; [apply lookup_insert_eq|apply extends_refl].
Qed.

Lemma copy_post_holds (fuel : nat) :
  ∀ p st r st',
    copy_part_with_dependencies fuel e p st = Ok (r, st') → copy_post e p st r st'.
Proof.
  induction fuel as [|fuel IH]; intros p st r st'; simpl; [discriminate|].
  by apply copy_body_post.
Qed.

Lemma pass_inv_start st : pass_inv e (copied st) {| fs := fs st; name_map := ∅;
                                                  ct_dst := ct_dst st; copied := copied st |}.
Proof.
  exists []. simpl. split_and!; [by rewrite app_nil_r|by intros ? ?%elem_of_nil|].
  intros k. by rewrite lookup_empty.
Qed.

End CopierFacts.

(** C9.  When the requested part is not in the name map and does not
    exist in the source tree, the copier returns the path it was given
    and the state it was given: nothing is written, the name map and the
    destination manifest are unchanged, no copy is recorded.  (The source
    manifest is an argument the copier only reads.) *)
Theorem copy_missing_part (fuel : nat) (e : env) (part_rel : string) (st : state) :
  name_map st !! part_rel = None →
  FS.path_exists (cwd e) (fs st) (joinpath (src_root e) part_rel) = false →
  copy_part_with_dependencies (S fuel) e part_rel st = Ok (part_rel, st).
Proof. intros Hmap Hex. simpl. unfold copy_body. by rewrite Hmap, Hex. Qed.

(** The memo on one spelling of a path.  In a pass (a state that keeps
    the pass invariant), when a request for a path string returns, a
    second request for the same string returns the same destination path
    and leaves the state as it is, file system included; the trace of the
    pass has one part copy under that string, provided there was a part
    to copy.  Nothing is said here of a second spelling of the same
    path. *)
Lemma copy_twice_same_destination
    (fuel : nat) (e : env) (log0 : list (path * string * string))
    (part_rel : string) (st : state) (d1 : string) (st1 : state) :
  pass_inv e log0 st →
  copy_part_with_dependencies fuel e part_rel st = Ok (d1, st1) →
  pass_inv e log0 st1
  ∧ (∀ fuel', copy_part_with_dependencies (S fuel') e part_rel st1 = Ok (d1, st1))
  ∧ (is_Some (name_map st !! part_rel)
     ∨ FS.path_exists (cwd e) (fs st) (joinpath (src_root e) part_rel) = true →
     copies_of part_rel (copies_since log0 st1) = 1%nat
     ∧ (src_root e, part_rel, d1) ∈ copies_since log0 st1).
Proof.
  intros Hinv Hcall. apply copy_post_holds in Hcall as [(Hsub & Hpre & Hkeep) Hres].
  pose proof (Hkeep _ Hinv) as Hinv1. split; [done|]. split.
  - intros fuel'. simpl. unfold copy_body.
    destruct Hres as [Hr|(-> & -> & Hn & Hex)]; [by rewrite Hr|by rewrite Hn, Hex].
  - intros Hpart. destruct Hinv1 as (l & Hl & Hev & Hcount).
    assert (copies_since log0 st1 = l) as ->.
    { unfold copies_since. by rewrite Hl, drop_app_length. }
    assert (name_map st1 !! part_rel = Some d1) as Hr.
    { destruct Hres as [Hr|(-> & -> & Hn & Hex)]; [done|].
      destruct Hpart as [[? Hs]|Hx]; congruence. }
    specialize (Hcount part_rel) as Hc. rewrite Hr in Hc. split; [done|].
    unfold copies_of in Hc.
    destruct (filter (λ ev, ev.1.2 = part_rel) l) as [|ev ?] eqn:Ef; [discriminate|].
    assert (ev ∈ filter (λ ev, ev.1.2 = part_rel) l) as Hin
      by (rewrite Ef; apply list_elem_of_here).
    apply list_elem_of_filter in Hin as [Hk Hin].
    destruct (Hev _ Hin) as [Hs Hd]. rewrite Hk, Hr in Hd.
    destruct ev as [[s k] d]. simpl in *. by simplify_eq.
Qed.

(* ===================================================================== *)
(** * Archive extraction *)
(* ===================================================================== *)

Section ExtractFacts.

Implicit Types (cwd d k n : list string) (fs : FS.t) (p q : path).

Lemma is_dir_insert_file fs n c :
  FS.node_at fs n ≠ Some FS.Dir →
  ∀ k, FS.is_dir (<[n := FS.File c]> fs) k = FS.is_dir fs k.
Proof.
  intros Hn k. unfold FS.is_dir, FS.node_at in *. destruct k as [|a k]; [done|].
  destruct (decide (n = a :: k)) as [->|Hne].
  - rewrite lookup_insert_eq. by destruct (fs !! (a :: k)) as [[?|]|].
  - by rewrite lookup_insert_ne.
Qed.

Lemma walk_is_dir_ext fs fs' :
  (∀ k, FS.is_dir fs' k = FS.is_dir fs k) →
  ∀ l cur, FS.walk fs' cur l = FS.walk fs cur l.
Proof.
  intros H. induction l as [|c l IH]; intros cur; simpl; [done|].
  rewrite H. destruct (FS.is_dir fs cur); [|done]. destruct (String.eqb c ".."); apply IH.
Qed.

Lemma walk_mono fs fs' : fs ⊆ fs' →
  ∀ l cur n, FS.walk fs cur l = Some n → FS.walk fs' cur l = Some n.
Proof.
  intros Hsub. induction l as [|c l IH]; intros cur n; simpl; [done|].
  destruct (FS.is_dir fs cur) eqn:E; [|discriminate].
  rewrite (is_dir_mono _ _ _ Hsub E). destruct (String.eqb c ".."); apply IH.
Qed.

Lemma walk_plain_list fs (l : list string) :
  Forall (λ x, valid_member_part x = true) l →
  ∀ cur n, FS.walk fs cur l = Some n → n = cur ++ l.
Proof.
  induction 1 as [|c l Hc Hl IH]; intros cur n; simpl.
  - intros [= <-]. by rewrite app_nil_r.
  - destruct (FS.is_dir fs cur); [|discriminate].
    unfold valid_member_part in Hc. apply negb_true_iff in Hc.
    apply orb_false_iff in Hc as [_ ->]. intros H%IH. by rewrite H, <- app_assoc.
Qed.

Lemma node_at_mono fs fs' n v : fs ⊆ fs' → FS.node_at fs n = Some v → FS.node_at fs' n = Some v.
Proof.
  unfold FS.node_at. intros Hsub. destruct n; [done|]. intros H.
  by eapply lookup_weaken.
Qed.

Lemma read_mono cwd fs fs' p c :
  fs ⊆ fs' → FS.read cwd fs p = Ok c → FS.read cwd fs' p = Ok c.
Proof.
  intros Hsub. unfold FS.read, FS.stat, FS.resolve.
  destruct (FS.walk fs _ _) as [n|] eqn:E; [|discriminate].
  rewrite (walk_mono _ _ Hsub _ _ _ E).
  destruct (FS.node_at fs n) as [[c'|]|] eqn:En; try discriminate.
  intros [= <-]. by rewrite (node_at_mono _ _ _ _ Hsub En).
Qed.

Lemma mkdir_parents_mono cwd fs p fs' :
  is_absolute p = true → FS.mkdir_parents cwd fs p = Ok fs' → fs ⊆ fs'.
Proof.
  unfold FS.mkdir_parents. intros -> H. apply mkdirs_spec in H as [H _]; [done|].
  by intros pre ->%prefix_nil_inv.
Qed.

Lemma write_spec cwd fs p c fs' :
  FS.write cwd fs p c = Ok fs' →
  ∃ n, FS.resolve cwd fs p = Some n
       ∧ FS.node_at fs n ≠ Some FS.Dir
       ∧ fs' = <[n := FS.File c]> fs
       ∧ FS.read cwd fs' p = Ok c.
Proof.
  unfold FS.write. destruct (FS.resolve cwd fs p) as [n|] eqn:E; [|discriminate].
  intros H.
  assert (FS.node_at fs n ≠ Some FS.Dir ∧ fs' = <[n := FS.File c]> fs) as [Hn ->].
  { destruct (FS.node_at fs n) as [[c'|]|]; try discriminate; by injection H as <-. }
  exists n. split_and!; [done|done|done|].
  unfold FS.read, FS.stat, FS.resolve in *.
  rewrite (walk_is_dir_ext fs (<[n := FS.File c]> fs)); [|by apply is_dir_insert_file].
  rewrite E. unfold FS.node_at in *. destruct n; [done|].
  by rewrite lookup_insert_eq.
Qed.

Lemma read_write_other cwd fs p q c c' fs' n m :
  FS.write cwd fs p c = Ok fs' →
  FS.resolve cwd fs p = Some n → FS.resolve cwd fs q = Some m → n ≠ m →
  FS.read cwd fs q = Ok c' → FS.read cwd fs' q = Ok c'.
Proof.
  intros Hw Hn Hm Hne. apply write_spec in Hw as (n' & Hn' & Hnd & -> & _).
  rewrite Hn in Hn'. injection Hn' as <-.
  unfold FS.read, FS.stat, FS.resolve in *.
  rewrite (walk_is_dir_ext fs (<[n := FS.File c]> fs)); [|by apply is_dir_insert_file].
  rewrite Hm.
  unfold FS.node_at. destruct m; [done|]. by rewrite lookup_insert_ne.
Qed.

Lemma member_parts_valid (s : string) :
  Forall (λ x, valid_member_part x = true) (member_parts s).
Proof. apply Forall_forall. intros x Hx. by apply list_elem_of_filter in Hx as [? _]. Qed.

Lemma fold_res_ok {S A} (f : res S → A → res S) :
  (∀ r a s, f r a = Ok s → ∃ s0, r = Ok s0) →
  ∀ l r s, fold_left f l r = Ok s → ∃ s0, r = Ok s0.
Proof.
  intros Hf. induction l as [|a l IH]; intros r s; simpl; [by eexists|].
  intros H. apply IH in H as [s1 H]. by apply Hf in H.
Qed.

Lemma extract_member_strict cwd to_dir r m s :
  extract_member cwd to_dir r m = Ok s → ∃ s0, r = Ok s0.
Proof. destruct r; [by eexists|done..]. Qed.

Lemma pk_file_step_parts (parts : list string) (members : list (string * content)) :
  ∀ o c, fold_left (pk_file_step parts) members o = Some c →
         o = Some c ∨ ∃ m, m ∈ members ∧ member_parts m.1 = parts.
Proof.
  induction members as [|m members IH]; intros o c; simpl; [by left|].
  intros [H|(m0 & Hin & Hm0)]%IH.
  - unfold pk_file_step in H.
    destruct (bool_decide (member_parts m.1 = parts)) eqn:E; simpl in H; [|by left].
    apply bool_decide_eq_true in E. right. exists m. split; [apply list_elem_of_here|done].
  - right. exists m0. split; [by apply list_elem_of_further|done].
Qed.

(** Extracting an archive leaves, under each member path, the bytes of
    the last file member stored there. *)
Lemma extract_read_back cwd (to_dir : path) (parts : list string) :
  is_absolute to_dir = true →
  ∀ members fs fs1 c,
    fold_left (extract_member cwd to_dir) members (Ok fs) = Ok fs1 →
    fold_left (pk_file_step parts) members None = Some c →
    FS.read cwd fs1 {| p_root := p_root to_dir; p_parts := p_parts to_dir ++ parts |} = Ok c.
Proof.
  intros Habs. induction members as [|m members IH] using rev_ind; intros fs fs1 c.
  { discriminate. }
  rewrite !fold_left_app. simpl. intros Hx Hp.
  destruct (extract_member_strict _ _ _ _ _ Hx) as [fs_mid Hmid]. rewrite Hmid in Hx.
  unfold extract_member in Hx. simpl in Hx.
  apply bind_ok in Hx as (fs_a & Ha & Hx).
  assert (fs_mid ⊆ fs_a) as Hsub.
  { destruct (FS.path_exists _ _ _); [by injection Ha as <-|].
    eapply mkdir_parents_mono; [|exact Ha].
    unfold parent, member_path, is_absolute in *. simpl.
    by destruct (p_parts to_dir ++ member_parts m.1). }
  unfold pk_file_step at 1 in Hp.
  destruct (endswith "/" m.1) eqn:Hdir.
  - rewrite andb_false_r in Hp. simpl in Hp.
    eapply read_mono; [|eapply read_mono; [exact Hsub|by eapply IH]].
    eapply mkdir_parents_mono; [|exact Hx]. done.
  - rewrite andb_true_r in Hp. case_bool_decide as Hparts; simpl in Hp.
    + injection Hp as <-. apply write_spec in Hx as (_ & _ & _ & _ & Hr).
      unfold member_path in Hr. by rewrite Hparts in Hr.
    + specialize (IH _ _ _ Hmid Hp). apply (read_mono _ _ _ _ _ Hsub) in IH.
      pose proof Hx as Hw. apply write_spec in Hw as (n & Hn & _ & _ & _).
      assert (∃ m', FS.resolve cwd fs_a
                {| p_root := p_root to_dir; p_parts := p_parts to_dir ++ parts |} = Some m')
        as [m' Hm'].
      { unfold FS.read, FS.stat in IH. destruct (FS.resolve _ _ _); [by eexists|done]. }
      eapply read_write_other; [exact Hx|exact Hn|exact Hm'| |exact IH].
      unfold FS.resolve, member_path, is_absolute in *. simpl in *.
      rewrite walk_app in Hn, Hm'.
      destruct (FS.walk fs_a _ (p_parts to_dir)) as [d|]; [|discriminate].
      apply walk_plain_list in Hn; [|apply member_parts_valid].
      assert (Forall (λ x, valid_member_part x = true) parts) as Hv.
      { apply pk_file_step_parts in Hp as [?|(m0 & _ & <-)]; [done|].
        apply member_parts_valid. }
      apply walk_plain_list in Hm'; [|done]. subst. intros E%app_inv_head. done.
Qed.

End ExtractFacts.

(* ===================================================================== *)
(** * The Package Merge Orchestrator *)
(* ===================================================================== *)

Section MergeFacts.

Lemma pass_inv_lookup e log0 st p d :
  pass_inv e log0 st → name_map st !! p = Some d → (src_root e, p, d) ∈ copied st.
Proof.
  intros (l & -> & Hev & Hcount) Hp. apply elem_of_app. right.
  specialize (Hcount p). rewrite Hp in Hcount. unfold copies_of in Hcount.
  destruct (filter (λ ev, ev.1.2 = p) l) as [|ev ?] eqn:Ef; [discriminate|].
  assert (ev ∈ filter (λ ev, ev.1.2 = p) l) as Hin by (rewrite Ef; apply list_elem_of_here).
  apply list_elem_of_filter in Hin as [Hk Hin].
  destruct (Hev _ Hin) as [Hs Hd]. rewrite Hk, Hp in Hd.
  destruct ev as [[s k] x]. simpl in *. by simplify_eq.
Qed.

Lemma pass_inv_same e log0 st st' :
  name_map st' = name_map st → copied st' = copied st →
  pass_inv e log0 st → pass_inv e log0 st'.
Proof. unfold pass_inv. by intros -> ->. Qed.

Lemma grown_refl ms : grown ms ms [].
Proof.
  unfold grown. simpl. rewrite !app_nil_r, Z.add_0_r. split_and!; try done.
Qed.

Lemma import_ok_mono m0 rels log log' k imp (r : relationship) :
  import_ok m0 rels log k imp → log `prefix_of` log' →
  imp_rel imp ∈ rels →
  r = MkRel (Some (next_rel_id rels)) (rel_type r) (rel_target r) →
  import_ok m0 (rels ++ [r]) log' k imp.
Proof.
  intros (rid & d & Hs & Hr & Hd & Hu) [l ->] Hin Hnew.
  exists rid, d. split_and!; [done|done| |].
  - destruct Hd as [?|?]; [by left|right; apply elem_of_app; by left].
  - intros rel [Hrel| ->%list_elem_of_singleton]%elem_of_app Hid; [by apply Hu|].
    exfalso. rewrite Hnew in Hid. simpl in Hid. injection Hid as Hid.
    apply (next_rel_id_not_among rels (imp_rel imp)); [done|].
    rewrite Hr. simpl. by rewrite Hid.
Qed.

(** One turn of the loop over the source's slide list. *)
Lemma merge_slide_grows (fuel : nat) (e : env)
    (targets : gmap (option string) (option string))
    (log0 : list (path * string * string))
    (ms0 ms ms' : merge_state) (imports : list import) (sld : sldId) :
  grown ms0 ms imports → pass_inv e log0 (m_st ms) →
  merge_slide fuel e targets (Ok ms) sld = Ok ms' →
  pass_inv e log0 (m_st ms')
  ∧ ((resolves targets sld = false ∧ grown ms0 ms' imports)
     ∨ (resolves targets sld = true
        ∧ ∃ imp, imp_src imp = src_root e
                 ∧ imp_part imp =
                   normalize_target (default "" (mjoin (targets !! sld_rid sld)))
                 ∧ grown ms0 ms' (imports ++ [imp]))).
Proof.
  intros (Hsld & Hrels & Hmax & Hlog & Hok) Hinv. unfold merge_slide, resolves. simpl.
  destruct (truthy (mjoin (targets !! sld_rid sld))) eqn:Ht; simpl.
  2:{ intros [= <-]. split; [done|]. left. by split_and!. }
  set (part_rel := normalize_target _).
  intros H. apply bind_ok in H as ([d st] & Hcopy & H).
  apply bind_ok in H as (ct' & _ & H). injection H as <-. simpl.
  apply copy_post_holds in Hcopy as [(Hsub & Hpre & Hkeep) Hres].
  pose proof (Hkeep _ Hinv) as Hinv'.
  split; [by eapply pass_inv_same; [| |exact Hinv']|].
  right. split; [done|].
  set (rid := next_rel_id (m_pres_rels ms)).
  exists {| imp_src := src_root e; imp_part := part_rel;
            imp_sld := MkSld (Some (str (m_max_sld_id ms + 1))) (Some rid);
            imp_rel := MkRel (Some rid) (Some slide_rel_type) (Some d) |}.
  split; [done|]. split; [done|].
  split_and!; simpl.
  - by rewrite Hsld, map_app, app_assoc.
  - by rewrite Hrels, map_app, app_assoc.
  - rewrite Hmax, length_app. simpl. lia.
  - by etrans.
  - intros k imp Hk. apply lookup_app_Some in Hk as [Hk|[Hlen Hk]].
    + eapply import_ok_mono; [by apply Hok|done| |done].
      rewrite Hrels. apply elem_of_app. right.
      apply list_elem_of_fmap. exists imp. split; [done|].
      by eapply list_elem_of_lookup_2.
    + destruct (k - length imports)%nat as [|?] eqn:Ek; [|done].
      injection Hk as <-. exists rid, d. simpl. split_and!.
      * do 3 f_equal. rewrite Hmax. lia.
      * done.
      * destruct Hres as [Hr|(-> & _)]; [|by left]. right.
        by eapply pass_inv_lookup.
      * intros rel [Hrel| ->%list_elem_of_singleton]%elem_of_app Hid; [|done].
        exfalso. by apply (next_rel_id_not_among _ _ Hrel).
Qed.

Lemma merge_slide_strict fuel e targets r sld s :
  merge_slide fuel e targets r sld = Ok s → ∃ s0, r = Ok s0.
Proof. destruct r; [by eexists|done..]. Qed.

(** The loop over the source's slide list. *)
Lemma merge_slides_grow (fuel : nat) (e : env)
    (targets : gmap (option string) (option string))
    (log0 : list (path * string * string)) (ms0 : merge_state) :
  ∀ (slds : list sldId) (ms ms' : merge_state) (imports : list import),
    grown ms0 ms imports → pass_inv e log0 (m_st ms) →
    fold_left (merge_slide fuel e targets) slds (Ok ms) = Ok ms' →
    ∃ new,
      grown ms0 ms' (imports ++ new)
      ∧ Forall2 (λ s imp,
                   imp_src imp = src_root e
                   ∧ imp_part imp =
                     normalize_target (default "" (mjoin (targets !! sld_rid s))))
                (filter (λ s, resolves targets s = true) slds) new.
Proof.
  induction slds as [|sld slds IH]; intros ms ms' imports Hg Hinv; simpl.
  - intros [= <-]. exists []. rewrite app_nil_r. split; [done|]. constructor.
  - intros H.
    destruct (fold_res_ok _ (merge_slide_strict fuel e targets) _ _ _ H) as [ms1 H1].
    rewrite H1 in H.
    destruct (merge_slide_grows _ _ _ _ _ _ _ _ _ Hg Hinv H1)
      as [Hinv1 [[Hno Hg1]|(Hyes & imp & Hsrc & Hpart & Hg1)]].
    + destruct (IH _ _ _ Hg1 Hinv1 H) as (new & Hg' & Hf). exists new.
      split; [done|]. rewrite filter_cons, decide_False by congruence. done.
    + destruct (IH _ _ _ Hg1 Hinv1 H) as (new & Hg' & Hf). exists (imp :: new).
      split; [by rewrite <- app_assoc in Hg'|].
      rewrite filter_cons, decide_True by done. by constructor.
Qed.

End MergeFacts.

Section MergeSource.

Variables (fuel : nat) (cwd : list string) (workdir : path).
Hypothesis workdir_absolute : is_absolute workdir = true.

Lemma plain_literals :
  plain "ppt" ∧ plain "_rels" ∧ plain "presentation.xml"
  ∧ plain "presentation.xml.rels" ∧ plain "[Content_Types].xml" ∧ plain "base".
Proof. by split_and!. Qed.

Lemma joinpath_relative (p : path) (c : ascii) (s : string) :
  c ≠ "/"%char →
  joinpath p (String c s)
  = {| p_root := p_root p; p_parts := p_parts p ++ p_parts (Path (String c s)) |}.
Proof.
  intros Hc. unfold joinpath.
  assert (is_absolute (Path (String c s)) = false) as ->; [|done].
  unfold is_absolute, Path, root_of, startswith. cbn [p_root].
  assert (∀ p, String.prefix (String "/" p) (String c s) = false) as Hp.
  { intros p0. cbn [String.prefix]. destruct (ascii_dec "/" c) as [E|E]; [|done].
    by symmetry in E. }
  by rewrite !Hp.
Qed.

Lemma dir_absolute (stem_name : string) (c : ascii) :
  c ≠ "/"%char → is_absolute (joinpath workdir (String c stem_name)) = true.
Proof. intros Hc. by rewrite joinpath_relative. Qed.

Lemma manifest_paths (d : path) :
  joinpath (joinpath d "ppt") "presentation.xml"
  = {| p_root := p_root d; p_parts := p_parts d ++ presentation_parts |}
  ∧ joinpath (joinpath (joinpath d "ppt") "_rels") "presentation.xml.rels"
    = {| p_root := p_root d; p_parts := p_parts d ++ presentation_rels_parts |}
  ∧ joinpath d "[Content_Types].xml"
    = {| p_root := p_root d; p_parts := p_parts d ++ content_types_parts |}.
Proof.
  destruct plain_literals as (H1 & H2 & H3 & H4 & H5 & _).
  rewrite !joinpath_plain by done. simpl. by rewrite <- !app_assoc.
Qed.

(** After the extraction, parsing a manifest gives the package's own
    document. *)
Lemma parse_extracted (fs fs1 : FS.t) (pkg : package) (to_dir : path)
    (parts : list string) (d t : document) :
  is_absolute to_dir = true →
  extract_pptx cwd fs pkg to_dir = Ok fs1 →
  pk_file pkg parts = Some (Xml d) →
  parse_xml cwd fs1 {| p_root := p_root to_dir; p_parts := p_parts to_dir ++ parts |} = Ok t →
  t = d ∧ pk_document pkg parts = d.
Proof.
  intros Habs Hx Hf Hp. unfold pk_document. rewrite Hf. split; [|done].
  unfold parse_xml in Hp.
  rewrite (extract_read_back cwd to_dir parts Habs _ _ _ _ Hx Hf) in Hp.
  simpl in Hp. by injection Hp.
Qed.

Lemma merge_source_grows (ms0 ms ms' : merge_state) (imports : list import)
    (pkg : package) :
  has_manifests pkg → grown ms0 ms imports →
  merge_source fuel cwd workdir (Ok ms) pkg = Ok ms' →
  ∃ new,
    grown ms0 ms' (imports ++ new)
    ∧ Forall2 (import_of workdir) (map (pair pkg) (imported_slides pkg)) new.
Proof.
  intros (pres & rels & ct & Hpres & Hrels & Hct) Hg. unfold merge_source. simpl.
  set (src_dir := joinpath workdir ("src_" +:+ pk_stem pkg)).
  assert (is_absolute src_dir = true) as Habs by (by apply dir_absolute).
  destruct (manifest_paths src_dir) as (-> & -> & ->).
  intros H. apply bind_ok in H as (fs1 & Hx & H).
  apply bind_ok in H as (ct_src_tree & Hpct & H).
  apply bind_ok in H as (t & Hpt & H).
  apply bind_ok in H as (src_rels & Hpr & H).
  destruct (parse_extracted _ _ _ _ _ _ _ Habs Hx Hpres Hpt) as [-> Edoc].
  destruct (parse_extracted _ _ _ _ _ _ _ Habs Hx Hrels Hpr) as [-> Erels].
  rewrite <- Erels, <- Edoc in H. clear Hpt Hpr Hpres Hrels.
  fold (pk_targets pkg) in H.
  destruct Hg as (Hsld & Hr & Hmax & Hlog & Hok).
  unfold imported_slides, pk_slides.
  destruct (doc_sldIdLst (pk_document pkg presentation_parts)) as [slds|]; simpl.
  - eapply merge_slides_grow in H as (new & Hg' & Hf).
    + exists new. split; [exact Hg'|]. apply Forall2_fmap_l.
      eapply Forall2_impl; [exact Hf|]. by intros s imp [Hs Hp].
    + by split_and!.
    + apply (pass_inv_start _ (with_fs (m_st ms) fs1)).
  - injection H as <-. exists []. rewrite app_nil_r. split; [by split_and!|constructor].
Qed.

Lemma merge_source_strict r pkg s :
  merge_source fuel cwd workdir r pkg = Ok s → ∃ s0, r = Ok s0.
Proof. destruct r; [by eexists|done..]. Qed.

Lemma merge_sources_grow (ms0 : merge_state) :
  ∀ (extras : list package) (ms ms' : merge_state) (imports : list import),
    Forall has_manifests extras → grown ms0 ms imports →
    fold_left (merge_source fuel cwd workdir) extras (Ok ms) = Ok ms' →
    ∃ new,
      grown ms0 ms' (imports ++ new)
      ∧ Forall2 (import_of workdir) (all_imported extras) new.
Proof.
  induction extras as [|pkg extras IH]; intros ms ms' imports Hwf Hg; simpl.
  - intros [= <-]. exists []. rewrite app_nil_r. split; [done|constructor].
  - intros H. apply Forall_cons in Hwf as [Hpkg Hwf].
    destruct (fold_res_ok _ merge_source_strict _ _ _ H) as [ms1 H1]. rewrite H1 in H.
    destruct (merge_source_grows _ _ _ _ _ Hpkg Hg H1) as (new1 & Hg1 & Hf1).
    destruct (IH _ _ _ Hwf Hg1 H) as (new2 & Hg2 & Hf2).
    exists (new1 ++ new2). split; [by rewrite app_assoc|].
    unfold all_imported. simpl. by apply Forall2_app.
Qed.

(** What a merge that returns has done to the slide list and to the
    presentation relationships. *)
Lemma merge_presentations_spec (fs0 : FS.t) (base : package)
    (extras : list package) (out : merged) :
  has_manifests base → Forall has_manifests extras →
  merge_presentations fuel cwd workdir fs0 (base :: extras) = Ok out →
  ∃ imports,
    slide_list (out_presentation out) = pk_slides base ++ map imp_sld imports
    ∧ doc_relationships (out_presentation_rels out)
      = doc_relationships (pk_document base presentation_rels_parts) ++ map imp_rel imports
    ∧ (∀ k imp, imports !! k = Some imp →
         import_ok (current_max_sld_id (pk_slides base))
                   (doc_relationships (out_presentation_rels out)) (out_copied out) k imp)
    ∧ Forall2 (import_of workdir) (all_imported extras) imports.
Proof.
  intros (pres & rels & ct & Hpres & Hrels & Hct) Hwf. unfold merge_presentations.
  set (base_dir := joinpath workdir "base").
  assert (is_absolute base_dir = true) as Habs by (by apply dir_absolute).
  destruct (manifest_paths base_dir) as (-> & -> & ->).
  intros H. apply bind_ok in H as (fs1 & Hx & H).
  apply bind_ok in H as (pres_tree & Hp1 & H).
  apply bind_ok in H as (rels_tree & Hp2 & H).
  apply bind_ok in H as (ct_tree & Hp3 & H).
  apply bind_ok in H as (ms & Hloop & H).
  apply bind_ok in H as (fs2 & _ & H).
  apply bind_ok in H as (fs3 & _ & H).
  apply bind_ok in H as (fs4 & _ & H).
  apply bind_ok in H as (archive & _ & H). injection H as <-. simpl.
  destruct (parse_extracted _ _ _ _ _ _ _ Habs Hx Hpres Hp1) as [-> Edoc].
  destruct (parse_extracted _ _ _ _ _ _ _ Habs Hx Hrels Hp2) as [-> Erels].
  eapply merge_sources_grow in Hloop as (imports & Hg & Hf);
    [|done|apply grown_refl].
  destruct Hg as (Hsld & Hr & Hmax & Hlog & Hok). simpl in *.
  exists imports. unfold slide_list, pk_slides. rewrite Edoc, Erels. simpl.
  split_and!; try done.
Qed.

End MergeSource.

Section SlideIds.

Lemma fold_sld_id_ge (slds : list sldId) : ∀ mx, mx ≤ fold_left sld_id_step slds mx.
Proof.
  induction slds as [|x slds IH]; intros mx; simpl; [lia|].
  specialize (IH (sld_id_step mx x)). unfold sld_id_step in *.
  destruct (int _); lia.
Qed.

(** [current_max_sld_id] is at least 256 and at least every id that
    parses. *)
Lemma current_max_sld_id_ub (slds : list sldId) :
  256 ≤ current_max_sld_id slds
  ∧ ∀ x v, x ∈ slds → int (default "256" (sld_id x)) = Some v → v ≤ current_max_sld_id slds.
Proof.
  unfold current_max_sld_id. split; [apply fold_sld_id_ge|].
  generalize 256. induction slds as [|y slds IH]; intros mx x v Hx Hv; simpl.
  - by apply elem_of_nil in Hx.
  - apply elem_of_cons in Hx as [->|Hx]; [|by eapply IH].
    pose proof (fold_sld_id_ge slds (sld_id_step mx y)) as Hge.
    assert (v ≤ sld_id_step mx y) by (unfold sld_id_step; rewrite Hv; lia). lia.
Qed.

End SlideIds.

(* ===================================================================== *)
(** * The merged slide list *)
(* ===================================================================== *)

Import Examples.

Lemma has_manifests_examples :
  has_manifests deck_a ∧ has_manifests deck_b ∧ has_manifests deck_d
  ∧ has_manifests deck_e.
Proof. split_and!; do 3 eexists; split_and!; vm_compute; reflexivity. Defined.

Lemma merge_ab_returns :
  ∃ out, merge_presentations 10 cwd0 workdir0 fs0 [deck_a; deck_b] = Ok out.
Proof.
  assert (observe (λ _, tt) (merge_presentations 10 cwd0 workdir0 fs0 [deck_a; deck_b])
          = Some tt) as H by (vm_compute; reflexivity).
  apply observe_ok in H as (out & E & _). exists out. exact E.
Defined.

Lemma all_imported_length (extras : list package) :
  length (all_imported extras)
  = sum_list (map (λ pkg, length (imported_slides pkg)) extras).
Proof.
  induction extras as [|pkg extras IH]; [done|].
  unfold all_imported in *. simpl. by rewrite length_app, length_map, IH.
Qed.

(** C3, as the code has it.  The merged slide list has as many entries
    as the base's slide list plus, for each extra input, the entries of
    its slide list whose relationship id names a slide relationship with
    a non-empty target; the other entries are skipped. *)
Theorem merged_slide_count
    (fuel : nat) (cwd : list string) (workdir : path) (fs0 : FS.t)
    (base : package) (extras : list package) (out : merged) :
  is_absolute workdir = true →
  has_manifests base → Forall has_manifests extras →
  merge_presentations fuel cwd workdir fs0 (base :: extras) = Ok out →
  length (slide_list (out_presentation out))
  = (length (pk_slides base)
     + sum_list (map (λ pkg, length (imported_slides pkg)) extras))%nat.
Proof.
  intros Habs Hb He H.
  destruct (merge_presentations_spec _ _ _ Habs _ _ _ _ Hb He H)
    as (imports & -> & _ & _ & Hf).
  rewrite length_app, length_map, <- all_imported_length.
  by rewrite (Forall2_length _ _ _ Hf).
Qed.

Lemma merged_slide_count_witness :
  ∃ out,
    merge_presentations 10 cwd0 workdir0 fs0 [deck_a; deck_b] = Ok out
    ∧ length (slide_list (out_presentation out)) = 3%nat.
Proof.
  destruct merge_ab_returns as [out E].
  destruct has_manifests_examples as (Ha & Hb & _).
  exists out. split; [exact E|].
  rewrite (merged_slide_count 10 cwd0 workdir0 fs0 deck_a [deck_b] out
             eq_refl Ha (Forall_cons_2 _ _ _ Hb (Forall_nil_2 _)) E).
  vm_compute. reflexivity.
Defined.

(** C3 as stated fails: deck [d] has one slide-list entry, whose
    relationship id the package does not define; merged after deck [a]
    it adds no entry, so the merged list has one entry and not two. *)
Lemma merged_slide_count_skips_unresolved :
  observe (λ out, length (slide_list (out_presentation out)))
          (merge_presentations 10 cwd0 workdir0 fs0 [deck_a; deck_d]) = Some 1%nat
  ∧ (length (pk_slides deck_a) + length (pk_slides deck_d))%nat = 2%nat.
Proof. split; vm_compute; reflexivity. Qed.

(** C7, as the code has it.  Every entry the merge appends has a numeric
    id above 256 that is greater than the id of every entry before it,
    base entries and appended entries alike (an entry without an [id]
    counts as 256, an id that does not parse as none).  The base's own
    entries keep their ids and their order. *)
Theorem appended_slide_ids_increase
    (fuel : nat) (cwd : list string) (workdir : path) (fs0 : FS.t)
    (base : package) (extras : list package) (out : merged) :
  is_absolute workdir = true →
  has_manifests base → Forall has_manifests extras →
  merge_presentations fuel cwd workdir fs0 (base :: extras) = Ok out →
  firstn (length (pk_slides base)) (slide_list (out_presentation out)) = pk_slides base
  ∧ ∀ (i j : nat) (x y : sldId),
      (i < j)%nat → (length (pk_slides base) ≤ j)%nat →
      slide_list (out_presentation out) !! i = Some x →
      slide_list (out_presentation out) !! j = Some y →
      ∃ vj, sld_id y = Some (str vj)
            ∧ int (str vj) = Some vj
            ∧ 256 < vj
            ∧ ∀ vi, int (default "256" (sld_id x)) = Some vi → vi < vj.
Proof.
  intros Habs Hb He H.
  destruct (merge_presentations_spec _ _ _ Habs _ _ _ _ Hb He H)
    as (imports & -> & _ & Hok & _).
  split; [by rewrite take_app_length|].
  destruct (current_max_sld_id_ub (pk_slides base)) as [H256 Hub].
  set (m0 := current_max_sld_id (pk_slides base)) in *.
  assert (∀ k z, (map imp_sld imports) !! k = Some z →
                 sld_id z = Some (str (m0 + 1 + Z.of_nat k))) as Hnew.
  { intros k z Hk. rewrite list_lookup_fmap in Hk.
    destruct (imports !! k) as [imp|] eqn:Ei; [|done]. injection Hk as <-.
    destruct (Hok _ _ Ei) as (rid & d & -> & _). done. }
  intros i j x y Hij Hj Hx Hy.
  rewrite lookup_app_r in Hy by done. apply Hnew in Hy.
  eexists. split; [exact Hy|]. split; [apply int_str|]. split; [lia|].
  intros vi Hvi. destruct (decide (i < length (pk_slides base))%nat) as [Hi|Hi].
  - rewrite lookup_app_l in Hx by done.
    apply list_elem_of_lookup_2 in Hx. specialize (Hub _ _ Hx Hvi). lia.
  - rewrite lookup_app_r in Hx by lia. apply Hnew in Hx.
    rewrite Hx in Hvi. simpl in Hvi. rewrite int_str in Hvi. injection Hvi as <-. lia.
Qed.

Lemma appended_slide_ids_increase_witness :
  ∃ out,
    merge_presentations 10 cwd0 workdir0 fs0 [deck_a; deck_b] = Ok out
    ∧ firstn (length (pk_slides deck_a)) (slide_list (out_presentation out))
      = pk_slides deck_a.
Proof.
  destruct merge_ab_returns as [out E].
  destruct has_manifests_examples as (Ha & Hb & _).
  exists out. split; [exact E|].
  apply (appended_slide_ids_increase 10 cwd0 workdir0 fs0 deck_a [deck_b] out
           eq_refl Ha (Forall_cons_2 _ _ _ Hb (Forall_nil_2 _)) E).
Defined.

(** C7 as stated fails: the base deck [e] lists the id 258 before the id
    257, and the merge leaves its entries as they are. *)
Lemma merged_ids_not_increasing :
  observe (λ out, map sld_id (slide_list (out_presentation out)))
          (merge_presentations 10 cwd0 workdir0 fs0 [deck_e])
  = Some [Some "258"; Some "257"]
  ∧ int "258" = Some 258 ∧ int "257" = Some 257.
Proof. split_and!; vm_compute; reflexivity. Qed.

(* ===================================================================== *)
(** * The copier on the example decks *)
(* ===================================================================== *)

Lemma copy_missing_part_witness :
  copy_part_with_dependencies 1 (env0 deck_b) "slides/missing.xml" (state0 deck_b)
  = Ok ("slides/missing.xml", state0 deck_b).
Proof.
  apply (copy_missing_part 0 (env0 deck_b) "slides/missing.xml" (state0 deck_b)).
  - reflexivity.
  - vm_compute. reflexivity.
Defined.

Lemma copy_twice_same_destination_example :
  ∃ d1 st1,
    copy_part_with_dependencies 5 (env0 deck_b) "slides/slide2.xml" (state0 deck_b)
    = Ok (d1, st1)
    ∧ pass_inv (env0 deck_b) [] st1
    ∧ ∀ fuel', copy_part_with_dependencies (S fuel') (env0 deck_b) "slides/slide2.xml" st1
               = Ok (d1, st1).
Proof.
  assert (observe (λ _, tt)
            (copy_part_with_dependencies 5 (env0 deck_b) "slides/slide2.xml" (state0 deck_b))
          = Some tt) as H by (vm_compute; reflexivity).
  apply observe_ok in H as ([d1 st1] & E & _).
  destruct (copy_twice_same_destination 5 (env0 deck_b) [] "slides/slide2.xml"
              (state0 deck_b) d1 st1 (pass_inv_start (env0 deck_b) (state0 deck_b)) E)
    as (Hinv & Hagain & _).
  exists d1, st1. split; [exact E|]. split; [exact Hinv|exact Hagain].
Defined.

Lemma pick_new_filename_unused_witness :
  ∃ fs' new names,
    ensure_dir cwd0 (extracted deck_b) (joinpath (dst_root (env0 deck_b)) "slides") = Ok fs'
    ∧ pick_new_filename cwd0 fs' (joinpath (dst_root (env0 deck_b)) "slides")
        "slides" "slide1.xml" (splitext "slide1.xml").1 (splitext "slide1.xml").2 = Ok new
    ∧ FS.listdir cwd0 fs' (joinpath (dst_root (env0 deck_b)) "slides") = Ok names
    ∧ new ∉ names.
Proof.
  assert (observe (λ _, tt)
            (ensure_dir cwd0 (extracted deck_b) (joinpath (dst_root (env0 deck_b)) "slides"))
          = Some tt) as H by (vm_compute; reflexivity).
  apply observe_ok in H as (fs' & E & _).
  destruct (ensure_dir_directory cwd0 (extracted deck_b)
              (joinpath (dst_root (env0 deck_b)) "slides") fs' eq_refl E) as [_ Hdir].
  destruct (pick_new_filename_unused cwd0 fs'
              (joinpath (dst_root (env0 deck_b)) "slides") "slides" "slide1.xml"
              Hdir eq_refl)
    as (new & names & Hpick & Hls & Hnew & _).
  exists fs', new, names. split; [exact E|]. split; [exact Hpick|]. split; [exact Hls|exact Hnew].
Defined.

(** C6 as stated fails on a folder that holds a name outside the
    convention [theme\d+\.xml].  The folder [theme] holds [theme1.xml]
    and [themeOverride3.xml]; the override starts with [theme] and ends
    with [.xml], so the allocator reads its digits and returns
    [theme4.xml], where one plus the greatest index among the names that
    follow the convention gives [theme2.xml]. *)
Lemma pick_new_filename_counts_overrides :
  pick_new_filename [] theme_fs theme_folder "theme" "theme1.xml"
                    (splitext "theme1.xml").1 (splitext "theme1.xml").2 = Ok "theme4.xml"
  ∧ observe (spec_next_name "theme") (FS.listdir [] theme_fs theme_folder)
    = Some "theme2.xml"
  ∧ entry_index "theme" ".xml" "themeOverride3.xml" = Some 3
  ∧ spec_index "theme" "themeOverride3.xml" = None
  ∧ spec_index "theme" "theme1.xml" = Some 1.
Proof. split_and!; vm_compute; reflexivity. Qed.

(** C10 as stated fails on ids that are not of the form [rId<digits>]
    but that [int()] reads: a sign, or an underscore between digits.  The
    claim treats such an id as absent and gives [rId1] for each of these
    sets. *)
Lemma next_rel_id_reads_signed_ids :
  next_rel_id [MkRel (Some "rId-5") (Some slide_rel_type) (Some "slides/slide1.xml")]
  = "rId-4"
  ∧ next_rel_id [MkRel (Some "rId+3") (Some slide_rel_type) (Some "slides/slide1.xml")]
    = "rId4"
  ∧ next_rel_id [MkRel (Some "rId1_0") (Some slide_rel_type) (Some "slides/slide1.xml")]
    = "rId11"
  ∧ spec_next_rel_id
      [MkRel (Some "rId-5") (Some slide_rel_type) (Some "slides/slide1.xml")] = "rId1"
  ∧ spec_next_rel_id
      [MkRel (Some "rId+3") (Some slide_rel_type) (Some "slides/slide1.xml")] = "rId1"
  ∧ spec_next_rel_id
      [MkRel (Some "rId1_0") (Some slide_rel_type) (Some "slides/slide1.xml")] = "rId1".
Proof. split_and!; vm_compute; reflexivity. Qed.

(** C5 on a slide that links to a slide of its own folder.  Deck [f]'s
    first slide has the relationship target [../slides/slide2.xml].  The
    copier copies the dependency to [slides/../slides/slide2_1.xml], that
    is to [slides/slide2_1.xml], and rewrites the target to
    [../slide2_1.xml], which read from the owner's folder [slides] is
    [slide2_1.xml] at the content root: not the copied dependency. *)
Lemma same_folder_target_misses_copy :
  observe (λ r, (r.1,
                 name_map r.2 !! "slides/../slides/slide2.xml",
                 observe doc_relationships
                   (parse_xml cwd0 (fs r.2)
                      (joinpath (joinpath (joinpath (dst_root (env0 deck_f)) "slides")
                                          "_rels") "slide1.xml.rels"))))
          (copy_part_with_dependencies 5 (env0 deck_f) "slides/slide1.xml" (state0 deck_f))
  = Some ("slides/slide2.xml",
          Some "slides/../slides/slide2_1.xml",
          Some [MkRel (Some "rId1") (Some "dep") (Some "../slide2_1.xml")])
  ∧ resolve_target "slides" "../slide2_1.xml" = ["slide2_1.xml"]
  ∧ norm_path "slides/../slides/slide2_1.xml" = ["slides"; "slide2_1.xml"].
Proof. split_and!; vm_compute; reflexivity. Qed.

(** C1, refuted on a part that two relationship edges of one pass reach
    under two spellings of its path.  Deck [g] lists two slides, and its
    first slide links to the second one with the target
    [../slides/slide2.xml].  In the pass over deck [g] the copier is asked
    for the second slide twice: by the first slide's relationship, under
    the key [slides/../slides/slide2.xml], and by the slide list, under
    the key [slides/slide2.xml].  Both keys name the one source file
    [ppt/slides/slide2.xml].  After the request for the first slide the
    part is copied, to [slide2_1.xml], and the name map holds the first
    key and not the second; so the request for the second slide copies
    the part again, to [slide3.xml].  The destination folder, which held
    [slide1.xml] alone, ends with two files that hold the part, and the
    two requests return two destinations.  The merge of deck [g] after
    deck [a] leaves both files in the tree it zips. *)
Theorem aliased_part_copied_twice :
  observe (λ r, (r.1.1.1, r.1.1.2,
                 name_map r.1.2 !! "slides/../slides/slide2.xml",
                 name_map r.1.2 !! "slides/slide2.xml",
                 observe id (FS.read cwd0 (fs r.1.2)
                               (joinpath (dst_root (env0 deck_g)) "slides/slide2_1.xml")),
                 FS.path_exists cwd0 (fs r.1.2)
                   (joinpath (dst_root (env0 deck_g)) "slides/slide3.xml"),
                 name_map r.2 !! "slides/slide2.xml",
                 observe id (FS.read cwd0 (fs r.2)
                               (joinpath (dst_root (env0 deck_g)) "slides/slide2_1.xml")),
                 observe id (FS.read cwd0 (fs r.2)
                               (joinpath (dst_root (env0 deck_g)) "slides/slide3.xml"))))
          ('(d1, st1) ← copy_part_with_dependencies 5 (env0 deck_g) "slides/slide1.xml"
                          (state0 deck_g);
           '(d2, st2) ← copy_part_with_dependencies 5 (env0 deck_g) "slides/slide2.xml" st1;
           Ok (d1, d2, st1, st2))
  = Some ("slides/slide2.xml", "slides/slide3.xml",
          Some "slides/../slides/slide2_1.xml", None, Some second, false,
          Some "slides/slide3.xml", Some second, Some second)
  ∧ FS.resolve cwd0 (fs (state0 deck_g))
      (joinpath (src_root (env0 deck_g)) "slides/../slides/slide2.xml")
    = Some ["tmp"; "td"; "src_g"; "ppt"; "slides"; "slide2.xml"]
  ∧ FS.resolve cwd0 (fs (state0 deck_g))
      (joinpath (src_root (env0 deck_g)) "slides/slide2.xml")
    = Some ["tmp"; "td"; "src_g"; "ppt"; "slides"; "slide2.xml"]
  ∧ pk_file deck_g ["ppt"; "slides"; "slide2.xml"] = Some second
  ∧ FS.listdir cwd0 (fs (state0 deck_g)) (joinpath (dst_root (env0 deck_g)) "slides")
    = Ok ["slide1.xml"]
  ∧ observe (λ out,
               (map rel_target (drop 1 (doc_relationships (out_presentation_rels out))),
                observe id (FS.read cwd0 (out_fs out)
                              (joinpath (joinpath base_dir0 "ppt") "slides/slide2_1.xml")),
                observe id (FS.read cwd0 (out_fs out)
                              (joinpath (joinpath base_dir0 "ppt") "slides/slide3.xml"))))
            (merge_presentations 10 cwd0 workdir0 fs0 [deck_a; deck_g])
    = Some ([Some "slides/slide2.xml"; Some "slides/slide3.xml"], Some second, Some second).
Proof. split_and!; vm_compute; reflexivity. Qed.

(** The cycle of every real deck.  Deck [c] has three parts: a
    slide, its layout, the layout's master, and the master lists the
    layout.  Forty nested calls do not finish the copy of the slide: each
    call reaches the layout or the master again under a longer path,
    which the name map does not hold. *)
Lemma cyclic_deck_exhausts_fuel :
  copy_part_with_dependencies 40 (env0 deck_c) "slides/slide1.xml" (state0 deck_c)
  = OutOfFuel
  ∧ merge_presentations 40 cwd0 workdir0 fs0 [deck_a; deck_c] = OutOfFuel.
Proof. split; vm_compute; reflexivity. Qed.

(* ===================================================================== *)
(** * A part that refers to itself: the recursion is not cut *)
(* ===================================================================== *)

Import SelfReference.

(** Paths made of components [Path] keeps, and the paths of the nested
    calls. *)
Section SelfReferenceFacts.

Implicit Types (fs : FS.t) (k : nat) (l d : list string).

Lemma split_slash_app (x rest : string) :
  no_slash x = true → split_slash (x +:+ "/" +:+ rest) = x :: split_slash rest.
Proof.
  induction x as [|c x IH]; [done|]. rewrite app_cons. simpl.
  intros [Hc Hx]%andb_true_iff. apply negb_true_iff in Hc. rewrite Hc, (IH Hx). done.
Qed.

Lemma join_cons (x y : string) (r : list string) :
  join_with "/" (x :: y :: r) = x +:+ "/" +:+ join_with "/" (y :: r).
Proof. reflexivity. Qed.

Lemma split_join l :
  l ≠ [] → Forall (λ x, no_slash x = true) l → split_slash (join_with "/" l) = l.
Proof.
  induction l as [|x [|y r] IH]; [done| |]; intros _ Hl.
  - apply Forall_cons in Hl as [Hx _]. by apply split_slash_no_slash.
  - apply Forall_cons in Hl as [Hx Hl]. rewrite join_cons.
    rewrite split_slash_app by done. f_equal. by apply IH.
Qed.

Lemma join_first (x : string) (c : ascii) (x' : string) l :
  x = String c x' → ∃ s, join_with "/" (x :: l) = String c s.
Proof. intros ->. destruct l; [by eexists|]. rewrite join_cons, app_cons. by eexists. Qed.

Lemma root_of_nonslash (c : ascii) (s : string) : c ≠ "/"%char → root_of (String c s) = "".
Proof.
  intros Hc. unfold root_of, startswith.
  assert (∀ p, String.prefix (String "/" p) (String c s) = false) as Hp.
  { intros p0. cbn [String.prefix]. destruct (ascii_dec "/" c) as [E|E]; [|done].
    by symmetry in E. }
  by rewrite !Hp.
Qed.

Lemma good_first (x : string) : good x → ∃ c x', x = String c x' ∧ c ≠ "/"%char.
Proof.
  intros (Hs & H0 & _). destruct x as [|c x']; [done|]. exists c, x'. split; [done|].
  simpl in Hs. apply andb_true_iff in Hs as [Hc _]. apply negb_true_iff in Hc.
  by apply Ascii.eqb_neq in Hc.
Qed.

Lemma filter_all {A} (P : A → Prop) `{∀ x, Decision (P x)} (l : list A) :
  Forall P l → filter P l = l.
Proof.
  induction 1 as [|x l Hx Hl IH]; [done|]. by rewrite filter_cons, decide_True, IH.
Qed.

Lemma Path_join l :
  l ≠ [] → Forall good l → Path (join_with "/" l) = {| p_root := ""; p_parts := l |}.
Proof.
  intros Hne Hl. unfold Path. rewrite split_join; [|done|].
  2:{ eapply Forall_impl; [exact Hl|]. by intros x (? & _). }
  f_equal.
  - destruct l as [|x l]; [done|]. apply Forall_cons in Hl as [Hx _].
    destruct (good_first _ Hx) as (c & x' & Ex & Hc).
    destruct (join_first x c x' l Ex) as [s ->]. by apply root_of_nonslash.
  - apply filter_all. eapply Forall_impl; [exact Hl|]. intros x (_ & H0 & H1).
    unfold keep_part. apply String.eqb_neq in H0, H1. by rewrite H0, H1.
Qed.

Lemma join_snoc l (r : string) :
  l ≠ [] → join_with "/" (l ++ [r]) = join_with "/" l +:+ "/" +:+ r.
Proof.
  induction l as [|x [|y l'] IH]; [done|done|]. intros _.
  change (join_with "/" ((x :: y :: l') ++ [r]))
    with (x +:+ "/" +:+ join_with "/" ((y :: l') ++ [r])).
  rewrite IH by done. rewrite join_cons. by rewrite !app_assoc_s.
Qed.

Lemma lstrip_slash_nonslash (c : ascii) (s : string) :
  c ≠ "/"%char → lstrip_slash (String c s) = String c s.
Proof.
  intros Hc. destruct c as [[] [] [] [] [] [] [] []]; try reflexivity. by exfalso.
Qed.

Lemma rstrip_slash_app (a b : string) :
  b ≠ "" → rstrip_slash b = b → rstrip_slash (a +:+ b) = a +:+ b.
Proof.
  intros Hb Hr. induction a as [|c a IH]; [done|]. rewrite app_cons. simpl. rewrite IH.
  destruct (a +:+ b) eqn:E; [|done]. destruct a; [by rewrite app_nil_l_s in E|done].
Qed.

Lemma rstrip_slash_no_slash (s : string) : no_slash s = true → rstrip_slash s = s.
Proof.
  induction s as [|c s IH]; [done|]. simpl. intros [Hc Hs]%andb_true_iff.
  rewrite (IH Hs). apply negb_true_iff in Hc. destruct s; [by rewrite Hc|done].
Qed.

Lemma rstrip_slash_join l :
  l ≠ [] → Forall good l → rstrip_slash (join_with "/" l) = join_with "/" l.
Proof.
  induction l as [|x [|y r] IH]; [done| |]; intros _ Hl.
  - apply Forall_cons in Hl as [(Hx & _) _]. by apply rstrip_slash_no_slash.
  - apply Forall_cons in Hl as [Hx Hl]. rewrite join_cons.
    rewrite <- app_assoc_s. apply rstrip_slash_app; [|by apply IH].
    pose proof Hl as Hl'. apply Forall_cons in Hl' as [Hy _].
    destruct (good_first _ Hy) as (c & y' & Ey & _).
    destruct (join_first y c y' r Ey) as [s ->]. done.
Qed.

Lemma strip_slash_join l :
  l ≠ [] → Forall good l → strip_slash (join_with "/" l) = join_with "/" l.
Proof.
  intros Hne Hl. unfold strip_slash.
  assert (lstrip_slash (join_with "/" l) = join_with "/" l) as ->.
  { destruct l as [|x l]; [done|]. pose proof Hl as Hl'.
    apply Forall_cons in Hl' as [Hx _].
    destruct (good_first _ Hx) as (c & x' & Ex & Hc).
    destruct (join_first x c x' l Ex) as [s ->]. by apply lstrip_slash_nonslash. }
  by apply rstrip_slash_join.
Qed.

Lemma replace_backslash_id (s : string) :
  mem_char "\" s = false → replace_backslash s = s.
Proof.
  induction s as [|c s IH]; [done|]. simpl. intros [Hc Hs]%orb_false_iff.
  by rewrite Hc, (IH Hs).
Qed.

Lemma mem_char_join (c : ascii) l :
  mem_char c "/" = false → Forall (λ x, mem_char c x = false) l →
  mem_char c (join_with "/" l) = false.
Proof.
  intros Hsep. induction l as [|x [|y r] IH]; [done| |]; intros Hl.
  - by apply Forall_cons in Hl as [Hx _].
  - apply Forall_cons in Hl as [Hx Hl]. rewrite join_cons.
    by rewrite !mem_char_app, Hx, Hsep, (IH Hl).
Qed.

Lemma folder_parts_good k : Forall good (folder_parts k).
Proof. induction k as [|k IH]; simpl; repeat constructor; try done. Qed.

Lemma folder_parts_snoc k :
  folder_parts k ++ [".."; "a"] = folder_parts (S k).
Proof. induction k as [|k IH]; [done|]. simpl in *. by rewrite IH. Qed.

Lemma folder_parts_ne k l : folder_parts k ++ l ≠ [].
Proof. by destruct k. Qed.

Lemma part_path_S k : part_path (S k) = "a/../" +:+ part_path k.
Proof.
  unfold part_path. simpl.
  destruct (folder_parts k ++ ["x.xml"]) eqn:E; [by destruct k|]. reflexivity.
Qed.

Lemma part_path_length k :
  (String.length (part_path k) < String.length (part_path (S k)))%nat.
Proof. rewrite part_path_S, app_length_s. simpl. lia. Qed.

Lemma part_path_Path k :
  Path (part_path k) = {| p_root := ""; p_parts := folder_parts k ++ ["x.xml"] |}.
Proof.
  apply Path_join; [apply folder_parts_ne|].
  apply Forall_app. split; [apply folder_parts_good|]. by repeat constructor.
Qed.

Lemma folder_path_Path k :
  Path (folder_path k) = {| p_root := ""; p_parts := folder_parts k |}.
Proof.
  apply Path_join; [by destruct k|apply folder_parts_good].
Qed.

Lemma removelast_snoc {A} (l : list A) (x : A) : removelast (l ++ [x]) = l.
Proof. apply removelast_last. Qed.

Lemma part_path_folder k :
  strip_slash (as_posix (parent (Path (part_path k)))) = folder_path k.
Proof.
  rewrite part_path_Path. unfold parent. cbn [p_parts p_root].
  destruct (folder_parts k ++ ["x.xml"]) eqn:E; [by destruct k|]. rewrite <- E.
  rewrite removelast_snoc. unfold as_posix. cbn [p_parts p_root].
  destruct (folder_parts k) eqn:E'; [by destruct k|]. rewrite <- E'.
  rewrite app_nil_l_s. apply strip_slash_join; [by destruct k|apply folder_parts_good].
Qed.

Lemma part_path_name k : name (Path (part_path k)) = "x.xml".
Proof. rewrite part_path_Path. unfold name. cbn [p_parts]. apply List.last_last. Qed.

Lemma part_path_first k : ∃ s, part_path k = String "a" s.
Proof.
  unfold part_path. destruct k; simpl.
  - by eexists.
  - rewrite app_cons. by eexists.
Qed.

Lemma folder_path_first k : ∃ s, folder_path k = String "a" s.
Proof.
  unfold folder_path. destruct k; simpl.
  - by eexists.
  - rewrite app_cons. by eexists.
Qed.

Lemma part_path_no_backslash k : mem_char "\" (part_path k) = false.
Proof.
  apply mem_char_join; [done|]. apply Forall_app. split; [|by repeat constructor].
  induction k; simpl; repeat constructor; done.
Qed.

(** The path the copier computes for the dependency of the [k]-th call
    is the path of the next call. *)
Lemma part_path_target k :
  replace_backslash
    (strip_parent_markers
       (as_posix (joinpath (parent (Path (part_path k))) "../a/x.xml")))
  = part_path (S k).
Proof.
  assert (as_posix (joinpath (parent (Path (part_path k))) "../a/x.xml")
          = part_path (S k)) as ->.
  { rewrite part_path_Path. unfold parent. cbn [p_parts p_root].
    destruct (folder_parts k ++ ["x.xml"]) eqn:E; [by destruct k|]. rewrite <- E.
    rewrite removelast_snoc.
    change (joinpath {| p_root := ""; p_parts := folder_parts k |} "../a/x.xml")
      with {| p_root := ""; p_parts := folder_parts k ++ [".."; "a"; "x.xml"] |}.
    unfold as_posix. cbn [p_parts p_root].
    destruct (folder_parts k ++ [".."; "a"; "x.xml"]) eqn:E'; [by destruct k|].
    rewrite <- E', app_nil_l_s. unfold part_path. rewrite <- folder_parts_snoc.
    by rewrite <- app_assoc. }
  destruct (part_path_first (S k)) as [s Hs].
  assert (strip_parent_markers (part_path (S k)) = part_path (S k)) as ->
    by (by rewrite Hs).
  apply replace_backslash_id, part_path_no_backslash.
Qed.

End SelfReferenceFacts.

(** The file system under the nested calls. *)
Section SelfReferenceFS.

Implicit Types (fs : FS.t) (k : nat) (l d b n : list string).

Lemma chainb_chain fs d : chainb fs d = true → chain fs d.
Proof.
  unfold chainb. rewrite forallb_forall. intros H pre [t ->].
  specialize (H (length pre)). rewrite take_app_length in H. apply H.
  apply in_seq. rewrite length_app. lia.
Qed.

Lemma is_dir_node fs n : FS.is_dir fs n = true → FS.node_at fs n = Some FS.Dir.
Proof. unfold FS.is_dir. by destruct (FS.node_at fs n) as [[?|]|]. Qed.

Lemma walk_cons fs d (c : string) l :
  FS.walk fs d (c :: l)
  = if FS.is_dir fs d then
      if String.eqb c ".." then FS.walk fs (removelast d) l else FS.walk fs (d ++ [c]) l
    else None.
Proof. reflexivity. Qed.

Lemma mkdirs_cons fs d (c : string) l :
  FS.mkdirs fs d (c :: l)
  = if String.eqb c ".." then FS.mkdirs fs (removelast d) l
    else match FS.node_at fs (d ++ [c]) with
         | Some FS.Dir => FS.mkdirs fs (d ++ [c]) l
         | Some (FS.File _) => Raise FileExistsError
         | None => FS.mkdirs (<[d ++ [c] := FS.Dir]> fs) (d ++ [c]) l
         end.
Proof. reflexivity. Qed.

Lemma walk_prefix fs l : ∀ d2 d1,
  chain fs (d1 ++ d2) → Forall (λ x, x ≠ "..") d2 →
  FS.walk fs d1 (d2 ++ l) = FS.walk fs (d1 ++ d2) l.
Proof.
  induction d2 as [|c d2 IH]; intros d1 Hc Hd; [by rewrite app_nil_r|].
  apply Forall_cons in Hd as [Hne Hd].
  change ((c :: d2) ++ l) with (c :: (d2 ++ l)). rewrite walk_cons.
  rewrite (Hc d1) by by apply prefix_app_r.
  apply String.eqb_neq in Hne. rewrite Hne.
  rewrite (IH (d1 ++ [c])); [by rewrite <- app_assoc|by rewrite <- app_assoc|done].
Qed.

Lemma mkdirs_prefix fs l : ∀ d2 d1,
  chain fs (d1 ++ d2) → Forall (λ x, x ≠ "..") d2 →
  FS.mkdirs fs d1 (d2 ++ l) = FS.mkdirs fs (d1 ++ d2) l.
Proof.
  induction d2 as [|c d2 IH]; intros d1 Hc Hd; [by rewrite app_nil_r|].
  apply Forall_cons in Hd as [Hne Hd].
  change ((c :: d2) ++ l) with (c :: (d2 ++ l)). rewrite mkdirs_cons.
  apply String.eqb_neq in Hne. rewrite Hne.
  rewrite (is_dir_node fs (d1 ++ [c])).
  - rewrite (IH (d1 ++ [c])); [by rewrite <- app_assoc|by rewrite <- app_assoc|done].
  - apply Hc. rewrite (app_assoc d1 [c] d2) || idtac.
    change (c :: d2) with ([c] ++ d2). rewrite app_assoc. by apply prefix_app_r.
Qed.

Lemma walk_folder fs b l k :
  chain fs b → FS.is_dir fs (b ++ ["a"]) = true →
  FS.walk fs b (folder_parts k ++ l) = FS.walk fs (b ++ ["a"]) l.
Proof.
  intros Hb Ha. induction k as [|k IH].
  - change (folder_parts 0 ++ l) with ("a" :: l).
    rewrite walk_cons, (chain_self _ _ Hb). reflexivity.
  - change (folder_parts (S k) ++ l) with ("a" :: ".." :: (folder_parts k ++ l)).
    rewrite walk_cons, (chain_self _ _ Hb).
    change (String.eqb "a" "..") with false. cbv iota.
    rewrite walk_cons, Ha. change (String.eqb ".." "..") with true. cbv iota.
    rewrite removelast_last. exact IH.
Qed.

Lemma with_dir_subseteq n fs : fs ⊆ with_dir n fs.
Proof.
  unfold with_dir. destruct (fs !! n) eqn:E; [done|]. by apply insert_subseteq.
Qed.

Lemma with_dir_lookup n fs :
  dir_or_absent (fs !! n) → with_dir n fs !! n = Some FS.Dir.
Proof.
  unfold with_dir. intros [H|H]; rewrite H; [apply lookup_insert_eq|done].
Qed.

Lemma with_dir_present n fs v : fs !! n = Some v → with_dir n fs = fs.
Proof. unfold with_dir. by intros ->. Qed.

Lemma with_dir_other n m fs : n ≠ m → with_dir n fs !! m = fs !! m.
Proof.
  intros Hne. unfold with_dir. destruct (fs !! n); [done|]. by rewrite lookup_insert_ne.
Qed.

Lemma mkdirs_one fs b (c : string) l :
  c ≠ ".." → dir_or_absent (fs !! (b ++ [c])) →
  FS.mkdirs fs b (c :: l) = FS.mkdirs (with_dir (b ++ [c]) fs) (b ++ [c]) l.
Proof.
  intros Hne Hd. rewrite mkdirs_cons. apply String.eqb_neq in Hne. rewrite Hne.
  rewrite node_at_snoc. unfold with_dir. by destruct Hd as [->| ->].
Qed.

Lemma mkdirs_folder k : ∀ fs b l,
  chain fs b → dir_or_absent (fs !! (b ++ ["a"])) →
  FS.mkdirs fs b (folder_parts k ++ l)
  = FS.mkdirs (with_dir (b ++ ["a"]) fs) (b ++ ["a"]) l.
Proof.
  induction k as [|k IH]; intros fs b l Hb Ha.
  - change (folder_parts 0 ++ l) with ("a" :: l). by apply mkdirs_one.
  - change (folder_parts (S k) ++ l) with ("a" :: ".." :: (folder_parts k ++ l)).
    rewrite mkdirs_one by done. rewrite mkdirs_cons.
    change (String.eqb ".." "..") with true. cbv iota. rewrite removelast_last.
    pose proof (with_dir_lookup _ _ Ha) as Hl.
    rewrite IH.
    + by rewrite (with_dir_present _ _ _ Hl).
    + eapply chain_mono; [apply with_dir_subseteq|done].
    + by right.
Qed.

Lemma copyfile_ok (cwd : list string) fs (p q : path) (ns nd : list string) (c : content) :
  FS.resolve cwd fs p = Some ns → FS.node_at fs ns = Some (FS.File c) →
  FS.resolve cwd fs q = Some nd → FS.node_at fs nd ≠ Some FS.Dir →
  ns ≠ nd →
  FS.copyfile cwd fs p q = Ok (<[nd := FS.File c]> fs).
Proof.
  intros Hp Hc Hq Hd Hne. unfold FS.copyfile, FS.samefile, FS.read, FS.write, FS.stat.
  rewrite Hp, Hq, Hc.
  assert ((match FS.node_at fs nd with
           | Some _ => bool_decide (ns = nd)
           | None => false
           end) = false) as ->.
  { destruct (FS.node_at fs nd); [by apply bool_decide_eq_false|done]. }
  simpl. by destruct (FS.node_at fs nd) as [[?|]|].
Qed.

Lemma chain_insert_file fs n (c : content) d :
  FS.node_at fs n ≠ Some FS.Dir → chain fs d → chain (<[n := FS.File c]> fs) d.
Proof. intros Hn Hd pre Hpre. rewrite is_dir_insert_file by done. by apply Hd. Qed.

Lemma dir_or_absent_insert_ne fs n m (v : FS.node) :
  n ≠ m → dir_or_absent (fs !! m) → dir_or_absent (<[n := v]> fs !! m).
Proof. intros Hne. by rewrite lookup_insert_ne. Qed.

Lemma fs_ok_with_dir fs n :
  fs_ok fs → n = dst ++ ["a"] ∨ n = dst ++ ["a"; "_rels"] → fs_ok (with_dir n fs).
Proof.
  intros [H1 H2 H3 H4 H5 H6 H7 H8 H9] Hn.
  pose proof (with_dir_subseteq n fs) as Hsub.
  assert (dir_or_absent (fs !! n)) as Hd by (by destruct Hn as [->| ->]).
  pose proof (with_dir_lookup _ _ Hd) as Hl.
  split.
  - by eapply chain_mono.
  - by eapply lookup_weaken.
  - by eapply lookup_weaken.
  - by eapply lookup_weaken.
  - by eapply lookup_weaken.
  - by eapply chain_mono.
  - destruct Hn as [->| ->]; [by right|]. by rewrite with_dir_other.
  - destruct Hn as [->| ->]; [|by right]. by rewrite with_dir_other.
  - destruct Hn as [->| ->]; by rewrite with_dir_other.
Qed.

Lemma fs_ok_insert_file fs n (c : content) :
  fs_ok fs → fs !! n ≠ Some FS.Dir →
  (n = dst ++ ["a"; "_rels"; "x.xml.rels"] ∨ ∃ r : string, n = dst ++ ["a"; r] ∧ r ≠ "_rels") →
  fs_ok (<[n := FS.File c]> fs).
Proof.
  intros [H1 H2 H3 H4 H5 H6 H7 H8 H9] Hd Hn.
  assert (FS.node_at fs n ≠ Some FS.Dir) as Hnode.
  { unfold FS.node_at. destruct n; [|done]. destruct Hn as [?|(? & ? & _)]; done. }
  split.
  - by apply chain_insert_file.
  - rewrite lookup_insert_ne; [done|]. destruct Hn as [->|(r & -> & _)]; done.
  - rewrite lookup_insert_ne; [done|]. destruct Hn as [->|(r & -> & _)]; done.
  - rewrite lookup_insert_ne; [done|]. destruct Hn as [->|(r & -> & _)]; done.
  - rewrite lookup_insert_ne; [done|]. destruct Hn as [->|(r & -> & _)]; done.
  - by apply chain_insert_file.
  - rewrite lookup_insert_ne; [done|]. destruct Hn as [->|(r & -> & _)]; done.
  - rewrite lookup_insert_ne; [done|]. destruct Hn as [->|(r & -> & Hr)]; [done|].
    intros [= E]. by apply Hr.
  - destruct Hn as [->|(r & -> & _)].
    + by rewrite lookup_insert_eq.
    + by rewrite lookup_insert_ne.
Qed.

End SelfReferenceFS.

(** One call of the copier on the self-referential part, and the
    induction on the fuel. *)
Section SelfReferenceStep.

Implicit Types (fs : FS.t) (k : nat) (l : list string).

Lemma env_s : env0 deck_s = env_of [].
Proof. reflexivity. Qed.

Lemma state_s_ok : chainb (extracted deck_s) src = true
  ∧ chainb (extracted deck_s) dst = true.
Proof. split; vm_compute; reflexivity. Qed.

Lemma joinpath_rel (p : path) (s : string) l :
  Path s = {| p_root := ""; p_parts := l |} →
  joinpath p s = {| p_root := p_root p; p_parts := p_parts p ++ l |}.
Proof. intros H. unfold joinpath. by rewrite H. Qed.

Lemma src_no_up : Forall (λ x : string, x ≠ "..") src ∧ Forall (λ x : string, x ≠ "..") dst.
Proof. split; by repeat constructor. Qed.

Lemma resolve_under fs b k l :
  chain fs b → Forall (λ x : string, x ≠ "..") b → FS.is_dir fs (b ++ ["a"]) = true →
  FS.resolve cwd0 fs {| p_root := "/"; p_parts := b ++ folder_parts k ++ l |}
  = FS.walk fs (b ++ ["a"]) l.
Proof.
  intros Hb Hup Ha. unfold FS.resolve. cbn [is_absolute p_root p_parts].
  change (negb (String.eqb "/" "")) with true. cbv iota.
  rewrite (walk_prefix fs _ b []) by done. by apply walk_folder.
Qed.

Lemma mkdirs_under fs b k l :
  chain fs b → Forall (λ x : string, x ≠ "..") b → dir_or_absent (fs !! (b ++ ["a"])) →
  FS.mkdir_parents cwd0 fs {| p_root := "/"; p_parts := b ++ folder_parts k ++ l |}
  = FS.mkdirs (with_dir (b ++ ["a"]) fs) (b ++ ["a"]) l.
Proof.
  intros Hb Hup Ha. unfold FS.mkdir_parents. cbn [is_absolute p_root p_parts].
  change (negb (String.eqb "/" "")) with true. cbv iota.
  rewrite (mkdirs_prefix fs _ b []) by done. by apply mkdirs_folder.
Qed.

Lemma is_dir_lookup fs (n : list string) :
  fs !! n = Some FS.Dir → FS.is_dir fs n = true.
Proof. intros H. unfold FS.is_dir, FS.node_at. destruct n; [done|]. by rewrite H. Qed.

Lemma walk_one fs (d : list string) (x : string) :
  FS.is_dir fs d = true → x ≠ ".." → FS.walk fs d [x] = Some (d ++ [x]).
Proof.
  intros Hd Hx. rewrite walk_cons, Hd. apply String.eqb_neq in Hx. by rewrite Hx.
Qed.

Lemma walk_two fs (d : list string) (x y : string) :
  FS.is_dir fs d = true → FS.is_dir fs (d ++ [x]) = true → x ≠ ".." → y ≠ ".." →
  FS.walk fs d [x; y] = Some ((d ++ [x]) ++ [y]).
Proof.
  intros Hd Hdx Hx Hy. rewrite walk_cons, Hd. apply String.eqb_neq in Hx. rewrite Hx.
  by apply walk_one.
Qed.

Lemma kind_prefix_a (s : string) : kind_prefix (String "a" s) = None.
Proof. reflexivity. Qed.

Lemma CT_OVERRIDES_a (s : string) : CT_OVERRIDES (String "a" s) = None.
Proof. reflexivity. Qed.

Lemma patch_self (e : env) (rec : string → state → res (string * state))
    (p f : string) (st : state) :
  patch_relationships e rec p f [dep_rel "rId1" "../a/x.xml"] false st
  = rec (replace_backslash
           (strip_parent_markers (as_posix (joinpath (parent (Path p)) "../a/x.xml")))) st
    ≫= λ '(new_dep_rel, st1),
         relpath (cwd e) new_dep_rel f
         ≫= λ rp,
              patch_relationships e rec p f [] true st1
              ≫= λ '(rest', changed', st2),
                   Ok (set_target (dep_rel "rId1" "../a/x.xml")
                         (if startswith "../" (replace_backslash rp)
                          then replace_backslash rp
                          else "../" +:+ replace_backslash rp) :: rest', changed', st2).
Proof. reflexivity. Qed.

Lemma copy_body_self cs (rec : string → state → res (string * state)) k (st : state) :
  nested cs k st →
  (∀ st', nested cs (S k) st' → rec (part_path (S k)) st' = OutOfFuel) →
  copy_body (env_of cs) rec (part_path k) st = OutOfFuel.
Proof.
  intros (Hfs & Hct & Hkeys) Hrec. unfold copy_body, env_of.
  cbn [cwd src_root dst_root ct_src].
  destruct (name_map st !! part_path k) as [d|] eqn:Hmap.
  { apply Hkeys in Hmap. lia. }
  destruct src_no_up as [Hsrc_up Hdst_up].
  destruct (folder_path_first k) as [fp Hfp].
  rewrite (joinpath_rel _ _ _ (part_path_Path k)). cbn [p_root p_parts].
  rewrite part_path_folder, part_path_name.
  change (splitext "x.xml") with ("x", ".xml"). cbv iota beta.
  change ("x" +:+ ".xml" +:+ ".rels") with "x.xml.rels".
  (* the source part exists *)
  assert (∀ fs, fs_ok fs →
            FS.resolve cwd0 fs {| p_root := "/"; p_parts := src ++ folder_parts k ++ ["x.xml"] |}
            = Some (src ++ ["a"; "x.xml"])) as Hres_x.
  { intros fs0 Hok. rewrite resolve_under;
      [|apply Hok|done|apply is_dir_lookup, Hok].
    rewrite walk_one; [by rewrite <- app_assoc|apply is_dir_lookup, Hok|done]. }
  assert (FS.path_exists cwd0 (fs st)
            {| p_root := "/"; p_parts := src ++ folder_parts k ++ ["x.xml"] |} = true) as ->.
  { unfold FS.path_exists, FS.stat. rewrite (Hres_x _ Hfs).
    change (FS.node_at (fs st) (src ++ ["a"; "x.xml"]))
      with (fs st !! (src ++ ["a"; "x.xml"])).
    by rewrite (ok_src_x _ Hfs). }
  cbn [negb].
  (* the paths of the call, as components *)
  pose proof (joinpath_rel (MkPath "/" dst) _ _ (folder_path_Path k)) as Hp_dst.
  pose proof (joinpath_rel (MkPath "/" src) _ _ (folder_path_Path k)) as Hp_src.
  cbn [p_root p_parts] in Hp_dst, Hp_src.
  destruct plain_literals as (_ & Hpl_rels & _).
  assert (plain "x.xml.rels") as Hpl_xrels by done.
  rewrite Hp_src, Hp_dst.
  rewrite !(joinpath_plain _ "_rels" Hpl_rels). cbn [p_root p_parts].
  rewrite !(joinpath_plain _ "x.xml.rels" Hpl_xrels). cbn [p_root p_parts].
  rewrite <- !app_assoc.
  (* ensure_dir(dst_folder) *)
  set (da := dst ++ ["a"]).
  set (fs1 := with_dir da (fs st)).
  assert (ensure_dir cwd0 (fs st) {| p_root := "/"; p_parts := dst ++ folder_parts k |}
          = Ok fs1) as ->.
  { unfold ensure_dir. rewrite <- (app_nil_r (folder_parts k)).
    rewrite mkdirs_under; [done|apply Hfs|done|apply Hfs]. }
  assert (fs_ok fs1) as Hfs1 by (apply fs_ok_with_dir; [done|by left]).
  assert (fs1 !! da = Some FS.Dir) as Hda1 by (apply with_dir_lookup, Hfs).
  cbn [mbind res_bind bind].
  (* pick_new_filename *)
  assert (∀ fs, fs_ok fs → fs !! da = Some FS.Dir →
            FS.resolve cwd0 fs {| p_root := "/"; p_parts := dst ++ folder_parts k |}
            = Some da) as Hres_dst.
  { intros fs0 Hok Hda. rewrite <- (app_nil_r (folder_parts k)).
    rewrite resolve_under; [done|apply Hok|done|by apply is_dir_lookup]. }
  assert (FS.stat cwd0 fs1 {| p_root := "/"; p_parts := dst ++ folder_parts k |}
          = Some FS.Dir) as Hstat1.
  { unfold FS.stat. rewrite (Hres_dst _ Hfs1 Hda1).
    change (FS.node_at fs1 da) with (fs1 !! da). done. }
  rewrite pick_fallback by (by rewrite Hfp).
  destruct (first_unused_returns cwd0 fs1
              {| p_root := "/"; p_parts := dst ++ folder_parts k |} "x" ".xml" "x.xml"
              Hstat1 eq_refl eq_refl) as [r Hr].
  rewrite Hr. cbn [mbind res_bind bind].
  apply first_unused_ok in Hr as [Hfresh Hshape].
  assert (plain r ∧ r ≠ "_rels") as [Hplain Hnot_rels].
  { destruct Hshape as [->|(j & _ & ->)]; [done|]. split; [by apply candidate_plain|].
    intros E. apply (f_equal (mem_char ".")) in E. unfold candidate in E.
    rewrite !mem_char_app in E. simpl in E. by rewrite !orb_true_r in E. }
  destruct (stat_child cwd0 fs1 _ da r (Hres_dst _ Hfs1 Hda1)
              (is_dir_lookup _ _ Hda1) Hplain) as [_ Hstat_r].
  unfold FS.path_exists in Hfresh. rewrite Hstat_r in Hfresh.
  assert (fs1 !! (da ++ [r]) = None) as Hnone by (by destruct (fs1 !! (da ++ [r]))).
  clear Hfresh Hstat_r.
  (* the part copy *)
  assert (truthy (Some (folder_path k)) = true) as -> by (by rewrite Hfp).
  assert (joinpath {| p_root := "/"; p_parts := dst |} (folder_path k +:+ "/" +:+ r)
          = {| p_root := "/"; p_parts := dst ++ folder_parts k ++ [r] |}) as ->.
  { unfold folder_path. rewrite <- join_snoc by (by destruct k).
    apply joinpath_rel. apply Path_join; [apply folder_parts_ne|].
    apply Forall_app. split; [apply folder_parts_good|].
    repeat constructor; apply Hplain. }
  set (fs2 := <[da ++ [r] := FS.File (Xml empty_doc)]> fs1).
  assert (FS.copyfile cwd0 fs1
            {| p_root := "/"; p_parts := src ++ folder_parts k ++ ["x.xml"] |}
            {| p_root := "/"; p_parts := dst ++ folder_parts k ++ [r] |} = Ok fs2) as ->.
  { apply (copyfile_ok _ _ _ _ (src ++ ["a"; "x.xml"]) (da ++ [r])).
    - by apply Hres_x.
    - change (FS.node_at fs1 (src ++ ["a"; "x.xml"])) with (fs1 !! (src ++ ["a"; "x.xml"])).
      apply Hfs1.
    - rewrite resolve_under; [|apply Hfs1|done|by apply is_dir_lookup].
      apply walk_one; [by apply is_dir_lookup|apply Hplain].
    - rewrite node_at_snoc, Hnone. done.
    - done. }
  cbn [mbind res_bind bind].
  assert (fs_ok fs2) as Hfs2.
  { apply fs_ok_insert_file; [done|by rewrite Hnone|]. right. exists r.
    split; [|done]. unfold da. by rewrite <- app_assoc. }
  assert (fs2 !! da = Some FS.Dir) as Hda2.
  { unfold fs2. rewrite lookup_insert_ne; [done|]. intros E.
    apply (f_equal length) in E. rewrite length_app in E. simpl in E. lia. }
  (* content types *)
  rewrite Hfp, CT_OVERRIDES_a, Hct.
  cbn [mbind res_bind bind].
  (* the relationships part *)
  set (dr := dst ++ ["a"; "_rels"]).
  set (sx := src ++ ["a"; "_rels"; "x.xml.rels"]).
  set (dx := dst ++ ["a"; "_rels"; "x.xml.rels"]).
  assert (∀ fs, fs_ok fs →
            FS.resolve cwd0 fs
              {| p_root := "/"; p_parts := src ++ folder_parts k ++ ["_rels"] ++ ["x.xml.rels"] |}
            = Some sx) as Hres_sx.
  { intros fs0 Hok. rewrite resolve_under; [|apply Hok|done|apply is_dir_lookup, Hok].
    change (["_rels"] ++ ["x.xml.rels"]) with ["_rels"; "x.xml.rels"].
    rewrite walk_two; [by rewrite <- !app_assoc|apply is_dir_lookup, Hok| |done|done].
    apply is_dir_lookup. rewrite <- app_assoc. apply Hok. }
  assert (FS.path_exists cwd0 fs2
            {| p_root := "/"; p_parts := src ++ folder_parts k ++ ["_rels"] ++ ["x.xml.rels"] |}
          = true) as ->.
  { unfold FS.path_exists, FS.stat. rewrite (Hres_sx _ Hfs2).
    change (FS.node_at fs2 sx) with (fs2 !! (src ++ ["a"; "_rels"; "x.xml.rels"])).
    by rewrite (ok_src_xrels _ Hfs2). }
  set (fs3 := with_dir dr fs2).
  assert (ensure_dir cwd0 fs2 {| p_root := "/"; p_parts := dst ++ folder_parts k ++ ["_rels"] |}
          = Ok fs3) as ->.
  { unfold ensure_dir. rewrite mkdirs_under; [|apply Hfs2|done|apply Hfs2].
    fold da. rewrite (with_dir_present _ _ _ Hda2).
    rewrite mkdirs_one; [|done|].
    - unfold da. by rewrite <- app_assoc.
    - unfold da. rewrite <- app_assoc. apply Hfs2. }
  cbn [mbind res_bind bind].
  assert (fs_ok fs3) as Hfs3 by (apply fs_ok_with_dir; [done|by right]).
  assert (fs3 !! dr = Some FS.Dir) as Hdr3 by (apply with_dir_lookup, Hfs2).
  assert (fs3 !! da = Some FS.Dir) as Hda3.
  { unfold fs3. rewrite with_dir_other; [done|]. intros E.
    apply (f_equal length) in E. by vm_compute in E. }
  set (rd := rels_doc [dep_rel "rId1" "../a/x.xml"]).
  set (fs4 := <[dx := FS.File (Xml rd)]> fs3).
  assert (∀ fs, fs_ok fs → fs !! da = Some FS.Dir → fs !! dr = Some FS.Dir →
            FS.resolve cwd0 fs
              {| p_root := "/"; p_parts := dst ++ folder_parts k ++ ["_rels"] ++ ["x.xml.rels"] |}
            = Some dx) as Hres_dx.
  { intros fs0 Hok Hda Hdr. rewrite resolve_under; [|apply Hok|done|by apply is_dir_lookup].
    change (["_rels"] ++ ["x.xml.rels"]) with ["_rels"; "x.xml.rels"].
    rewrite walk_two; [by rewrite <- !app_assoc|by apply is_dir_lookup| |done|done].
    apply is_dir_lookup. by rewrite <- app_assoc. }
  assert (FS.copyfile cwd0 fs3
            {| p_root := "/"; p_parts := src ++ folder_parts k ++ ["_rels"] ++ ["x.xml.rels"] |}
            {| p_root := "/"; p_parts := dst ++ folder_parts k ++ ["_rels"] ++ ["x.xml.rels"] |}
          = Ok fs4) as ->.
  { apply (copyfile_ok _ _ _ _ sx dx).
    - by apply Hres_sx.
    - change (FS.node_at fs3 sx) with (fs3 !! sx). apply Hfs3.
    - by apply Hres_dx.
    - change (FS.node_at fs3 dx) with (fs3 !! dx). apply Hfs3.
    - done. }
  cbn [mbind res_bind bind].
  assert (fs_ok fs4) as Hfs4.
  { apply fs_ok_insert_file; [done|apply Hfs3|by left]. }
  assert (parse_xml cwd0 fs4
            {| p_root := "/"; p_parts := dst ++ folder_parts k ++ ["_rels"] ++ ["x.xml.rels"] |}
          = Ok rd) as ->.
  { unfold parse_xml, FS.read, FS.stat. rewrite Hres_dx; [| done | |].
    - change (FS.node_at fs4 dx) with (fs4 !! dx). unfold fs4.
      by rewrite lookup_insert_eq.
    - unfold fs4. rewrite lookup_insert_ne; [done|]. intros E.
      apply (f_equal length) in E. by vm_compute in E.
    - unfold fs4. rewrite lookup_insert_ne; [done|]. intros E.
      apply (f_equal length) in E. by vm_compute in E. }
  cbn [mbind res_bind bind].
  change (doc_relationships rd) with [dep_rel "rId1" "../a/x.xml"].
  rewrite patch_self, part_path_target.
  rewrite Hrec; [done|]. split_and!; [exact Hfs4|exact Hct|].
  intros key d. cbn [name_map with_fs]. intros Hl.
  destruct (decide (key = part_path k)) as [->|Hne].
  - apply part_path_length.
  - rewrite lookup_insert_ne in Hl by done. apply Hkeys in Hl.
    pose proof (part_path_length k). lia.
Qed.

Lemma fs_ok_start : fs_ok (extracted deck_s).
Proof.
  destruct state_s_ok as [Hs Hd].
  split; try (apply chainb_chain; assumption); try (vm_compute; reflexivity).
  - left. vm_compute. reflexivity.
  - left. vm_compute. reflexivity.
  - vm_compute. discriminate.
Qed.

Lemma copy_self_never_returns cs fuel : ∀ k (st : state),
  nested cs k st →
  copy_part_with_dependencies fuel (env_of cs) (part_path k) st = OutOfFuel.
Proof.
  induction fuel as [|fuel IH]; intros k st Hn; [done|].
  cbn [copy_part_with_dependencies]. apply copy_body_self; [done|].
  intros st' Hn'. by apply IH.
Qed.

End SelfReferenceStep.

(** The merge of deck [s] into deck [a] reaches that call. *)
Section SelfReferenceMerge.

Lemma observe_unit {A} (r : res A) : observe (λ _, tt) r = Some tt → ∃ a, r = Ok a.
Proof. destruct r as [a| |]; [by exists a|done..]. Qed.

Lemma extract_base : extract_pptx cwd0 fs0 deck_a base_dir0 = Ok base_fs.
Proof.
  unfold base_fs.
  destruct (observe_unit (extract_pptx cwd0 fs0 deck_a base_dir0)) as [f ->];
    [vm_compute; reflexivity|reflexivity].
Qed.

Lemma extract_self :
  extract_pptx cwd0 base_fs deck_s (src_dir0 deck_s) = Ok (extracted deck_s).
Proof.
  unfold extracted. rewrite extract_base.
  destruct (observe_unit (extract_pptx cwd0 base_fs deck_s (src_dir0 deck_s))) as [f ->];
    [vm_compute; reflexivity|reflexivity].
Qed.

Lemma parse_self :
  parse_xml cwd0 (extracted deck_s) (joinpath (src_dir0 deck_s) "[Content_Types].xml")
  = Ok (set_types empty_doc manifest_types)
  ∧ parse_xml cwd0 (extracted deck_s)
      (joinpath (joinpath (src_dir0 deck_s) "ppt") "presentation.xml")
    = Ok (set_sldIdLst empty_doc [MkSld (Some "256") (Some "rId2")])
  ∧ parse_xml cwd0 (extracted deck_s)
      (joinpath (joinpath (joinpath (src_dir0 deck_s) "ppt") "_rels") "presentation.xml.rels")
    = Ok (rels_doc [slide_rel "rId2" "a/x.xml"]).
Proof. split_and!; vm_compute; reflexivity. Qed.

Lemma parse_base :
  observe (λ _, tt)
    (parse_xml cwd0 base_fs (joinpath (joinpath base_dir0 "ppt") "presentation.xml"))
  = Some tt
  ∧ observe (λ _, tt)
      (parse_xml cwd0 base_fs
         (joinpath (joinpath (joinpath base_dir0 "ppt") "_rels") "presentation.xml.rels"))
    = Some tt
  ∧ observe doc_types (parse_xml cwd0 base_fs (joinpath base_dir0 "[Content_Types].xml"))
    = Some manifest_types.
Proof. split_and!; vm_compute; reflexivity. Qed.

Lemma manifest_types_kept :
  ensure_default_types_from_source manifest_types manifest_types = Ok manifest_types.
Proof. vm_compute. reflexivity. Qed.

Lemma merge_slide_out_of_fuel fuel e targets (sld : sldId) :
  merge_slide fuel e targets OutOfFuel sld = OutOfFuel.
Proof. reflexivity. Qed.

Lemma merge_slides_out_of_fuel fuel e targets (slds : list sldId) :
  fold_left (merge_slide fuel e targets) slds OutOfFuel = OutOfFuel.
Proof. induction slds as [|s slds IH]; [done|]. exact IH. Qed.

Lemma merge_sources_out_of_fuel fuel (extras : list package) :
  fold_left (merge_source fuel cwd0 workdir0) extras OutOfFuel = OutOfFuel.
Proof. induction extras as [|s l IH]; [done|]. exact IH. Qed.

Lemma merge_source_self (fuel : nat) (ms : merge_state) :
  fs (m_st ms) = base_fs →
  ct_dst (m_st ms) = manifest_types →
  merge_source fuel cwd0 workdir0 (Ok ms) deck_s = OutOfFuel.
Proof.
  intros Hfs Hct. unfold merge_source. cbn [mbind res_bind bind].
  rewrite Hfs.
  change (joinpath workdir0 ("src_" +:+ pk_stem deck_s)) with (src_dir0 deck_s).
  rewrite extract_self. cbn [mbind res_bind bind].
  destruct parse_self as (-> & -> & ->). cbn [mbind res_bind bind].
  change (doc_sldIdLst (set_sldIdLst empty_doc [MkSld (Some "256") (Some "rId2")]))
    with (Some [MkSld (Some "256") (Some "rId2")]).
  cbv iota beta. cbn [fold_left].
  unfold merge_slide at 1. cbn [mbind res_bind bind sld_rid].
  change (mjoin (id_to_target (doc_relationships (rels_doc [slide_rel "rId2" "a/x.xml"]))
                   !! Some "rId2")) with (Some "a/x.xml").
  change (negb (truthy (Some "a/x.xml"))) with false. cbv iota.
  change (normalize_target (default "" (Some "a/x.xml"))) with (part_path 0).
  cbn [m_st].
  change (doc_types (set_types empty_doc manifest_types)) with manifest_types.
  change {| cwd := cwd0; src_root := joinpath (src_dir0 deck_s) "ppt";
            dst_root := joinpath (joinpath workdir0 "base") "ppt";
            ct_src := manifest_types |} with (env_of manifest_types).
  rewrite copy_self_never_returns; [reflexivity|].
  split_and!.
  - apply fs_ok_start.
  - cbn [ct_dst]. rewrite Hct. apply manifest_types_kept.
  - intros key d. cbn [name_map]. by rewrite lookup_empty.
Qed.

Lemma merge_self_never_returns (fuel : nat) :
  merge_presentations fuel cwd0 workdir0 fs0 [deck_a; deck_s] = OutOfFuel.
Proof.
  unfold merge_presentations.
  change (joinpath workdir0 "base") with base_dir0.
  rewrite extract_base. cbn [mbind res_bind bind].
  destruct parse_base as (H1 & H2 & H3).
  apply observe_ok in H1 as (d1 & -> & _).
  apply observe_ok in H2 as (d2 & -> & _).
  apply observe_ok in H3 as (d3 & -> & Hd3).
  cbn [mbind res_bind bind fold_left].
  rewrite merge_source_self; [reflexivity|reflexivity|exact Hd3].
Qed.

End SelfReferenceMerge.

(** C8, refuted on a part that refers to itself.  Deck [s] has one slide
    part, [a/x.xml], whose relationships part lists the target
    [../a/x.xml], the part itself.  The copier is asked for [a/x.xml];
    the nested call is asked for [a/../a/x.xml], the next one for
    [a/../a/../a/x.xml], and so on: each path names the same file, is
    longer than every key of the name map, and so is copied again.
    Whatever the fuel, neither the copier nor [merge_presentations]
    returns: the number of nested calls has no bound, while the source
    has one part. *)
Theorem self_reference_never_returns (fuel : nat) :
  copy_part_with_dependencies fuel (env0 deck_s) "a/x.xml" (state0 deck_s) = OutOfFuel
  ∧ merge_presentations fuel cwd0 workdir0 fs0 [deck_a; deck_s] = OutOfFuel.
Proof.
  split; [|apply merge_self_never_returns].
  rewrite env_s. apply (copy_self_never_returns [] fuel 0).
  split_and!; [apply fs_ok_start|reflexivity|].
  intros key d. cbn [name_map state0]. by rewrite lookup_empty.
Qed.
(* ===================================================================== *)
(** * The content-type registry, the index scan and the id tables *)
(* ===================================================================== *)

Section RegistryFacts.

Implicit Types (ct : list ct_child) (p t : string).

Lemma has_override_name p el :
  has_override p el = true ↔ override_name el = Some p.
Proof.
  destruct el as [x c|[q|] c]; simpl; try done.
  rewrite bool_decide_eq_true. naive_solver.
Qed.

Lemma existsb_override p ct :
  existsb (has_override p) ct = true ↔ p ∈ omap override_name ct.
Proof.
  rewrite existsb_exists, list_elem_of_omap. split.
  - intros (el & Hin & H). exists el. split; [by apply list_elem_of_In|].
    by apply has_override_name.
  - intros (el & Hin & H). exists el. split; [by apply list_elem_of_In|].
    by apply has_override_name.
Qed.

Lemma add_override_spec ct p t :
  (p ∈ omap override_name ct ∧ add_content_type_override ct p t = ct)
  ∨ ((p ∉ omap override_name ct)
     ∧ add_content_type_override ct p t = ct ++ [Override (Some p) (Some t)]).
Proof.
  unfold add_content_type_override.
  destruct (existsb (has_override p) ct) eqn:E.
  - left. split; [by apply existsb_override|done].
  - right. split; [|done]. intros H%existsb_override. congruence.
Qed.

Lemma add_override_names ct p t :
  p ∈ omap override_name (add_content_type_override ct p t).
Proof.
  destruct (add_override_spec ct p t) as [[H ->]|[_ ->]]; [done|].
  rewrite omap_app. apply elem_of_app. right. simpl. apply list_elem_of_here.
Qed.

End RegistryFacts.

(** X1.  Registering a part name that already has an [Override] changes
    nothing: whatever content type the later call gives, the first
    registration stays, and the call is idempotent. *)
Theorem add_content_type_override_first_wins
    (ct : list ct_child) (p t t' : string) :
  add_content_type_override (add_content_type_override ct p t) p t'
  = add_content_type_override ct p t.
Proof.
  destruct (add_override_spec (add_content_type_override ct p t) p t')
    as [[_ H]|[H _]]; [exact H|].
  destruct H. apply add_override_names.
Qed.

(** X2.  The registry keeps every child it had, in place, appends at most one
    [Override], has an [Override] for the part name afterwards, and never
    registers a part name twice: part names that were distinct stay
    distinct. *)
Theorem add_content_type_override_keeps_names_distinct
    (ct : list ct_child) (p t : string) :
  NoDup (omap override_name ct) →
  ct `prefix_of` add_content_type_override ct p t
  ∧ (length (add_content_type_override ct p t) ≤ S (length ct))%nat
  ∧ p ∈ omap override_name (add_content_type_override ct p t)
  ∧ NoDup (omap override_name (add_content_type_override ct p t)).
Proof.
  intros Hnd. split_and!.
  - destruct (add_override_spec ct p t) as [[_ ->]|[_ ->]]; [done|by apply prefix_app_r].
  - destruct (add_override_spec ct p t) as [[_ ->]|[_ ->]]; [lia|].
    rewrite length_app. simpl. lia.
  - apply add_override_names.
  - destruct (add_override_spec ct p t) as [[_ ->]|[Hp ->]]; [done|].
    rewrite omap_app. simpl. apply NoDup_app. split_and!; [done| |apply NoDup_singleton].
    intros x Hx ->%list_elem_of_singleton. done.
Qed.

Lemma add_content_type_override_keeps_names_distinct_witness :
  NoDup (omap override_name [Default (Some "xml") (Some "application/xml");
                             Override (Some "/ppt/slides/slide1.xml") (Some "t")])
  ∧ NoDup (omap override_name
             (add_content_type_override
                [Default (Some "xml") (Some "application/xml");
                 Override (Some "/ppt/slides/slide1.xml") (Some "t")]
                "/ppt/slides/slide2.xml" "t")).
Proof.
  assert (NoDup (omap override_name [Default (Some "xml") (Some "application/xml");
                                     Override (Some "/ppt/slides/slide1.xml") (Some "t")]))
    as H by (simpl; apply NoDup_singleton).
  split; [exact H|].
  apply (add_content_type_override_keeps_names_distinct _ "/ppt/slides/slide2.xml" "t" H).
Defined.

(** X3.  In a directory, [max_index] returns, and never raises: the result is
    the greatest index among the entries, where the index of an entry is
    the first run of digits of a name that starts with the prefix and
    ends with the suffix; it is zero when no entry has an index. *)
Theorem max_index_greatest
    (cwd : list string) (fs : FS.t) (dir_path : path) (prefix suffix : string) :
  FS.stat cwd fs dir_path = Some FS.Dir →
  ∃ n names,
    max_index cwd fs dir_path prefix suffix = Ok n
    ∧ FS.listdir cwd fs dir_path = Ok names
    ∧ 0 ≤ n
    ∧ (∀ x k, x ∈ names → entry_index prefix suffix x = Some k → k ≤ n)
    ∧ (n = 0 ∨ ∃ x, x ∈ names ∧ entry_index prefix suffix x = Some n).
Proof.
  intros Hd. destruct (stat_dir_inv _ _ _ Hd) as (d & Hr & Hdir & Hex & names & Hl).
  destruct (max_index_fold prefix suffix names 0) as (n & Hn & Hge & Hub & Hatt).
  exists n, names. unfold max_index. rewrite Hex, Hl. simpl.
  split_and!; [exact Hn|done|exact Hge|exact Hub|exact Hatt].
Qed.

Lemma max_index_greatest_witness :
  ∃ n names,
    max_index Examples.cwd0 (Examples.extracted Examples.deck_b)
      (MkPath "/" ["tmp"; "td"; "src_b"; "ppt"; "slides"]) "slide" ".xml" = Ok n
    ∧ FS.listdir Examples.cwd0 (Examples.extracted Examples.deck_b)
        (MkPath "/" ["tmp"; "td"; "src_b"; "ppt"; "slides"]) = Ok names
    ∧ 0 ≤ n.
Proof.
  destruct (max_index_greatest Examples.cwd0 (Examples.extracted Examples.deck_b)
              (MkPath "/" ["tmp"; "td"; "src_b"; "ppt"; "slides"]) "slide" ".xml")
    as (n & names & H1 & H2 & H3 & _); [vm_compute; reflexivity|].
  exists n, names. split; [exact H1|]. split; [exact H2|exact H3].
Defined.

Section IdTables.

Lemma id_to_target_snoc (rels : list relationship) (r : relationship) :
  id_to_target (rels ++ [r]) = id_to_target_step (id_to_target rels) r.
Proof. unfold id_to_target. by rewrite fold_left_app. Qed.

Lemma last_snoc_s {A} (l : list A) (x : A) : last (l ++ [x]) = Some x.
Proof. apply last_snoc. Qed.

End IdTables.

(** X4.  The table of slide targets maps an id to the target of the last
    relationship of slide type that carries it, and has no entry for an
    id that no slide relationship carries; relationships of other types
    never get in.  (A missing [Id] is the key [None], a missing [Target]
    the value [None].) *)
Theorem id_to_target_last (rels : list relationship) (rid : option string) :
  id_to_target rels !! rid = rel_target <$> last (slide_rels_with rid rels).
Proof.
  induction rels as [|r rels IH] using rev_ind; [done|].
  rewrite id_to_target_snoc. unfold slide_rels_with in *. rewrite filter_app.
  unfold id_to_target_step. case_bool_decide as Ht.
  - destruct (decide (rel_id r = rid)) as [E|E].
    + rewrite filter_cons_True by done. rewrite filter_nil, last_snoc_s. simpl.
      rewrite E. apply lookup_insert_eq.
    + rewrite filter_cons_False by (by intros [_ ?]). rewrite filter_nil, app_nil_r.
      by rewrite lookup_insert_ne.
  - rewrite filter_cons_False by (by intros [? _]). by rewrite filter_nil, app_nil_r.
Qed.

(** X5.  [current_max_sld_id] is the greatest of 256 and the ids that [int()]
    reads; an entry without an [id] counts as 256, an id that does not
    parse is skipped. *)
Theorem current_max_sld_id_greatest (slds : list sldId) :
  256 ≤ current_max_sld_id slds
  ∧ (∀ x v, x ∈ slds → sld_number x = Some v → v ≤ current_max_sld_id slds)
  ∧ (current_max_sld_id slds = 256
     ∨ ∃ x, x ∈ slds ∧ sld_number x = Some (current_max_sld_id slds)).
Proof.
  destruct (current_max_sld_id_ub slds) as [H256 Hub].
  split_and!; [done|exact Hub|].
  unfold current_max_sld_id. clear. generalize 256 as m0.
  induction slds as [|y slds IH] using rev_ind; intros m0; [by left|].
  rewrite fold_left_app. simpl. unfold sld_id_step at 1 3. fold (sld_number y).
  destruct (sld_number y) as [v|] eqn:Ev.
  - destruct (Z.max_spec (fold_left sld_id_step slds m0) v) as [[_ ->]|[_ ->]].
    + right. exists y. split; [|done]. apply elem_of_app. right. apply list_elem_of_here.
    + destruct (IH m0) as [->|(x & Hx & Hv)]; [by left|]. right. exists x.
      split; [|done]. apply elem_of_app. by left.
  - destruct (IH m0) as [->|(x & Hx & Hv)]; [by left|]. right. exists x.
    split; [|done]. apply elem_of_app. by left.
Qed.

(* ===================================================================== *)
(** * Saving and loading a part *)
(* ===================================================================== *)

Section XmlIO.

Implicit Types (cwd n k : list string) (fs : FS.t) (p : path).

(** [mkdir(parents=True)] leaves every entry as it is and adds
    directories only. *)
Lemma mkdirs_frame (l : list string) :
  ∀ fs cur fs', FS.mkdirs fs cur l = Ok fs' →
    ∀ k, fs' !! k = fs !! k ∨ (fs !! k = None ∧ fs' !! k = Some FS.Dir).
Proof.
  induction l as [|c l IH]; intros fs cur fs'.
  - intros [= <-] k. by left.
  - rewrite mkdirs_cons. destruct (String.eqb c ".."); [apply IH|].
    destruct (FS.node_at fs (cur ++ [c])) as [[x|]|] eqn:E; [discriminate|apply IH|].
    intros H k. rewrite node_at_snoc in E.
    destruct (IH _ _ _ H k) as [Hk|[Hk1 Hk2]].
    + destruct (decide (k = cur ++ [c])) as [->|Hne].
      * right. rewrite Hk, lookup_insert_eq. done.
      * left. by rewrite Hk, lookup_insert_ne.
    + destruct (decide (k = cur ++ [c])) as [->|Hne].
      * by rewrite lookup_insert_eq in Hk1.
      * rewrite lookup_insert_ne in Hk1 by done. by right.
Qed.

Lemma mkdir_parents_frame cwd fs p fs' :
  FS.mkdir_parents cwd fs p = Ok fs' →
  ∀ k, fs' !! k = fs !! k ∨ (fs !! k = None ∧ fs' !! k = Some FS.Dir).
Proof. apply mkdirs_frame. Qed.

Lemma write_xml_frame_aux cwd fs fs' (tree : document) p :
  write_xml cwd fs tree p = Ok fs' →
  ∃ n, FS.resolve cwd fs' p = Some n
       ∧ fs' !! n = Some (FS.File (Xml tree))
       ∧ ∀ k, k ≠ n →
           fs' !! k = fs !! k ∨ (fs !! k = None ∧ fs' !! k = Some FS.Dir).
Proof.
  unfold write_xml. intros H. apply bind_ok in H as (fs1 & Hm & H).
  apply write_spec in H as (n & Hn & Hnd & -> & Hr).
  exists n. split_and!.
  - unfold FS.resolve in *.
    rewrite (walk_is_dir_ext fs1 (<[n := FS.File (Xml tree)]> fs1));
      [done|by apply is_dir_insert_file].
  - apply lookup_insert_eq.
  - intros k Hk. rewrite lookup_insert_ne by done. by eapply mkdir_parents_frame.
Qed.

End XmlIO.

(** X6.  [write_xml] saves the document where [parse_xml] finds it, and
    changes nothing else: when the save returns, parsing the same path
    gives the saved document, and every other entry of the file system is
    as it was, or is a directory the save created on the way.  (A file
    holds the document itself; its serialisation is not modelled.) *)
Theorem write_xml_frame
    (cwd : list string) (fs fs' : FS.t) (tree : document) (p : path) :
  write_xml cwd fs tree p = Ok fs' →
  parse_xml cwd fs' p = Ok tree
  ∧ ∃ n, FS.resolve cwd fs' p = Some n
         ∧ fs' !! n = Some (FS.File (Xml tree))
         ∧ ∀ k, k ≠ n →
             fs' !! k = fs !! k ∨ (fs !! k = None ∧ fs' !! k = Some FS.Dir).
Proof.
  intros H. split; [|by apply write_xml_frame_aux].
  unfold write_xml in H. apply bind_ok in H as (fs1 & _ & H).
  apply write_spec in H as (_ & _ & _ & _ & Hr). unfold parse_xml. by rewrite Hr.
Qed.

Lemma write_xml_frame_witness :
  ∃ fs' n,
    write_xml Examples.cwd0 Examples.fs0 Examples.empty_doc
      (MkPath "/" ["tmp"; "td"; "base"; "ppt"; "presentation.xml"]) = Ok fs'
    ∧ fs' !! n = Some (FS.File (Xml Examples.empty_doc)).
Proof.
  destruct (observe_unit (write_xml Examples.cwd0 Examples.fs0 Examples.empty_doc
              (MkPath "/" ["tmp"; "td"; "base"; "ppt"; "presentation.xml"])))
    as [fs' E]; [vm_compute; reflexivity|].
  destruct (write_xml_frame _ _ _ _ _ E) as (_ & n & _ & Hn & _).
  exists fs', n. split; [exact E|exact Hn].
Defined.

(* ===================================================================== *)
(** * Extracting and writing archives *)
(* ===================================================================== *)

Section ArchiveFacts.

Implicit Types (cwd d k n : list string) (fs : FS.t) (p : path).

Lemma drop_prefix_spec (d : list string) : ∀ k rel, drop_prefix d k = Some rel ↔ k = d ++ rel.
Proof.
  induction d as [|a d IH]; intros k rel; simpl.
  - split; [by intros [= ->]|by intros ->].
  - destruct k as [|b k]; [split; discriminate|].
    destruct (String.eqb_spec a b) as [->|Hne].
    + rewrite IH. split; [by intros ->|by intros [= ->]].
    + split; [discriminate|]. intros [= E _]. done.
Qed.

Lemma walk_file_spec fs d (kv : list string * FS.node) (rel : list string) (c : content) :
  walk_file fs d kv = Some (rel, c) ↔ kv = (d ++ rel, FS.File c) ∧ walked fs d rel = true.
Proof.
  unfold walk_file. destruct kv as [k [c'|]]; simpl.
  - destruct (drop_prefix d k) as [rel'|] eqn:E.
    + apply drop_prefix_spec in E as ->. destruct (walked fs d rel') eqn:Ew.
      * split.
        -- by intros [= -> ->].
        -- intros [[= E ->] _]. by apply app_inv_head in E as ->.
      * split; [discriminate|]. intros [[= E ->] Hw].
        apply app_inv_head in E as ->. congruence.
    + split; [discriminate|]. intros [[= -> ->] _].
      by rewrite (proj2 (drop_prefix_spec d (d ++ rel) rel) eq_refl) in E.
  - split; [discriminate|]. by intros [? _].
Qed.

Lemma walk_files d fs (rel : list string) (c : content) :
  (rel, c) ∈ omap (walk_file fs d) (map_to_list fs)
  ↔ fs !! (d ++ rel) = Some (FS.File c) ∧ walked fs d rel = true.
Proof.
  rewrite list_elem_of_omap. split.
  - intros (kv & Hin & H). apply walk_file_spec in H as [-> Hw]. split; [|done].
    by apply elem_of_map_to_list in Hin.
  - intros [H Hw]. exists (d ++ rel, FS.File c). split; [by apply elem_of_map_to_list|].
    by apply walk_file_spec.
Qed.

Lemma write_members_spec (files : list (list string * content)) :
  ∀ l, write_members files = Ok l →
    ∀ nm c, (nm, c) ∈ l ↔ ∃ rel, (rel, c) ∈ files ∧ zip_info_name (arc_name rel) = Ok nm.
Proof.
  induction files as [|[rel0 c0] files IH]; intros l; cbn [write_members fst snd].
  - intros [= <-] n c. split; [by intros ?%elem_of_nil|]. by intros (? & ?%elem_of_nil & _).
  - intros H. apply bind_ok in H as (n0 & Hn0 & H). apply bind_ok in H as (l' & Hl' & H).
    injection H as <-. intros nm c. rewrite elem_of_cons, (IH _ Hl'). split.
    + intros [[= -> ->]|(rel & Hin & Hn)].
      * exists rel0. split; [apply list_elem_of_here|done].
      * exists rel. split; [by apply list_elem_of_further|done].
    + intros (rel & [[= -> ->]|Hin]%elem_of_cons & Hn).
      * left. congruence.
      * right. by exists rel.
Qed.

Lemma write_members_returns (files : list (list string * content)) :
  (∀ f, f ∈ files → ∃ nm, zip_info_name (arc_name f.1) = Ok nm) →
  ∃ l, write_members files = Ok l.
Proof.
  induction files as [|f files IH]; intros H; cbn [write_members]; [by eexists|].
  destruct (H f) as [nm ->]; [apply list_elem_of_here|].
  destruct IH as [l ->]; [intros g Hg; by apply H, list_elem_of_further|].
  by eexists.
Qed.

(** What [zip_dir] writes when it returns. *)
Lemma zip_dir_members cwd fs (src_dir : path) d (l : list (string * content)) :
  FS.resolve cwd fs src_dir = Some d →
  zip_dir cwd fs src_dir = Ok l →
  ∀ nm c, (nm, c) ∈ l ↔
    ∃ rel, fs !! (d ++ rel) = Some (FS.File c) ∧ walked fs d rel = true
           ∧ zip_info_name (arc_name rel) = Ok nm.
Proof.
  intros Hd. unfold zip_dir. rewrite Hd. intros H n c.
  rewrite (write_members_spec _ _ H). split.
  - intros (rel & [Hf Hw]%walk_files & Hn). by exists rel.
  - intros (rel & Hf & Hw & Hn). exists rel. split; [by apply walk_files|done].
Qed.

(** Names that need no care. *)
Lemma replace_backslash_none (s : string) :
  mem_char "\" s = false → replace_backslash s = s.
Proof.
  induction s as [|c s IH]; [done|]. simpl. intros [Hc Hs]%orb_false_iff.
  by rewrite Hc, (IH Hs).
Qed.

Lemma normpath_comps_valid (initial : bool) (l : list string) :
  Forall (λ x, valid_member_part x = true) l →
  ∀ acc, normpath_comps initial acc l = acc ++ l.
Proof.
  induction 1 as [|c l Hc Hl IH]; intros acc; cbn [normpath_comps]; [by rewrite app_nil_r|].
  unfold valid_member_part in Hc. apply negb_true_iff in Hc.
  apply orb_false_iff in Hc as [Hc ->]. rewrite Hc. simpl.
  by rewrite IH, <- app_assoc.
Qed.

Lemma tidy_first (x : string) : tidy x → ∃ c x', x = String c x' ∧ c ≠ "/"%char.
Proof.
  intros (Hv & Hs & _). destruct x as [|c x']; [done|]. exists c, x'. split; [done|].
  simpl in Hs. apply andb_true_iff in Hs as [Hc _]. apply negb_true_iff in Hc.
  by apply Ascii.eqb_neq in Hc.
Qed.

Lemma startswith_slash_other (c : ascii) (s : string) :
  c ≠ "/"%char → startswith "/" (String c s) = false.
Proof.
  intros Hc. unfold startswith. cbn [String.prefix].
  destruct (ascii_dec "/" c) as [E|E]; [by symmetry in E|done].
Qed.

(** A relative path of tidy names is stored under its names joined by
    slashes. *)
Lemma arc_name_tidy (rel : list string) :
  rel ≠ [] → Forall tidy rel → zip_info_name (arc_name rel) = Ok (join_with "/" rel).
Proof.
  intros Hne Hl. unfold zip_info_name, arc_name.
  rewrite replace_backslash_none.
  2:{ apply mem_char_join; [done|]. eapply Forall_impl; [exact Hl|]. by intros x (_ & _ & ?). }
  destruct rel as [|x r]; [done|]. pose proof Hl as Hx. apply Forall_cons in Hx as [Hx _].
  destruct (tidy_first _ Hx) as (c & x' & Ex & Hc).
  destruct (join_first x c x' r Ex) as [s Es].
  assert (normpath (join_with "/" (x :: r)) = join_with "/" (x :: r)) as ->.
  { unfold normpath. rewrite split_join; [|done|].
    2:{ eapply Forall_impl; [exact Hl|]. by intros y (_ & ? & _). }
    rewrite normpath_comps_valid.
    2:{ eapply Forall_impl; [exact Hl|]. by intros y (? & _). }
    rewrite Es, startswith_slash_other by done. rewrite <- Es. cbn [app].
    rewrite Es. reflexivity. }
  rewrite Es, lstrip_slash_nonslash by done. reflexivity.
Qed.

Lemma walked_nonempty fs cur (rel : list string) : walked fs cur rel = true → rel ≠ [].
Proof. by destruct rel. Qed.

Lemma walked_walk fs (rel : list string) :
  Forall (λ x, valid_member_part x = true) rel → rel ≠ [] →
  ∀ cur n, FS.walk fs cur rel = Some n → walked fs cur rel = true.
Proof.
  induction 1 as [|c r Hc Hr IH]; [done|]. intros _ cur n. cbn [FS.walk walked].
  destruct (FS.is_dir fs cur); [|discriminate].
  unfold valid_member_part in Hc. apply negb_true_iff in Hc.
  apply orb_false_iff in Hc as [_ ->]. intros H. simpl.
  destruct r as [|c' r]; [done|]. by eapply IH.
Qed.

(** Every file of a directory is written under its tidy relative path
    when all of them have one. *)
Lemma zip_dir_tidy cwd fs (src_dir : path) d :
  FS.resolve cwd fs src_dir = Some d →
  (∀ rel c, fs !! (d ++ rel) = Some (FS.File c) → walked fs d rel = true → Forall tidy rel) →
  ∃ l, zip_dir cwd fs src_dir = Ok l
       ∧ ∀ nm c, (nm, c) ∈ l ↔
           ∃ rel, nm = join_with "/" rel ∧ fs !! (d ++ rel) = Some (FS.File c)
                  ∧ walked fs d rel = true.
Proof.
  intros Hd Htidy.
  assert (∃ l, zip_dir cwd fs src_dir = Ok l) as [l Hl].
  { unfold zip_dir. rewrite Hd. apply write_members_returns. intros [rel c] [Hf Hw]%walk_files.
    exists (join_with "/" rel). apply arc_name_tidy; [by eapply walked_nonempty|by eapply Htidy]. }
  exists l. split; [done|]. intros nm c. rewrite (zip_dir_members _ _ _ _ _ Hd Hl). split.
  - intros (rel & Hf & Hw & Hn). exists rel.
    rewrite arc_name_tidy in Hn; [|by eapply walked_nonempty|by eapply Htidy].
    injection Hn as <-. done.
  - intros (rel & -> & Hf & Hw). exists rel. split_and!; [done|done|].
    apply arc_name_tidy; [by eapply walked_nonempty|by eapply Htidy].
Qed.

(** The components of a member name. *)
Lemma split_slash_mem (c : ascii) (s : string) :
  mem_char c s = false → Forall (λ x, mem_char c x = false) (split_slash s).
Proof.
  induction s as [|a s IH]; simpl; [by repeat constructor|].
  intros [Ha Hs]%orb_false_iff. specialize (IH Hs).
  destruct (Ascii.eqb a "/"); [by constructor|].
  destruct (split_slash s) as [|h t]; [constructor; [simpl; by rewrite Ha|done]|].
  apply Forall_cons in IH as [Hh Ht]. constructor; [simpl; by rewrite Ha, Hh|done].
Qed.

Lemma member_parts_tidy (s : string) :
  mem_char "\" s = false → Forall tidy (member_parts s).
Proof.
  intros Hs. apply Forall_forall. intros x Hx.
  apply list_elem_of_filter in Hx as [Hv Hx]. split_and!; [done| |].
  - by apply (split_slash_parts s).
  - pose proof (split_slash_mem "\" s Hs) as H. rewrite Forall_forall in H. by apply H.
Qed.

Lemma pk_file_tidy (members : list (string * content)) (rel : list string) (c : content) :
  Forall (λ m, mem_char "\" m.1 = false) members →
  fold_left (pk_file_step rel) members None = Some c → Forall tidy rel.
Proof.
  intros Hm H. apply pk_file_step_parts in H as [?|(m & Hin & <-)]; [done|].
  apply member_parts_tidy. rewrite Forall_forall in Hm. by apply Hm.
Qed.

(** The entries [mkdir(parents=True)] creates on a path of ordinary names
    are prefixes of that path. *)
Lemma mkdirs_plain_frame (l : list string) :
  Forall (λ x, valid_member_part x = true) l →
  ∀ fs cur fs', FS.mkdirs fs cur l = Ok fs' →
    ∀ k, fs' !! k = fs !! k
         ∨ (fs !! k = None ∧ fs' !! k = Some FS.Dir ∧ k `prefix_of` cur ++ l
            ∧ (length cur < length k)%nat).
Proof.
  induction 1 as [|c l Hc Hl IH]; intros fs cur fs'.
  - intros [= <-] k. by left.
  - rewrite mkdirs_cons.
    unfold valid_member_part in Hc. apply negb_true_iff in Hc.
    apply orb_false_iff in Hc as [_ ->].
    assert (∀ fs1 k, FS.mkdirs fs1 (cur ++ [c]) l = Ok fs' →
              fs' !! k = fs1 !! k
              ∨ (fs1 !! k = None ∧ fs' !! k = Some FS.Dir ∧ k `prefix_of` cur ++ c :: l
                 ∧ (length cur < length k)%nat)) as IH'.
    { intros fs1 k H. destruct (IH _ _ _ H k) as [?|(? & ? & Hp & Hlen)]; [by left|].
      right. rewrite <- app_assoc in Hp. rewrite length_app in Hlen. simpl in *.
      split_and!; [done|done|done|lia]. }
    destruct (FS.node_at fs (cur ++ [c])) as [[x|]|] eqn:E; [discriminate|by intros; apply IH'|].
    intros H k. rewrite node_at_snoc in E.
    destruct (IH' _ k H) as [Hk|(Hk1 & Hk2 & Hk3)].
    + destruct (decide (k = cur ++ [c])) as [->|Hne].
      * right. rewrite Hk, lookup_insert_eq. split_and!; [done|done| |].
        -- change (c :: l) with ([c] ++ l). rewrite app_assoc. by apply prefix_app_r.
        -- rewrite length_app. simpl. lia.
      * left. by rewrite Hk, lookup_insert_ne.
    + destruct (decide (k = cur ++ [c])) as [->|Hne].
      * by rewrite lookup_insert_eq in Hk1.
      * rewrite lookup_insert_ne in Hk1 by done. by right.
Qed.

Lemma removelast_valid (l : list string) :
  Forall (λ x, valid_member_part x = true) l →
  Forall (λ x, valid_member_part x = true) (removelast l).
Proof.
  intros H. destruct l as [|a l] using rev_ind; [done|].
  rewrite removelast_last. by apply Forall_app in H as [? _].
Qed.

Section Member.

Variables (cwd : list string) (to_dir : path).
Hypothesis Habs : is_absolute to_dir = true.
Hypothesis Hord : ordinary to_dir.

Lemma member_path_valid (s : string) :
  Forall (λ x, valid_member_part x = true) (p_parts to_dir ++ member_parts s).
Proof. apply Forall_app. split; [exact Hord|apply member_parts_valid]. Qed.

Lemma member_path_abs (s : string) : is_absolute (member_path to_dir s) = true.
Proof. exact Habs. Qed.

Lemma parent_member_abs (s : string) : is_absolute (parent (member_path to_dir s)) = true.
Proof.
  unfold parent, member_path, is_absolute in *. simpl.
  by destruct (p_parts to_dir ++ member_parts s).
Qed.

Lemma parent_member_parts (s : string) :
  p_parts (parent (member_path to_dir s)) = removelast (p_parts to_dir ++ member_parts s).
Proof.
  unfold parent, member_path. simpl.
  by destruct (p_parts to_dir ++ member_parts s).
Qed.

(** One member: the file member's bytes are at its path, every other
    entry is as it was or is a new directory on the way to the member's
    path. *)
Lemma extract_member_step fs fs' (m : string * content) :
  extract_member cwd to_dir (Ok fs) m = Ok fs' →
  ∀ k,
    (k = p_parts to_dir ++ member_parts m.1 ∧ endswith "/" m.1 = false
     ∧ fs' !! k = Some (FS.File m.2))
    ∨ ((k ≠ p_parts to_dir ++ member_parts m.1 ∨ endswith "/" m.1 = true)
       ∧ (fs' !! k = fs !! k
          ∨ (fs !! k = None ∧ fs' !! k = Some FS.Dir
             ∧ k `prefix_of` p_parts to_dir ++ member_parts m.1))).
Proof.
  unfold extract_member. cbn [mbind res_bind bind]. intros H.
  apply bind_ok in H as (fs1 & H1 & H).
  assert (∀ k, fs1 !! k = fs !! k
               ∨ (fs !! k = None ∧ fs1 !! k = Some FS.Dir
                  ∧ k `prefix_of` p_parts to_dir ++ member_parts m.1)) as Hup.
  { destruct (FS.path_exists cwd fs _); [injection H1 as <-; by left|].
    unfold FS.mkdir_parents in H1. rewrite parent_member_abs, parent_member_parts in H1.
    intros k.
    destruct (mkdirs_plain_frame _ (removelast_valid _ (member_path_valid m.1)) _ _ _ H1 k)
      as [?|(? & ? & Hp & _)]; [by left|].
    right. split_and!; [done|done|]. simpl in Hp. etrans; [exact Hp|].
    destruct (p_parts to_dir ++ member_parts m.1) as [|a l] using rev_ind; [done|].
    rewrite removelast_last. by apply prefix_app_r. }
  destruct (endswith "/" m.1) eqn:Hdir.
  - intros k. right. split; [by right|].
    unfold FS.mkdir_parents in H. rewrite member_path_abs in H.
    destruct (mkdirs_plain_frame _ (member_path_valid m.1) _ _ _ H k)
      as [Hk|(Hk1 & Hk2 & Hp & _)].
    + rewrite Hk. apply Hup.
    + destruct (Hup k) as [E|(_ & E & _)]; [|congruence].
      right. rewrite <- E. by split_and!.
  - apply write_spec in H as (n & Hn & Hnd & -> & _).
    unfold FS.resolve in Hn. rewrite member_path_abs in Hn.
    apply walk_plain_list in Hn; [|apply member_path_valid]. simpl in Hn. subst n.
    intros k. destruct (decide (k = p_parts to_dir ++ member_parts m.1)) as [->|Hne].
    + left. split_and!; [done|done|]. apply lookup_insert_eq.
    + right. split; [by left|]. rewrite lookup_insert_ne by done. apply Hup.
Qed.

(** All members: what is stored under a path afterwards. *)
Lemma extract_fold_files (members : list (string * content)) :
  ∀ fs fs', fold_left (extract_member cwd to_dir) members (Ok fs) = Ok fs' →
    ∀ k c, fs' !! k = Some (FS.File c) ↔
      (∃ rel, k = p_parts to_dir ++ rel
              ∧ fold_left (pk_file_step rel) members None = Some c)
      ∨ ((∀ rel, k = p_parts to_dir ++ rel →
                 fold_left (pk_file_step rel) members None = None)
         ∧ fs !! k = Some (FS.File c)).
Proof.
  induction members as [|m members IH] using rev_ind; intros fs fs'.
  { intros [= <-] k c. simpl. split; [by right|]. by intros [(? & _ & ?)|[_ ?]]. }
  rewrite fold_left_app. simpl. intros Hx.
  destruct (extract_member_strict _ _ _ _ _ Hx) as [fs_mid Hmid]. rewrite Hmid in Hx.
  specialize (IH _ _ Hmid).
  assert (∀ rel, fold_left (pk_file_step rel) (members ++ [m]) None
                 = pk_file_step rel (fold_left (pk_file_step rel) members None) m) as Hstep
    by (intros rel; by rewrite fold_left_app).
  intros k c.
  destruct (extract_member_step _ _ _ Hx k) as [(-> & Hf & Hk)|(Hother & Hk)].
  - rewrite Hk. split.
    + intros [= <-]. left. exists (member_parts m.1). split; [done|].
      rewrite Hstep. unfold pk_file_step. rewrite bool_decide_eq_true_2 by done.
      by rewrite Hf.
    + intros [(rel & E & H)|[Hn _]].
      * apply app_inv_head in E as <-. rewrite Hstep in H. unfold pk_file_step in H.
        rewrite bool_decide_eq_true_2, Hf in H by done. simpl in H. by injection H as <-.
      * specialize (Hn _ eq_refl). rewrite Hstep in Hn. unfold pk_file_step in Hn.
        rewrite bool_decide_eq_true_2, Hf in Hn by done. done.
  - assert (∀ rel, k = p_parts to_dir ++ rel →
              pk_file_step rel (fold_left (pk_file_step rel) members None) m
              = fold_left (pk_file_step rel) members None) as Hsame.
    { intros rel ->. unfold pk_file_step.
      destruct Hother as [Hne| ->]; [|by rewrite andb_false_r].
      rewrite bool_decide_eq_false_2; [done|]. intros E. apply Hne. by rewrite E. }
    assert (fs' !! k = Some (FS.File c) ↔ fs_mid !! k = Some (FS.File c)) as ->.
    { destruct Hk as [->|(Hk1 & Hk2 & _)]; [done|]. rewrite Hk1, Hk2. split; discriminate. }
    rewrite IH. split.
    + intros [(rel & E & H)|[Hn Hf]].
      * left. exists rel. split; [done|]. by rewrite Hstep, Hsame.
      * right. split; [|done]. intros rel E. rewrite Hstep, Hsame by done. by apply Hn.
    + intros [(rel & E & H)|[Hn Hf]].
      * left. exists rel. split; [done|]. by rewrite Hstep, Hsame in H.
      * right. split; [|done]. intros rel E. specialize (Hn _ E).
        by rewrite Hstep, Hsame in Hn.
Qed.

(** All members: what happens outside the files. *)
Lemma extract_fold_frame (members : list (string * content)) :
  ∀ fs fs', fold_left (extract_member cwd to_dir) members (Ok fs) = Ok fs' →
    ∀ k, ¬ p_parts to_dir `prefix_of` k →
      fs' !! k = fs !! k
      ∨ (fs !! k = None ∧ fs' !! k = Some FS.Dir ∧ k `prefix_of` p_parts to_dir).
Proof.
  induction members as [|m members IH] using rev_ind; intros fs fs'.
  { intros [= <-] k _. by left. }
  rewrite fold_left_app. simpl. intros Hx k Hk.
  destruct (extract_member_strict _ _ _ _ _ Hx) as [fs_mid Hmid]. rewrite Hmid in Hx.
  specialize (IH _ _ Hmid k Hk).
  destruct (extract_member_step _ _ _ Hx k) as [(-> & _)|(_ & Hstep)].
  { destruct Hk. by apply prefix_app_r. }
  assert (∀ l : list string, k `prefix_of` p_parts to_dir ++ l → k `prefix_of` p_parts to_dir)
    as Hpre.
  { intros l Hp. destruct (prefix_weak_total _ _ _ Hp (prefix_app_r (p_parts to_dir) _ l
                                                          (reflexivity _))) as [?|?]; done. }
  destruct Hstep as [E|(E1 & E2 & Hp)].
  - rewrite E. exact IH.
  - destruct IH as [E|(E3 & E4 & _)]; [|congruence].
    right. rewrite <- E. split_and!; [done|done|by eapply Hpre].
Qed.

End Member.

End ArchiveFacts.

(** X7.  After [extract_pptx], the files of the file system are these: under
    the path of a file member, the bytes of the last file member stored
    under that path; everywhere else, inside and outside the target
    directory, the file that was there before.  (Member names lose their
    empty, [.] and [..] components, so no member is written outside the
    target directory.) *)
Theorem extract_pptx_files
    (cwd : list string) (fs fs' : FS.t) (pkg : package) (to_dir : path) :
  is_absolute to_dir = true → ordinary to_dir →
  extract_pptx cwd fs pkg to_dir = Ok fs' →
  ∀ k c, fs' !! k = Some (FS.File c) ↔
    (∃ rel, k = p_parts to_dir ++ rel ∧ pk_file pkg rel = Some c)
    ∨ ((∀ rel, k = p_parts to_dir ++ rel → pk_file pkg rel = None)
       ∧ fs !! k = Some (FS.File c)).
Proof.
  intros Habs Hord H. by apply (extract_fold_files cwd to_dir Habs Hord (pk_members pkg)).
Qed.

(** X8.  [extract_pptx] stays inside its target directory: an entry that is
    not at or below the target is as it was, or is a directory created
    on the way to the target. *)
Theorem extract_pptx_confined
    (cwd : list string) (fs fs' : FS.t) (pkg : package) (to_dir : path) :
  is_absolute to_dir = true → ordinary to_dir →
  extract_pptx cwd fs pkg to_dir = Ok fs' →
  ∀ k, ¬ p_parts to_dir `prefix_of` k →
    fs' !! k = fs !! k
    ∨ (fs !! k = None ∧ fs' !! k = Some FS.Dir ∧ k `prefix_of` p_parts to_dir).
Proof.
  intros Habs Hord H. by apply (extract_fold_frame cwd to_dir Habs Hord (pk_members pkg)).
Qed.

(** X9.  The archive [zip_dir] writes has one member for each file the walk
    reaches from the directory, and none for a directory.  The member's
    name is the file's path relative to the directory with every
    backslash turned into a slash, normalised the way [ZipFile.write]
    does it; a path of tidy names is stored under these names joined by
    slashes, and a file named [a\b.txt] is stored as [a/b.txt]. *)
Theorem zip_dir_lookup
    (cwd : list string) (fs : FS.t) (src_dir : path) (d : list string)
    (l : list (string * content)) :
  FS.resolve cwd fs src_dir = Some d →
  zip_dir cwd fs src_dir = Ok l →
  (∀ nm c, (nm, c) ∈ l ↔
     ∃ rel, fs !! (d ++ rel) = Some (FS.File c) ∧ walked fs d rel = true
            ∧ zip_info_name (arc_name rel) = Ok nm)
  ∧ (∀ rel c, fs !! (d ++ rel) = Some (FS.File c) → walked fs d rel = true →
       Forall tidy rel → (join_with "/" rel, c) ∈ l)
  ∧ zip_info_name (arc_name ["a\b.txt"]) = Ok "a/b.txt".
Proof.
  intros Hd Hl. split; [exact (zip_dir_members cwd fs src_dir d l Hd Hl)|].
  split; [|reflexivity].
  intros rel c Hf Hw Ht. apply (zip_dir_members _ _ _ _ _ Hd Hl). exists rel.
  split_and!; [done|done|]. apply arc_name_tidy; [by eapply walked_nonempty|done].
Qed.

Section RoundTrip.

Implicit Types (cwd d : list string) (fs : FS.t) (p : path).

(** The files of a package extracted to a vacant place. *)
Lemma extracted_files cwd fs fs' (pkg : package) (to_dir : path) :
  is_absolute to_dir = true → ordinary to_dir →
  vacant fs (p_parts to_dir) →
  extract_pptx cwd fs pkg to_dir = Ok fs' →
  ∀ rel c, fs' !! (p_parts to_dir ++ rel) = Some (FS.File c) ↔ pk_file pkg rel = Some c.
Proof.
  intros Habs Hord Hvac Hx rel c.
  rewrite (extract_fold_files cwd to_dir Habs Hord (pk_members pkg) _ _ Hx). split.
  - intros [(rel' & E & H)|[_ H]].
    + by apply app_inv_head in E as <-.
    + rewrite Hvac in H; [done|by apply prefix_app_r].
  - intros H. left. by exists rel.
Qed.

(** A file member of an extracted package is reached through
    directories. *)
Lemma extracted_walked cwd fs fs' (pkg : package) (to_dir : path)
    (rel : list string) (c : content) :
  is_absolute to_dir = true → ordinary to_dir →
  extract_pptx cwd fs pkg to_dir = Ok fs' →
  pk_file pkg rel = Some c → rel ≠ [] →
  walked fs' (p_parts to_dir) rel = true.
Proof.
  intros Habs Hord Hx Hc Hne.
  pose proof (extract_read_back cwd to_dir rel Habs _ _ _ _ Hx Hc) as Hr.
  unfold FS.read, FS.stat, FS.resolve in Hr. cbn [p_root p_parts] in Hr.
  assert (is_absolute {| p_root := p_root to_dir; p_parts := p_parts to_dir ++ rel |} = true)
    as Ha by exact Habs.
  rewrite Ha, walk_app in Hr.
  destruct (FS.walk fs' [] (p_parts to_dir)) as [d|] eqn:Ed; [|discriminate].
  apply walk_plain_list in Ed; [|exact Hord]. cbn in Ed. subst d.
  destruct (FS.walk fs' (p_parts to_dir) rel) as [n|] eqn:En; [|discriminate].
  eapply walked_walk; [|done|exact En].
  apply pk_file_step_parts in Hc as [?|(m & _ & <-)]; [done|]. apply member_parts_valid.
Qed.

End RoundTrip.

(** X10.  Extracting a package whose member names hold no backslash into a
    place where nothing is stored, and zipping the directory again, gives
    the package's files back: one member for each path under which the
    package stores a file, named by the path's components joined by
    slashes and holding the last file member stored under that path, and
    nothing else. *)
Theorem extract_then_zip
    (cwd : list string) (fs fs' : FS.t) (pkg : package) (to_dir : path) :
  is_absolute to_dir = true → ordinary to_dir →
  vacant fs (p_parts to_dir) →
  Forall (λ m, mem_char "\" m.1 = false) (pk_members pkg) →
  extract_pptx cwd fs pkg to_dir = Ok fs' →
  FS.stat cwd fs' to_dir = Some FS.Dir →
  ∃ l, zip_dir cwd fs' to_dir = Ok l
       ∧ ∀ nm c, (nm, c) ∈ l ↔ ∃ rel, nm = join_with "/" rel ∧ pk_file pkg rel = Some c.
Proof.
  intros Habs Hord Hvac Hnames Hx Hdir.
  destruct (stat_dir_inv _ _ _ Hdir) as (d & Hr & Hd & _).
  assert (d = p_parts to_dir) as ->.
  { unfold FS.resolve in Hr. rewrite Habs in Hr. by apply walk_plain_list in Hr. }
  pose proof (extracted_files cwd fs fs' pkg to_dir Habs Hord Hvac Hx) as Hfiles.
  destruct (zip_dir_tidy cwd fs' to_dir _ Hr) as (l & Hl & Hmem).
  { intros rel c Hf _. apply Hfiles in Hf. by eapply pk_file_tidy. }
  exists l. split; [done|]. intros nm c. rewrite Hmem. split.
  - intros (rel & -> & Hf & _). exists rel. split; [done|]. by apply Hfiles.
  - intros (rel & -> & Hc). exists rel. split_and!; [done|by apply Hfiles|].
    eapply extracted_walked; [done..|]. intros ->.
    pose proof (extract_read_back cwd to_dir [] Habs _ _ _ _ Hx Hc) as Hrd.
    rewrite app_nil_r in Hrd. destruct to_dir as [root parts]. cbn [p_root p_parts] in Hrd.
    unfold FS.read in Hrd. by rewrite Hdir in Hrd.
Qed.

Lemma ordinary_base_dir0 : ordinary Examples.base_dir0.
Proof. unfold ordinary. simpl. by repeat constructor. Qed.

Lemma extract_pptx_files_witness :
  ∃ fs',
    extract_pptx Examples.cwd0 Examples.fs0 Examples.deck_b Examples.base_dir0 = Ok fs'
    ∧ fs' !! ["tmp"; "td"; "base"; "ppt"; "media"; "image1.png"]
      = Some (FS.File (Bytes "PNG")).
Proof.
  destruct (observe_unit (extract_pptx Examples.cwd0 Examples.fs0 Examples.deck_b
                            Examples.base_dir0)) as [fs' E]; [vm_compute; reflexivity|].
  exists fs'. split; [exact E|].
  apply (extract_pptx_files Examples.cwd0 Examples.fs0 fs' Examples.deck_b
           Examples.base_dir0 eq_refl ordinary_base_dir0 E).
  left. exists ["ppt"; "media"; "image1.png"]. split; vm_compute; reflexivity.
Defined.

Lemma extract_pptx_confined_witness :
  ∃ fs',
    extract_pptx Examples.cwd0 Examples.fs0 Examples.deck_b Examples.base_dir0 = Ok fs'
    ∧ (fs' !! ["home"; "notes.txt"] = Examples.fs0 !! ["home"; "notes.txt"]
       ∨ (Examples.fs0 !! ["home"; "notes.txt"] = None
          ∧ fs' !! ["home"; "notes.txt"] = Some FS.Dir
          ∧ ["home"; "notes.txt"] `prefix_of` p_parts Examples.base_dir0)).
Proof.
  destruct (observe_unit (extract_pptx Examples.cwd0 Examples.fs0 Examples.deck_b
                            Examples.base_dir0)) as [fs' E]; [vm_compute; reflexivity|].
  exists fs'. split; [exact E|].
  apply (extract_pptx_confined Examples.cwd0 Examples.fs0 fs' Examples.deck_b
           Examples.base_dir0 eq_refl ordinary_base_dir0 E).
  intros [l Hl]. vm_compute in Hl. discriminate.
Defined.

Lemma zip_dir_lookup_witness :
  ∃ l,
    zip_dir [] (<[ ["d"; "a\b.txt"] := FS.File (Bytes "x") ]> (<[ ["d"] := FS.Dir ]> ∅))
            (MkPath "/" ["d"]) = Ok l
    ∧ ("a/b.txt", Bytes "x") ∈ l.
Proof.
  destruct (observe_unit
              (zip_dir [] (<[ ["d"; "a\b.txt"] := FS.File (Bytes "x") ]>
                             (<[ ["d"] := FS.Dir ]> ∅)) (MkPath "/" ["d"])))
    as [l E]; [vm_compute; reflexivity|].
  exists l. split; [exact E|].
  apply (proj1 (zip_dir_lookup [] (<[ ["d"; "a\b.txt"] := FS.File (Bytes "x") ]>
                                     (<[ ["d"] := FS.Dir ]> ∅))
                  (MkPath "/" ["d"]) ["d"] l eq_refl E)).
  exists ["a\b.txt"]. split_and!; vm_compute; reflexivity.
Defined.

Lemma vacant_fs0 : vacant Examples.fs0 (p_parts Examples.base_dir0).
Proof.
  intros k [l ->]. unfold Examples.fs0.
  rewrite !lookup_insert_ne; [apply lookup_empty|done..].
Qed.

Lemma extract_then_zip_witness :
  ∃ fs' l,
    extract_pptx Examples.cwd0 Examples.fs0 Examples.deck_b Examples.base_dir0 = Ok fs'
    ∧ zip_dir Examples.cwd0 fs' Examples.base_dir0 = Ok l
    ∧ ("ppt/media/image1.png", Bytes "PNG") ∈ l.
Proof.
  destruct (observe_unit (extract_pptx Examples.cwd0 Examples.fs0 Examples.deck_b
                            Examples.base_dir0)) as [fs' E]; [vm_compute; reflexivity|].
  assert (FS.stat Examples.cwd0 fs' Examples.base_dir0 = Some FS.Dir) as Hdir.
  { assert (observe (λ f, FS.stat Examples.cwd0 f Examples.base_dir0)
              (extract_pptx Examples.cwd0 Examples.fs0 Examples.deck_b Examples.base_dir0)
            = Some (Some FS.Dir)) as H by (vm_compute; reflexivity).
    rewrite E in H. simpl in H. by injection H. }
  assert (Forall (λ m : string * content, mem_char "\" m.1 = false)
            (pk_members Examples.deck_b)) as Hnames by (by repeat constructor).
  destruct (extract_then_zip Examples.cwd0 Examples.fs0 fs' Examples.deck_b
              Examples.base_dir0 eq_refl ordinary_base_dir0 vacant_fs0 Hnames E Hdir)
    as (l & Hl & Hmem).
  exists fs', l. split; [exact E|]. split; [exact Hl|].
  apply Hmem. exists ["ppt"; "media"; "image1.png"]. split; vm_compute; reflexivity.
Defined.

(* ===================================================================== *)
(** * What the copier keeps *)
(* ===================================================================== *)

Section Growth.

Implicit Types (cwd n k : list string) (fs : FS.t) (p : path) (st : state).

Lemma fs_grows_refl fs : fs_grows fs fs.
Proof. intros k. destruct (fs !! k) as [[c|]|]; eauto. Qed.

Lemma fs_grows_trans fs1 fs2 fs3 : fs_grows fs1 fs2 → fs_grows fs2 fs3 → fs_grows fs1 fs3.
Proof.
  intros H12 H23 k. specialize (H12 k). specialize (H23 k).
  destruct (fs1 !! k) as [[c|]|]; [|by rewrite H12 in H23|done].
  destruct H12 as [c' E]. by rewrite E in H23.
Qed.

Lemma fs_grows_frame fs fs' :
  (∀ k, fs' !! k = fs !! k ∨ (fs !! k = None ∧ fs' !! k = Some FS.Dir)) → fs_grows fs fs'.
Proof.
  intros H k. destruct (H k) as [E|[E _]]; rewrite E; [|done].
  destruct (fs !! k) as [[c|]|]; eauto.
Qed.

Lemma mkdir_parents_grows cwd fs p fs' :
  FS.mkdir_parents cwd fs p = Ok fs' → fs_grows fs fs'.
Proof. intros H. apply fs_grows_frame. by eapply mkdir_parents_frame. Qed.

Lemma write_grows cwd fs p c fs' : FS.write cwd fs p c = Ok fs' → fs_grows fs fs'.
Proof.
  intros H. apply write_spec in H as (n & _ & Hn & -> & _). intros k.
  destruct (decide (k = n)) as [->|Hne].
  - rewrite lookup_insert_eq. unfold FS.node_at in Hn. destruct n; [done|].
    destruct (fs !! (s :: n)) as [[c'|]|]; [by eexists|done|done].
  - rewrite lookup_insert_ne by done. destruct (fs !! k) as [[c'|]|]; eauto.
Qed.

Lemma copyfile_grows cwd fs p q fs' : FS.copyfile cwd fs p q = Ok fs' → fs_grows fs fs'.
Proof.
  unfold FS.copyfile. destruct (FS.samefile cwd fs p q); [discriminate|].
  intros H. apply bind_ok in H as (c & _ & H). by eapply write_grows.
Qed.

Lemma write_xml_grows cwd fs tree p fs' : write_xml cwd fs tree p = Ok fs' → fs_grows fs fs'.
Proof.
  unfold write_xml. intros H. apply bind_ok in H as (fs1 & H1 & H).
  eapply fs_grows_trans; [by eapply mkdir_parents_grows|by eapply write_grows].
Qed.

Lemma is_dir_grows fs fs' d : fs_grows fs fs' → FS.is_dir fs d = true → FS.is_dir fs' d = true.
Proof.
  intros H. unfold FS.is_dir, FS.node_at. destruct d as [|a d]; [done|].
  specialize (H (a :: d)). destruct (fs !! (a :: d)) as [[c|]|]; try discriminate.
  by rewrite H.
Qed.

Lemma walk_grows fs fs' : fs_grows fs fs' →
  ∀ l cur n, FS.walk fs cur l = Some n → FS.walk fs' cur l = Some n.
Proof.
  intros Hg. induction l as [|c l IH]; intros cur n; [done|].
  rewrite !walk_cons. destruct (FS.is_dir fs cur) eqn:E; [|discriminate].
  rewrite (is_dir_grows _ _ _ Hg E). destruct (String.eqb c ".."); apply IH.
Qed.

Lemma walked_grows fs fs' : fs_grows fs fs' →
  ∀ (rel : list string) cur, walked fs cur rel = true → walked fs' cur rel = true.
Proof.
  intros Hg. induction rel as [|c r IH]; intros cur; cbn [walked]; [done|].
  intros [Hd Hr]%andb_true_iff. rewrite (is_dir_grows _ _ _ Hg Hd). simpl.
  destruct r; [done|]. by apply IH.
Qed.

Lemma is_file_grows cwd fs fs' p : fs_grows fs fs' → is_file cwd fs p → is_file cwd fs' p.
Proof.
  intros Hg (n & c & Hr & Hn). specialize (Hg n) as Hk. rewrite Hn in Hk.
  destruct Hk as [c' Hc']. exists n, c'. split; [|done].
  unfold FS.resolve in *. by eapply walk_grows.
Qed.

Lemma write_is_file cwd fs p c fs' : FS.write cwd fs p c = Ok fs' → is_file cwd fs' p.
Proof.
  intros H. apply write_spec in H as (n & Hr & Hn & -> & _). exists n, c. split.
  - unfold FS.resolve in *.
    rewrite (walk_is_dir_ext fs (<[n := FS.File c]> fs)); [done|by apply is_dir_insert_file].
  - apply lookup_insert_eq.
Qed.

Lemma copyfile_is_file cwd fs p q fs' : FS.copyfile cwd fs p q = Ok fs' → is_file cwd fs' q.
Proof.
  unfold FS.copyfile. destruct (FS.samefile cwd fs p q); [discriminate|].
  intros H. apply bind_ok in H as (c & _ & H). by eapply write_is_file.
Qed.

Lemma state_grows_refl st : state_grows st st.
Proof. split_and!; [apply fs_grows_refl|done|done]. Qed.

Lemma state_grows_trans st1 st2 st3 :
  state_grows st1 st2 → state_grows st2 st3 → state_grows st1 st3.
Proof.
  intros (Hf & Hc & Hm) (Hf' & Hc' & Hm').
  split_and!; [by eapply fs_grows_trans|by etrans|by etrans].
Qed.

Lemma state_grows_with_fs st fs' : fs_grows (fs st) fs' → state_grows st (with_fs st fs').
Proof. intros H. by split_and!. Qed.

Lemma add_override_prefix (ct : list ct_child) (p t : string) :
  ct `prefix_of` add_content_type_override ct p t.
Proof.
  destruct (add_override_spec ct p t) as [[_ ->]|[_ ->]]; [done|by apply prefix_app_r].
Qed.

Lemma ensure_default_types_prefix (ct src ct' : list ct_child) :
  ensure_default_types_from_source ct src = Ok ct' → ct `prefix_of` ct'.
Proof.
  unfold ensure_default_types_from_source. intros H.
  apply add_missing_defaults_spec in H as (added & -> & _). by apply prefix_app_r.
Qed.

End Growth.

Section CopierShape.

Variable e : env.
Variable rec : string → state → res (string * state).

Implicit Types (p r : string) (st : state).

(** The steps of a call that copies a part. *)
Lemma copy_body_copied p st r st' :
  name_map st !! p = None →
  FS.path_exists (cwd e) (fs st) (joinpath (src_root e) p) = true →
  copy_body e rec p st = Ok (r, st') →
  ∃ fs1 new_fname fs2 ct,
    ensure_dir (cwd e) (fs st) (joinpath (dst_root e) (part_folder p)) = Ok fs1
    ∧ pick_new_filename (cwd e) fs1 (joinpath (dst_root e) (part_folder p))
        (part_folder p) (part_name p)
        (splitext (part_name p)).1 (splitext (part_name p)).2 = Ok new_fname
    ∧ r = dst_rel (part_folder p) new_fname
    ∧ FS.copyfile (cwd e) fs1 (joinpath (src_root e) p) (joinpath (dst_root e) r) = Ok fs2
    ∧ match CT_OVERRIDES (part_folder p) with
      | Some content_type =>
          Ok (add_content_type_override (ct_dst st) ("/ppt/" +:+ r) content_type)
      | None => ensure_default_types_from_source (ct_dst st) (ct_src e)
      end = Ok ct
    ∧ let st1 := {| fs := fs2; name_map := <[p := r]> (name_map st); ct_dst := ct;
                    copied := copied st ++ [(src_root e, p, r)] |} in
      (FS.path_exists (cwd e) fs2 (rels_src_path e p) = false ∧ st' = st1)
      ∨ (FS.path_exists (cwd e) fs2 (rels_src_path e p) = true
         ∧ ∃ fs3 fs4 rels_tree rels' changed st2,
             ensure_dir (cwd e) fs2 (rels_dst_folder e p) = Ok fs3
             ∧ FS.copyfile (cwd e) fs3 (rels_src_path e p) (rels_dst_path e p) = Ok fs4
             ∧ parse_xml (cwd e) fs4 (rels_dst_path e p) = Ok rels_tree
             ∧ patch_relationships e rec p (part_folder p)
                 (doc_relationships rels_tree) false (with_fs st1 fs4)
               = Ok (rels', changed, st2)
             ∧ if changed
               then ∃ fs5,
                      write_xml (cwd e) (fs st2) (set_relationships rels_tree rels')
                        (rels_dst_path e p) = Ok fs5
                      ∧ st' = with_fs st2 fs5
               else st' = st2).
Proof.
  intros Hmap Hex. unfold copy_body. rewrite Hmap, Hex. cbn [negb].
  unfold rels_src_path, rels_dst_path, rels_dst_folder, rels_name, part_name, part_folder,
    dst_rel.
  destruct (splitext (name (Path p))) as [base ext]. cbn [fst snd].
  intros H. apply bind_ok in H as (fs1 & H1 & H).
  apply bind_ok in H as (new_fname & H2 & H).
  apply bind_ok in H as (fs2 & H3 & H).
  apply bind_ok in H as (ct & H4 & H).
  exists fs1, new_fname, fs2, ct.
  destruct (FS.path_exists (cwd e) fs2 _) eqn:Hrels.
  - apply bind_ok in H as (fs3 & H5 & H).
    apply bind_ok in H as (fs4 & H6 & H).
    apply bind_ok in H as (rels_tree & H7 & H).
    apply bind_ok in H as ([[rels' changed] st2] & H8 & H).
    destruct changed.
    + apply bind_ok in H as (fs5 & H9 & H). injection H as <- <-.
      split_and!; [done..|]. right. split; [done|].
      exists fs3, fs4, rels_tree, rels', true, st2. split_and!; [done..|]. by exists fs5.
    + injection H as <- <-.
      split_and!; [done..|]. right. split; [done|].
      exists fs3, fs4, rels_tree, rels', false, st2. by split_and!.
  - injection H as <- <-. split_and!; [done..|]. by left.
Qed.

End CopierShape.

Section CopierKeeps.

Variable e : env.

Implicit Types (p r : string) (st : state).

Lemma keeps_refl st : keeps e st st.
Proof. split_and!; [apply state_grows_refl|done|done]. Qed.

Lemma keeps_trans st1 st2 st3 : keeps e st1 st2 → keeps e st2 st3 → keeps e st1 st3.
Proof.
  intros (H1 & H2 & H3) (H4 & H5 & H6).
  split_and!; [by eapply state_grows_trans|auto|auto].
Qed.

Lemma trace_files_grows (fs fs' : FS.t) log :
  fs_grows fs fs' → trace_files (cwd e) (dst_root e) fs log →
  trace_files (cwd e) (dst_root e) fs' log.
Proof. intros Hg H ev Hev. eapply is_file_grows; [exact Hg|]. by apply H. Qed.

Lemma map_files_with_fs st fs' :
  fs_grows (fs st) fs' → map_files e st → map_files e (with_fs st fs').
Proof. intros Hg H k d Hk. eapply is_file_grows; [exact Hg|]. by eapply H. Qed.

Lemma keeps_with_fs st fs' : fs_grows (fs st) fs' → keeps e st (with_fs st fs').
Proof.
  intros H. split_and!; [by apply state_grows_with_fs|by apply map_files_with_fs|].
  by apply trace_files_grows.
Qed.

Section Step.

Variable rec : string → state → res (string * state).
Hypothesis Hrec : ∀ p st r st', rec p st = Ok (r, st') → keeps e st st'.

Lemma patch_relationships_keeps (part_rel folder : string) :
  ∀ rels changed st rels' changed' st',
    patch_relationships e rec part_rel folder rels changed st = Ok (rels', changed', st') →
    keeps e st st'.
Proof.
  induction rels as [|rel rels IH]; intros changed st rels' changed' st';
    cbn [patch_relationships].
  - intros [= _ _ <-]. apply keeps_refl.
  - destruct (rel_target rel) as [target|].
    + destruct (truthy (Some target) && startswith "../" target).
      * intros H. apply bind_ok in H as ([d st1] & H1 & H).
        apply bind_ok in H as (rp & _ & H).
        apply bind_ok in H as ([[rest' ch] st2] & H2 & H). injection H as _ _ <-.
        eapply keeps_trans; [by eapply Hrec|by eapply IH].
      * intros H. apply bind_ok in H as ([[rest' ch] st2] & H2 & H). injection H as _ _ <-.
        by eapply IH.
    + intros H. apply bind_ok in H as ([[rest' ch] st2] & H2 & H). injection H as _ _ <-.
      by eapply IH.
Qed.

(** A call that copies a part: the state [st1] right after the part copy
    and what is kept on both sides of it. *)
Lemma copy_body_split p st r st' :
  name_map st !! p = None →
  FS.path_exists (cwd e) (fs st) (joinpath (src_root e) p) = true →
  copy_body e rec p st = Ok (r, st') →
  ∃ new_fname st1,
    r = dst_rel (part_folder p) new_fname
    ∧ name_map st1 = <[p := r]> (name_map st)
    ∧ match CT_OVERRIDES (part_folder p) with
      | Some content_type =>
          Ok (add_content_type_override (ct_dst st) ("/ppt/" +:+ r) content_type)
      | None => ensure_default_types_from_source (ct_dst st) (ct_src e)
      end = Ok (ct_dst st1)
    ∧ is_file (cwd e) (fs st1) (joinpath (dst_root e) r)
    ∧ keeps e st st1 ∧ keeps e st1 st'
    ∧ (FS.path_exists (cwd e) (fs st1) (rels_src_path e p) = true →
       ∃ fs4, is_file (cwd e) fs4 (rels_dst_path e p) ∧ fs_grows fs4 (fs st')).
Proof.
  intros Hmap Hex H.
  apply copy_body_copied in H as (fs1 & new_fname & fs2 & ct & H1 & _ & Hr & H3 & H4 & H);
    [|done..].
  assert (fs_grows (fs st) fs2) as Hfs2.
  { eapply fs_grows_trans; [by eapply mkdir_parents_grows|by eapply copyfile_grows]. }
  assert (ct_dst st `prefix_of` ct) as Hct.
  { destruct (CT_OVERRIDES (part_folder p)).
    - injection H4 as <-. apply add_override_prefix.
    - by eapply ensure_default_types_prefix. }
  set (st1 := {| fs := fs2; name_map := <[p := r]> (name_map st); ct_dst := ct;
                 copied := copied st ++ [(src_root e, p, r)] |}) in *.
  exists new_fname, st1.
  assert (is_file (cwd e) fs2 (joinpath (dst_root e) r)) as Hfile
    by (by eapply copyfile_is_file).
  assert (keeps e st st1) as K1.
  { split_and!.
    - split_and!; [done|done|by apply insert_subseteq].
    - intros Hm k d. cbn [name_map fs st1]. intros Hk.
      destruct (decide (k = p)) as [->|Hne].
      + rewrite lookup_insert_eq in Hk. by injection Hk as <-.
      + rewrite lookup_insert_ne in Hk by done. eapply is_file_grows; [exact Hfs2|].
        by eapply Hm.
    - intros Ht ev. cbn [copied fs st1].
      intros [Hev| ->%list_elem_of_singleton]%elem_of_app; [|done].
      eapply is_file_grows; [exact Hfs2|]. by apply Ht. }
  split_and!; [done|done|done|done|done|..].
  - cbv zeta in H. destruct H as [[_ ->]|(_ & fs3 & fs4 & rels_tree & rels' & changed & st2
                                           & H5 & H6 & _ & H8 & H)]; [apply keeps_refl|].
    assert (keeps e st1 st2) as K2.
    { eapply keeps_trans; [|by eapply patch_relationships_keeps].
      apply keeps_with_fs. cbn [fs st1].
      eapply fs_grows_trans; [by eapply mkdir_parents_grows|by eapply copyfile_grows]. }
    destruct changed.
    + destruct H as (fs5 & H9 & ->). eapply keeps_trans; [exact K2|].
      apply keeps_with_fs. by eapply write_xml_grows.
    + by subst st'.
  - cbn [fs st1]. intros Hrels. cbv zeta in H.
    destruct H as [[E _]|(_ & fs3 & fs4 & rels_tree & rels' & changed & st2
                          & H5 & H6 & _ & H8 & H)]; [congruence|].
    exists fs4. split; [by eapply copyfile_is_file|].
    apply patch_relationships_keeps in H8 as [(Hg & _) _]. cbn [fs with_fs] in Hg.
    destruct changed.
    + destruct H as (fs5 & H9 & ->). cbn [fs with_fs].
      eapply fs_grows_trans; [exact Hg|by eapply write_xml_grows].
    + by subst st'.
Qed.

Lemma copy_body_keeps p st r st' : copy_body e rec p st = Ok (r, st') → keeps e st st'.
Proof.
  intros H.
  destruct (name_map st !! p) as [d|] eqn:Hmap.
  { unfold copy_body in H. rewrite Hmap in H. injection H as _ <-. apply keeps_refl. }
  destruct (FS.path_exists (cwd e) (fs st) (joinpath (src_root e) p)) eqn:Hex.
  2:{ unfold copy_body in H. rewrite Hmap, Hex in H. injection H as _ <-. apply keeps_refl. }
  apply copy_body_split in H as (new_fname & st1 & _ & _ & _ & _ & K1 & K2 & _); [|done..].
  by eapply keeps_trans.
Qed.

End Step.

Lemma copy_keeps (fuel : nat) :
  ∀ p st r st', copy_part_with_dependencies fuel e p st = Ok (r, st') → keeps e st st'.
Proof.
  induction fuel as [|fuel IH]; intros p st r st'; simpl; [discriminate|].
  by apply copy_body_keeps.
Qed.

Lemma path_exists_grows (c : list string) (fs fs' : FS.t) (q : path) :
  fs_grows fs fs' → FS.path_exists c fs q = true → FS.path_exists c fs' q = true.
Proof.
  intros Hg. unfold FS.path_exists, FS.stat, FS.resolve.
  destruct (FS.walk fs _ _) as [n|] eqn:E; [|discriminate].
  rewrite (walk_grows _ _ Hg _ _ _ E). unfold FS.node_at. destruct n as [|a n]; [done|].
  specialize (Hg (a :: n)). destruct (fs !! (a :: n)) as [[x|]|]; [|by rewrite Hg|done].
  destruct Hg as [c' ->]. done.
Qed.

End CopierKeeps.

(** X11.  The copier takes nothing away: when a call returns, every directory
    is still a directory, every file is still a file (its bytes may have
    been replaced), the children the destination manifest had are still
    its first children, in place, and the name map has its former
    entries. *)
Theorem copier_never_removes
    (fuel : nat) (e : env) (part_rel : string) (st : state) (r : string) (st' : state) :
  copy_part_with_dependencies fuel e part_rel st = Ok (r, st') →
  (∀ k, fs st !! k = Some FS.Dir → fs st' !! k = Some FS.Dir)
  ∧ (∀ k c, fs st !! k = Some (FS.File c) → ∃ c', fs st' !! k = Some (FS.File c'))
  ∧ ct_dst st `prefix_of` ct_dst st'
  ∧ name_map st ⊆ name_map st'.
Proof.
  intros H. apply copy_keeps in H as [(Hfs & Hct & Hm) _]. split_and!; [| |done|done].
  - intros k Hk. specialize (Hfs k). by rewrite Hk in Hfs.
  - intros k c Hk. specialize (Hfs k). by rewrite Hk in Hfs.
Qed.


(** X13.  Patching a relationships part changes targets only: the list keeps
    its length and order, every relationship keeps its [Id] and [Type],
    a relationship without an internal target (one that starts with
    [../]) is left as it is, and a patched target starts with [../]
    again.  The part is marked as changed exactly when it had an internal
    target. *)
Theorem patch_relationships_shape
    (e : env) (rec : string → state → res (string * state))
    (part_rel folder : string) (rels : list relationship) (changed : bool) (st : state)
    (rels' : list relationship) (changed' : bool) (st' : state) :
  patch_relationships e rec part_rel folder rels changed st = Ok (rels', changed', st') →
  Forall2 (λ rel rel',
             rel_id rel' = rel_id rel ∧ rel_type rel' = rel_type rel
             ∧ if is_internal rel
               then ∃ t, rel_target rel' = Some t ∧ startswith "../" t = true
               else rel' = rel) rels rels'
  ∧ changed' = changed || existsb is_internal rels.
Proof.
  revert changed st rels' changed' st'.
  induction rels as [|rel rels IH]; intros changed st rels' changed' st';
    cbn [patch_relationships].
  - intros [= <- <- _]. split; [constructor|by rewrite orb_false_r].
  - cbn [existsb]. destruct (rel_target rel) as [target|] eqn:Et.
    + assert (is_internal rel = truthy (Some target) && startswith "../" target) as Ei
        by (unfold is_internal; by rewrite Et).
      rewrite Ei. destruct (truthy (Some target) && startswith "../" target).
      * intros H. apply bind_ok in H as ([d st1] & H1 & H).
        apply bind_ok in H as (rp & _ & H).
        apply bind_ok in H as ([[rest' ch] st2] & H2 & H). injection H as <- <- _.
        apply IH in H2 as [Hf ->]. split; [|by rewrite orb_true_r].
        constructor; [|done]. rewrite Ei. split_and!; [done|done|].
        eexists. split; [reflexivity|].
        destruct (startswith "../" (replace_backslash rp)) eqn:E; [done|].
        apply startswith_app.
      * intros H. apply bind_ok in H as ([[rest' ch] st2] & H2 & H). injection H as <- <- _.
        apply IH in H2 as [Hf ->]. split; [|done]. constructor; [|done].
        rewrite Ei. by split_and!.
    + assert (is_internal rel = false) as Ei by (unfold is_internal; by rewrite Et).
      rewrite Ei.
      intros H. apply bind_ok in H as ([[rest' ch] st2] & H2 & H). injection H as <- <- _.
      apply IH in H2 as [Hf ->]. split; [|done]. constructor; [|done].
      rewrite Ei. by split_and!.
Qed.

(** X14.  A copied part of a kind with a registered content type has an
    [Override] in the destination manifest when the call returns, under
    the part name [/ppt/] followed by the destination path. *)
Theorem copied_part_is_registered
    (fuel : nat) (e : env) (part_rel : string) (st : state) (r : string) (st' : state)
    (content_type : string) :
  name_map st !! part_rel = None →
  FS.path_exists (cwd e) (fs st) (joinpath (src_root e) part_rel) = true →
  CT_OVERRIDES (part_folder part_rel) = Some content_type →
  copy_part_with_dependencies fuel e part_rel st = Ok (r, st') →
  ("/ppt/" +:+ r) ∈ omap override_name (ct_dst st').
Proof.
  intros Hmap Hex Hct H. destruct fuel as [|fuel]; [discriminate|].
  cbn [copy_part_with_dependencies] in H.
  apply copy_body_split in H
    as (new_fname & st1 & _ & _ & Hct1 & _ & _ & [(_ & [l Hl] & _) _] & _);
    [|apply copy_keeps|done..].
  rewrite Hct in Hct1. injection Hct1 as Hct1.
  rewrite Hl, omap_app, <- Hct1. apply elem_of_app. left. apply add_override_names.
Qed.

(** X15.  The relationships part of a copied part is stored under the source
    part's file name, [folder/_rels/<source name>.rels], also when the
    part itself was stored under a new name: when the call returns, that
    path is a file of the destination tree. *)
Theorem copied_rels_under_source_name
    (fuel : nat) (e : env) (part_rel : string) (st : state) (r : string) (st' : state) :
  name_map st !! part_rel = None →
  FS.path_exists (cwd e) (fs st) (joinpath (src_root e) part_rel) = true →
  FS.path_exists (cwd e) (fs st) (rels_src_path e part_rel) = true →
  copy_part_with_dependencies fuel e part_rel st = Ok (r, st') →
  (∃ new_fname, r = dst_rel (part_folder part_rel) new_fname)
  ∧ is_file (cwd e) (fs st') (rels_dst_path e part_rel).
Proof.
  intros Hmap Hex Hrels H. destruct fuel as [|fuel]; [discriminate|].
  cbn [copy_part_with_dependencies] in H.
  apply copy_body_split in H
    as (new_fname & st1 & Hr & _ & _ & _ & [(Hg & _) _] & _ & Hrel);
    [|apply copy_keeps|done..].
  split; [by exists new_fname|].
  destruct Hrel as (fs4 & Hf & Hg4); [by eapply path_exists_grows|].
  by eapply is_file_grows.
Qed.

Section CopierWitnesses.

Import Examples.

Lemma copy_slide2_returns :
  ∃ r st', copy_part_with_dependencies 5 (env0 deck_b) "slides/slide2.xml" (state0 deck_b)
           = Ok (r, st').
Proof.
  destruct (observe_unit (copy_part_with_dependencies 5 (env0 deck_b) "slides/slide2.xml"
                            (state0 deck_b))) as [[r st'] E]; [vm_compute; reflexivity|].
  by exists r, st'.
Qed.

Lemma slide2_found :
  name_map (state0 deck_b) !! "slides/slide2.xml" = None
  ∧ FS.path_exists (cwd (env0 deck_b)) (fs (state0 deck_b))
      (joinpath (src_root (env0 deck_b)) "slides/slide2.xml") = true
  ∧ FS.path_exists (cwd (env0 deck_b)) (fs (state0 deck_b))
      (rels_src_path (env0 deck_b) "slides/slide2.xml") = true
  ∧ CT_OVERRIDES (part_folder "slides/slide2.xml")
    = Some "application/vnd.openxmlformats-officedocument.presentationml.slide+xml".
Proof. split_and!; vm_compute; reflexivity. Qed.

End CopierWitnesses.

Lemma copier_never_removes_witness :
  ∃ r st',
    copy_part_with_dependencies 5 (Examples.env0 Examples.deck_b) "slides/slide2.xml"
      (Examples.state0 Examples.deck_b) = Ok (r, st')
    ∧ ct_dst (Examples.state0 Examples.deck_b) `prefix_of` ct_dst st'
    ∧ name_map (Examples.state0 Examples.deck_b) ⊆ name_map st'.
Proof.
  destruct copy_slide2_returns as (r & st' & E). exists r, st'. split; [exact E|].
  destruct (copier_never_removes _ _ _ _ _ _ E) as (_ & _ & H1 & H2).
  split; [exact H1|exact H2].
Defined.


Lemma patch_relationships_shape_witness :
  ∃ rels',
    Forall2 (λ rel rel',
               rel_id rel' = rel_id rel ∧ rel_type rel' = rel_type rel
               ∧ if is_internal rel
                 then ∃ t, rel_target rel' = Some t ∧ startswith "../" t = true
                 else rel' = rel)
      [Examples.dep_rel "rId1" "../media/image1.png";
       Examples.dep_rel "rId2" "http://example.org/"] rels'.
Proof.
  eexists.
  refine (proj1 (patch_relationships_shape (Examples.env0 Examples.deck_b)
                   (λ p st, Ok (p, st)) "slides/slide2.xml" "slides"
                   [Examples.dep_rel "rId1" "../media/image1.png";
                    Examples.dep_rel "rId2" "http://example.org/"]
                   false (Examples.state0 Examples.deck_b) _ _ _ _)).
  cbn [patch_relationships Examples.dep_rel rel_target]. reflexivity.
Defined.

Lemma copied_part_is_registered_witness :
  ∃ r st',
    copy_part_with_dependencies 5 (Examples.env0 Examples.deck_b) "slides/slide2.xml"
      (Examples.state0 Examples.deck_b) = Ok (r, st')
    ∧ ("/ppt/" +:+ r) ∈ omap override_name (ct_dst st').
Proof.
  destruct copy_slide2_returns as (r & st' & E). exists r, st'. split; [exact E|].
  destruct slide2_found as (H1 & H2 & _ & H4).
  exact (copied_part_is_registered _ _ _ _ _ _ _ H1 H2 H4 E).
Defined.

Lemma copied_rels_under_source_name_witness :
  ∃ r st',
    copy_part_with_dependencies 5 (Examples.env0 Examples.deck_b) "slides/slide2.xml"
      (Examples.state0 Examples.deck_b) = Ok (r, st')
    ∧ is_file (cwd (Examples.env0 Examples.deck_b)) (fs st')
        (rels_dst_path (Examples.env0 Examples.deck_b) "slides/slide2.xml").
Proof.
  destruct copy_slide2_returns as (r & st' & E). exists r, st'. split; [exact E|].
  destruct slide2_found as (H1 & H2 & H3 & _).
  exact (proj2 (copied_rels_under_source_name _ _ _ _ _ _ H1 H2 H3 E)).
Defined.

(* ===================================================================== *)
(** * What a merge keeps *)
(* ===================================================================== *)

Section MergeKeeps.

Implicit Types (ms : merge_state) (rels : list relationship) (ct : list ct_child).

(** One turn of the loop over the source's slide list, step by step. *)
Lemma merge_slide_cases (fuel : nat) (e : env)
    (targets : gmap (option string) (option string)) ms (sld : sldId) ms' :
  merge_slide fuel e targets (Ok ms) sld = Ok ms' →
  (resolves targets sld = false ∧ ms' = ms)
  ∨ (resolves targets sld = true
     ∧ ∃ d st,
         copy_part_with_dependencies fuel e
           (normalize_target (default "" (mjoin (targets !! sld_rid sld)))) (m_st ms)
         = Ok (d, st)
         ∧ m_pres_rels ms'
           = m_pres_rels ms ++ [MkRel (Some (next_rel_id (m_pres_rels ms)))
                                      (Some slide_rel_type) (Some d)]
         ∧ m_sldIdLst ms'
           = m_sldIdLst ms ++ [MkSld (Some (str (m_max_sld_id ms + 1)))
                                     (Some (next_rel_id (m_pres_rels ms)))]
         ∧ ensure_default_types_from_source
             (add_content_type_override (ct_dst st) ("/ppt/" +:+ d) slides_content_type)
             (ct_src e) = Ok (ct_dst (m_st ms'))
         ∧ fs (m_st ms') = fs st
         ∧ name_map (m_st ms') = name_map st
         ∧ copied (m_st ms') = copied st).
Proof.
  unfold merge_slide, resolves. cbn [mbind res_bind bind].
  destruct (truthy (mjoin (targets !! sld_rid sld))); cbn [negb].
  { intros H. right. split; [done|].
    apply bind_ok in H as ([d st] & Hcopy & H).
    apply bind_ok in H as (ct' & Hct & H). injection H as <-.
    exists d, st. by split_and!. }
  intros [= <-]. by left.
Qed.

Lemma omap_prefix {A B} (f : A → option B) (l l' : list A) (x : B) :
  l `prefix_of` l' → x ∈ omap f l → x ∈ omap f l'.
Proof. intros [k ->] H. rewrite omap_app. apply elem_of_app. by left. Qed.

Section Loops.

Variables (base_rels : list relationship) (base_ct : list ct_child).

Lemma merge_slide_inv (fuel : nat) (e : env)
    (targets : gmap (option string) (option string)) ms (sld : sldId) ms' :
  merge_inv base_rels base_ct ms →
  merge_slide fuel e targets (Ok ms) sld = Ok ms' →
  merge_inv base_rels base_ct ms'.
Proof.
  intros (Hpre & Hnd & Hct & Hreg) H.
  apply merge_slide_cases in H as [[_ ->]|(_ & d & st & Hcopy & Hrels & _ & Hct' & _)];
    [done|].
  apply copy_keeps in Hcopy as [(_ & Hgrow & _) _].
  apply ensure_default_types_prefix in Hct'.
  pose proof (add_override_prefix (ct_dst st) ("/ppt/" +:+ d) slides_content_type) as Hadd.
  assert (ct_dst (m_st ms) `prefix_of` ct_dst (m_st ms')) as Hmono
    by (etrans; [exact Hgrow|]; by etrans).
  unfold merge_inv. rewrite Hrels. split_and!.
  - by apply prefix_app_r.
  - intros H. rewrite map_app. apply NoDup_app. split_and!; [by apply Hnd| |apply NoDup_singleton].
    intros x Hx ->%list_elem_of_singleton. cbn [rel_id] in Hx.
    apply list_elem_of_fmap in Hx as (rel & Hid & Hrel).
    by apply (next_rel_id_not_among _ _ Hrel).
  - by etrans.
  - intros r Hr. destruct Hpre as [k Hk].
    rewrite drop_app_le in Hr by (rewrite Hk, length_app; lia).
    apply elem_of_app in Hr as [Hr| ->%list_elem_of_singleton].
    + destruct (Hreg _ Hr) as (d' & Ht & Hd'). exists d'. split; [done|].
      by eapply omap_prefix.
    + exists d. split; [done|]. eapply omap_prefix; [exact Hct'|]. apply add_override_names.
Qed.

Lemma merge_slides_inv (fuel : nat) (e : env)
    (targets : gmap (option string) (option string)) (slds : list sldId) :
  ∀ ms ms', merge_inv base_rels base_ct ms →
    fold_left (merge_slide fuel e targets) slds (Ok ms) = Ok ms' →
    merge_inv base_rels base_ct ms'.
Proof.
  induction slds as [|sld slds IH]; intros ms ms' Hinv; simpl.
  - by intros [= <-].
  - intros H.
    destruct (fold_res_ok _ (merge_slide_strict fuel e targets) _ _ _ H) as [ms1 H1].
    rewrite H1 in H. eapply IH; [|exact H]. by eapply merge_slide_inv.
Qed.

Lemma merge_source_inv (fuel : nat) (cwd : list string) (workdir : path)
    ms (pkg : package) ms' :
  merge_inv base_rels base_ct ms →
  merge_source fuel cwd workdir (Ok ms) pkg = Ok ms' →
  merge_inv base_rels base_ct ms'.
Proof.
  intros Hinv. unfold merge_source. cbn [mbind res_bind bind].
  intros H. apply bind_ok in H as (fs1 & _ & H).
  apply bind_ok in H as (ct_src_tree & _ & H).
  apply bind_ok in H as (t & _ & H).
  apply bind_ok in H as (src_rels & _ & H).
  destruct (doc_sldIdLst t) as [slds|].
  - eapply merge_slides_inv; [|exact H]. exact Hinv.
  - injection H as <-. exact Hinv.
Qed.

Lemma merge_sources_inv (fuel : nat) (cwd : list string) (workdir : path)
    (extras : list package) :
  ∀ ms ms', merge_inv base_rels base_ct ms →
    fold_left (merge_source fuel cwd workdir) extras (Ok ms) = Ok ms' →
    merge_inv base_rels base_ct ms'.
Proof.
  induction extras as [|pkg extras IH]; intros ms ms' Hinv; simpl.
  - by intros [= <-].
  - intros H.
    destruct (fold_res_ok _ (merge_source_strict fuel cwd workdir) _ _ _ H) as [ms1 H1].
    rewrite H1 in H. eapply IH; [|exact H]. by eapply merge_source_inv.
Qed.

End Loops.

(** The invariant at the end of a merge, over the base's own documents. *)
Lemma merge_presentations_inv (fuel : nat) (cwd : list string) (workdir : path)
    (fs0 : FS.t) (base : package) (extras : list package) (out : merged) :
  is_absolute workdir = true → has_manifests base →
  merge_presentations fuel cwd workdir fs0 (base :: extras) = Ok out →
  ∃ ms,
    merge_inv (doc_relationships (pk_document base presentation_rels_parts))
              (doc_types (pk_document base content_types_parts)) ms
    ∧ doc_relationships (out_presentation_rels out) = m_pres_rels ms
    ∧ doc_types (out_content_types out) = ct_dst (m_st ms).
Proof.
  intros Habs (pres & rels & ct & Hpres & Hrels & Hct). unfold merge_presentations.
  set (base_dir := joinpath workdir "base").
  assert (is_absolute base_dir = true) as Hbabs by (by apply dir_absolute).
  destruct (manifest_paths base_dir) as (-> & -> & ->).
  intros H. apply bind_ok in H as (fs1 & Hx & H).
  apply bind_ok in H as (pres_tree & Hp1 & H).
  apply bind_ok in H as (rels_tree & Hp2 & H).
  apply bind_ok in H as (ct_tree & Hp3 & H).
  apply bind_ok in H as (ms & Hloop & H).
  apply bind_ok in H as (fs2 & _ & H).
  apply bind_ok in H as (fs3 & _ & H).
  apply bind_ok in H as (fs4 & _ & H).
  apply bind_ok in H as (archive & _ & H). injection H as <-. cbn.
  destruct (parse_extracted _ _ _ _ _ _ _ _ Hbabs Hx Hrels Hp2) as [-> Erels].
  destruct (parse_extracted _ _ _ _ _ _ _ _ Hbabs Hx Hct Hp3) as [-> Ect].
  exists ms. split; [|done]. rewrite Erels, Ect.
  eapply merge_sources_inv; [|exact Hloop].
  split_and!; cbn; [done|done|done|].
  intros r Hr. rewrite drop_all in Hr. by apply elem_of_nil in Hr.
Qed.

End MergeKeeps.

(** X16.  A merge leaves the base's relationships as they are, first and in
    place, and appends one relationship of slide type, with an id and a
    target, for every slide it imports. *)
Theorem merged_relationships_kept
    (fuel : nat) (cwd : list string) (workdir : path) (fs0 : FS.t)
    (base : package) (extras : list package) (out : merged) :
  is_absolute workdir = true →
  has_manifests base → Forall has_manifests extras →
  merge_presentations fuel cwd workdir fs0 (base :: extras) = Ok out →
  ∃ added,
    doc_relationships (out_presentation_rels out)
    = doc_relationships (pk_document base presentation_rels_parts) ++ added
    ∧ length added = length (all_imported extras)
    ∧ Forall (λ r, rel_type r = Some slide_rel_type
                   ∧ is_Some (rel_id r) ∧ is_Some (rel_target r)) added.
Proof.
  intros Habs Hb He H.
  destruct (merge_presentations_spec _ _ _ Habs _ _ _ _ Hb He H)
    as (imports & _ & Hr & Hok & Hf).
  exists (map imp_rel imports). split_and!; [done| |].
  - rewrite length_map. symmetry. by eapply Forall2_length.
  - apply Forall_forall. intros r Hin. apply list_elem_of_fmap in Hin as (imp & -> & Hin).
    apply list_elem_of_lookup in Hin as [k Hk].
    destruct (Hok _ _ Hk) as (rid & d & _ & -> & _). by split_and!.
Qed.

(** X17.  A merge never gives two relationships the same id: when the ids of
    the base's relationships are pairwise distinct, so are the ids of the
    merged presentation's relationships. *)
Theorem merged_relationship_ids_distinct
    (fuel : nat) (cwd : list string) (workdir : path) (fs0 : FS.t)
    (base : package) (extras : list package) (out : merged) :
  is_absolute workdir = true → has_manifests base →
  NoDup (map rel_id (doc_relationships (pk_document base presentation_rels_parts))) →
  merge_presentations fuel cwd workdir fs0 (base :: extras) = Ok out →
  NoDup (map rel_id (doc_relationships (out_presentation_rels out))).
Proof.
  intros Habs Hb Hnd H.
  destruct (merge_presentations_inv _ _ _ _ _ _ _ Habs Hb H) as (ms & (_ & Hn & _) & -> & _).
  by apply Hn.
Qed.

(** X18.  A merge keeps the base manifest's children as they are, first and in
    place, and the merged manifest has an [Override] for the target of
    every slide relationship the merge appended. *)
Theorem merged_manifest_registers_slides
    (fuel : nat) (cwd : list string) (workdir : path) (fs0 : FS.t)
    (base : package) (extras : list package) (out : merged) :
  is_absolute workdir = true → has_manifests base →
  merge_presentations fuel cwd workdir fs0 (base :: extras) = Ok out →
  doc_types (pk_document base content_types_parts)
    `prefix_of` doc_types (out_content_types out)
  ∧ ∀ r, r ∈ drop (length (doc_relationships (pk_document base presentation_rels_parts)))
                  (doc_relationships (out_presentation_rels out)) →
         ∃ d, rel_target r = Some d
              ∧ ("/ppt/" +:+ d) ∈ omap override_name (doc_types (out_content_types out)).
Proof.
  intros Habs Hb H.
  destruct (merge_presentations_inv _ _ _ _ _ _ _ Habs Hb H)
    as (ms & (_ & _ & Hct & Hreg) & -> & ->).
  split; [exact Hct|exact Hreg].
Qed.

Section SingleDeck.

Implicit Types (cwd n k : list string) (fs : FS.t) (p : path).

Lemma file_frame fs fs' n k (c : content) :
  (∀ k, k ≠ n → fs' !! k = fs !! k ∨ (fs !! k = None ∧ fs' !! k = Some FS.Dir)) →
  k ≠ n → fs' !! k = Some (FS.File c) ↔ fs !! k = Some (FS.File c).
Proof.
  intros H Hk. destruct (H k Hk) as [->|[-> ->]]; [done|]. split; discriminate.
Qed.

(** Saving a document at a path of ordinary names below an absolute
    directory. *)
Lemma write_xml_at cwd fs fs' (tree : document) (root : string) (l : list string) :
  negb (String.eqb root "") = true →
  Forall (λ x, valid_member_part x = true) l →
  write_xml cwd fs tree {| p_root := root; p_parts := l |} = Ok fs' →
  FS.walk fs' [] l = Some l
  ∧ ∀ k c, fs' !! k = Some (FS.File c) ↔
      (k = l ∧ c = Xml tree) ∨ (k ≠ l ∧ fs !! k = Some (FS.File c)).
Proof.
  intros Hroot Hl H. apply write_xml_frame_aux in H as (n & Hn & Hf & Hframe).
  unfold FS.resolve, is_absolute in Hn. cbn [p_root p_parts] in Hn. rewrite Hroot in Hn.
  pose proof (walk_plain_list _ _ Hl _ _ Hn) as E. cbn in E. subst n.
  split; [done|]. intros k c. destruct (decide (k = l)) as [->|Hne].
  - rewrite Hf. split.
    + intros [= <-]. by left.
    + intros [[_ ->]|[? _]]; done.
  - rewrite (file_frame _ _ _ _ _ Hframe Hne). split; [by right|].
    by intros [[? _]|[_ ?]].
Qed.

Lemma set_relationships_same (d : document) : set_relationships d (doc_relationships d) = d.
Proof. by destruct d. Qed.

Lemma set_types_same (d : document) : set_types d (doc_types d) = d.
Proof. by destruct d. Qed.

End SingleDeck.

(** X19.  Merging a single deck gives the deck back.  The relationships and
    the manifest are saved as the documents they were, and the
    presentation document gets an empty slide list if it had none.  When
    no member name of the deck holds a backslash, the archive written has
    one member for each path under which the deck stores a file, named by
    the path, and no other member: the three manifests hold the documents
    that were saved, every other member holds what the deck stores under
    its path. *)
Theorem merge_single_deck
    (fuel : nat) (cwd : list string) (workdir : path) (fs0 : FS.t)
    (base : package) (out : merged) :
  is_absolute workdir = true → ordinary workdir →
  vacant fs0 (p_parts workdir ++ ["base"]) →
  has_manifests base →
  Forall (λ m, mem_char "\" m.1 = false) (pk_members base) →
  merge_presentations fuel cwd workdir fs0 [base] = Ok out →
  out_presentation out
  = set_sldIdLst (pk_document base presentation_parts) (pk_slides base)
  ∧ out_presentation_rels out = pk_document base presentation_rels_parts
  ∧ out_content_types out = pk_document base content_types_parts
  ∧ ∀ nm c, (nm, c) ∈ out_archive out ↔
      (nm = "ppt/presentation.xml" ∧ c = Xml (out_presentation out))
      ∨ (nm = "ppt/_rels/presentation.xml.rels" ∧ c = Xml (out_presentation_rels out))
      ∨ (nm = "[Content_Types].xml" ∧ c = Xml (out_content_types out))
      ∨ ∃ rel, rel ≠ presentation_parts ∧ rel ≠ presentation_rels_parts
               ∧ rel ≠ content_types_parts
               ∧ nm = join_with "/" rel ∧ pk_file base rel = Some c.
Proof.
  intros Habs Hord Hvac (pres & rels & ct & Hpres & Hrels & Hct) Hnames.
  unfold merge_presentations.
  destruct plain_literals as (_ & _ & _ & _ & _ & Hbase).
  rewrite (joinpath_plain workdir "base" Hbase).
  set (base_dir := {| p_root := p_root workdir; p_parts := p_parts workdir ++ ["base"] |}).
  assert (is_absolute base_dir = true) as Hbabs by exact Habs.
  assert (ordinary base_dir) as Hbord.
  { apply Forall_app. split; [exact Hord|by repeat constructor]. }
  destruct (manifest_paths base_dir) as (-> & -> & ->).
  intros H. apply bind_ok in H as (fs1 & Hx & H).
  apply bind_ok in H as (pres_tree & Hp1 & H).
  apply bind_ok in H as (rels_tree & Hp2 & H).
  apply bind_ok in H as (ct_tree & Hp3 & H).
  cbn [fold_left mbind res_bind bind m_sldIdLst m_pres_rels m_st ct_dst fs] in H.
  apply bind_ok in H as (fs2 & Hw2 & H).
  apply bind_ok in H as (fs3 & Hw3 & H).
  apply bind_ok in H as (fs4 & Hw4 & H).
  apply bind_ok in H as (archive & Hzip & H). injection H as <-.
  cbn [out_presentation out_presentation_rels out_content_types out_archive].
  destruct (parse_extracted _ _ _ _ _ _ _ _ Hbabs Hx Hpres Hp1) as [-> Epres].
  destruct (parse_extracted _ _ _ _ _ _ _ _ Hbabs Hx Hrels Hp2) as [-> Erels].
  destruct (parse_extracted _ _ _ _ _ _ _ _ Hbabs Hx Hct Hp3) as [-> Ect].
  rewrite set_relationships_same, set_types_same in *.
  unfold pk_slides. rewrite Epres, Erels, Ect.
  split_and!; [done|done|done|].
  assert (negb (String.eqb (p_root base_dir) "") = true) as Hroot by exact Habs.
  assert (∀ l, Forall (λ x, valid_member_part x = true) l →
            Forall (λ x, valid_member_part x = true) (p_parts base_dir ++ l)) as Hval
    by (intros l Hl; apply Forall_app; by split).
  pose proof (write_xml_grows _ _ _ _ _ Hw2) as Hg2.
  pose proof (write_xml_grows _ _ _ _ _ Hw3) as Hg3.
  pose proof (write_xml_grows _ _ _ _ _ Hw4) as Hg4.
  apply write_xml_at in Hw2 as [_ Hf2]; [|done|apply Hval; by repeat constructor].
  apply write_xml_at in Hw3 as [_ Hf3]; [|done|apply Hval; by repeat constructor].
  apply write_xml_at in Hw4 as [Hwalk Hf4]; [|done|apply Hval; by repeat constructor].
  assert (FS.resolve cwd fs4 base_dir = Some (p_parts base_dir) ∧
          FS.is_dir fs4 (p_parts base_dir) = true) as [Hres Hisdir].
  { unfold FS.resolve. rewrite Hbabs. rewrite walk_app in Hwalk.
    destruct (FS.walk fs4 [] (p_parts base_dir)) as [d|] eqn:Ed; [|discriminate].
    pose proof (walk_plain_list _ _ Hbord _ _ Ed) as E. cbn [app] in E. subst d.
    split; [done|]. unfold content_types_parts in Hwalk. cbn [FS.walk] in Hwalk.
    destruct (FS.is_dir fs4 (p_parts base_dir)) eqn:Ei; [done|discriminate]. }
  pose proof (extracted_files cwd fs0 fs1 base base_dir Hbabs Hbord Hvac Hx) as Hf1.
  assert (∀ rel c, fs4 !! (p_parts base_dir ++ rel) = Some (FS.File c) ↔
            (rel = content_types_parts ∧ c = Xml ct)
            ∨ (rel = presentation_rels_parts ∧ c = Xml rels)
            ∨ (rel = presentation_parts
               ∧ c = Xml (set_sldIdLst pres (default [] (doc_sldIdLst pres))))
            ∨ (rel ≠ presentation_parts ∧ rel ≠ presentation_rels_parts
               ∧ rel ≠ content_types_parts ∧ pk_file base rel = Some c)) as Hfiles.
  { intros rel c. rewrite Hf4, Hf3, Hf2, Hf1. split.
    - intros [[E ->]|[Hn4 [[E ->]|[Hn3 [[E ->]|[Hn2 H]]]]]].
      + apply app_inv_head in E as ->. by left.
      + apply app_inv_head in E as ->. right. by left.
      + apply app_inv_head in E as ->. right. right. by left.
      + right. right. right. split_and!; [| | |done]; intros ->; done.
    - intros [[-> ->]|[[-> ->]|[[-> ->]|(Hn2 & Hn3 & Hn4 & H)]]].
      + by left.
      + right. split; [by intros E%app_inv_head|]. by left.
      + right. split; [by intros E%app_inv_head|].
        right. split; [by intros E%app_inv_head|]. by left.
      + right. split; [by intros E%app_inv_head|].
        right. split; [by intros E%app_inv_head|].
        right. split; [by intros E%app_inv_head|]. done. }
  assert (∀ rel c, fs4 !! (p_parts base_dir ++ rel) = Some (FS.File c) →
            ∃ c', pk_file base rel = Some c') as Hknown.
  { intros rel c [[-> _]|[[-> _]|[[-> _]|(_ & _ & _ & H)]]]%Hfiles; by eexists. }
  assert (∀ rel c', pk_file base rel = Some c' → walked fs4 (p_parts base_dir) rel = true)
    as Hwalked.
  { intros rel c' Hc'.
    apply (walked_grows fs1); [by repeat (eapply fs_grows_trans; [|eassumption]);
                                 apply fs_grows_refl|].
    eapply (extracted_walked cwd fs0 fs1 base base_dir); [done..|]. intros ->.
    apply Hf1 in Hc'. rewrite app_nil_r in Hc'.
    pose proof (Hg2 (p_parts base_dir)) as G2. rewrite Hc' in G2. destruct G2 as [c2 G2].
    pose proof (Hg3 (p_parts base_dir)) as G3. rewrite G2 in G3. destruct G3 as [c3 G3].
    pose proof (Hg4 (p_parts base_dir)) as G4. rewrite G3 in G4. destruct G4 as [c4 G4].
    unfold FS.is_dir, FS.node_at in Hisdir. cbn [base_dir p_parts] in Hisdir, G4.
    destruct (p_parts workdir ++ ["base"]) eqn:E; [by destruct (p_parts workdir)|].
    by rewrite G4 in Hisdir. }
  destruct (zip_dir_tidy cwd fs4 base_dir _ Hres) as (l & Hl & Hmem).
  { intros rel c Hf _. apply Hknown in Hf as [c' Hc']. by eapply pk_file_tidy. }
  rewrite Hl in Hzip. injection Hzip as <-.
  intros nm c. rewrite Hmem. split.
  - intros (rel & -> & [[-> ->]|[[-> ->]|[[-> ->]|(Hn2 & Hn3 & Hn4 & H)]]]%Hfiles & _).
    + right. right. by left.
    + right. by left.
    + by left.
    + right. right. right. by exists rel.
  - intros [[-> ->]|[[-> ->]|[[-> ->]|(rel & Hn2 & Hn3 & Hn4 & -> & H)]]].
    + exists presentation_parts. split_and!; [done| |by eapply Hwalked].
      apply Hfiles. right. right. by left.
    + exists presentation_rels_parts. split_and!; [done| |by eapply Hwalked].
      apply Hfiles. right. by left.
    + exists content_types_parts. split_and!; [done| |by eapply Hwalked].
      apply Hfiles. by left.
    + exists rel. split_and!; [done| |by eapply Hwalked].
      apply Hfiles. right. right. right. done.
Qed.

Section MergeFiles.

Implicit Types (ms : merge_state) (fs : FS.t).

Lemma extract_grows (cwd : list string) (to_dir : path) (members : list (string * content)) :
  ∀ fs fs', fold_left (extract_member cwd to_dir) members (Ok fs) = Ok fs' → fs_grows fs fs'.
Proof.
  induction members as [|m members IH] using rev_ind; intros fs fs'.
  { intros [= <-]. apply fs_grows_refl. }
  rewrite fold_left_app. simpl. intros Hx.
  destruct (extract_member_strict _ _ _ _ _ Hx) as [fs_mid Hmid]. rewrite Hmid in Hx.
  eapply fs_grows_trans; [by eapply IH|].
  unfold extract_member in Hx. cbn [mbind res_bind bind] in Hx.
  apply bind_ok in Hx as (fs1 & H1 & Hx).
  eapply (fs_grows_trans _ fs1).
  - destruct (FS.path_exists cwd fs_mid _); [injection H1 as <-; apply fs_grows_refl|].
    by eapply mkdir_parents_grows.
  - destruct (endswith "/" m.1); [by eapply mkdir_parents_grows|by eapply write_grows].
Qed.

Section Loops.

Variables (cw : list string) (dst : path) (fs_base : FS.t).

Lemma trace_files_mono (fs fs' : FS.t) (log : list (path * string * string)) :
  fs_grows fs fs' → trace_files cw dst fs log → trace_files cw dst fs' log.
Proof. intros Hg H ev Hev. eapply is_file_grows; [exact Hg|]. by apply H. Qed.

Lemma merge_slide_files (fuel : nat) (e : env)
    (targets : gmap (option string) (option string)) ms (sld : sldId) ms' :
  cwd e = cw → dst_root e = dst →
  merge_files cw dst fs_base ms →
  merge_slide fuel e targets (Ok ms) sld = Ok ms' →
  merge_files cw dst fs_base ms'.
Proof.
  intros Hc Hd [Hg Ht] H.
  apply merge_slide_cases in H
    as [[_ ->]|(_ & d & st & Hcopy & _ & _ & _ & Hfs & _ & Hlog)]; [done|].
  apply copy_keeps in Hcopy as ((Hgrow & _) & _ & Hkeep). rewrite Hc, Hd in Hkeep.
  unfold merge_files. rewrite Hfs, Hlog. split; [by eapply fs_grows_trans|by apply Hkeep].
Qed.

Lemma merge_slides_files (fuel : nat) (e : env)
    (targets : gmap (option string) (option string)) (slds : list sldId) :
  cwd e = cw → dst_root e = dst →
  ∀ ms ms', merge_files cw dst fs_base ms →
    fold_left (merge_slide fuel e targets) slds (Ok ms) = Ok ms' →
    merge_files cw dst fs_base ms'.
Proof.
  intros Hc Hd. induction slds as [|sld slds IH]; intros ms ms' Hinv; simpl.
  - by intros [= <-].
  - intros H.
    destruct (fold_res_ok _ (merge_slide_strict fuel e targets) _ _ _ H) as [ms1 H1].
    rewrite H1 in H. eapply IH; [|exact H]. by eapply merge_slide_files.
Qed.

Lemma merge_source_files (fuel : nat) (workdir : path) ms (pkg : package) ms' :
  dst = joinpath (joinpath workdir "base") "ppt" →
  merge_files cw dst fs_base ms →
  merge_source fuel cw workdir (Ok ms) pkg = Ok ms' →
  merge_files cw dst fs_base ms'.
Proof.
  intros Hd [Hg Ht]. unfold merge_source. cbn [mbind res_bind bind].
  intros H. apply bind_ok in H as (fs1 & Hx & H).
  apply bind_ok in H as (ct_src_tree & _ & H).
  apply bind_ok in H as (t & _ & H).
  apply bind_ok in H as (src_rels & _ & H).
  apply extract_grows in Hx.
  destruct (doc_sldIdLst t) as [slds|].
  - eapply merge_slides_files; [| |  |exact H]; [done|by rewrite Hd|].
    split; cbn [m_st fs copied]; [by eapply fs_grows_trans|by eapply trace_files_mono].
  - injection H as <-.
    split; cbn [m_st fs copied with_fs]; [by eapply fs_grows_trans|by eapply trace_files_mono].
Qed.

Lemma merge_sources_files (fuel : nat) (workdir : path) (extras : list package) :
  dst = joinpath (joinpath workdir "base") "ppt" →
  ∀ ms ms', merge_files cw dst fs_base ms →
    fold_left (merge_source fuel cw workdir) extras (Ok ms) = Ok ms' →
    merge_files cw dst fs_base ms'.
Proof.
  intros Hd. induction extras as [|pkg extras IH]; intros ms ms' Hinv; simpl.
  - by intros [= <-].
  - intros H.
    destruct (fold_res_ok _ (merge_source_strict fuel cw workdir) _ _ _ H) as [ms1 H1].
    rewrite H1 in H. eapply IH; [|exact H]. by eapply merge_source_files.
Qed.

End Loops.

(** The file system at the end of a merge that returns. *)
Lemma merge_presentations_files (fuel : nat) (cw : list string) (workdir : path)
    (fs0 : FS.t) (base : package) (extras : list package) (out : merged) :
  merge_presentations fuel cw workdir fs0 (base :: extras) = Ok out →
  ∃ fs1,
    extract_pptx cw fs0 base (joinpath workdir "base") = Ok fs1
    ∧ fs_grows fs1 (out_fs out)
    ∧ trace_files cw (joinpath (joinpath workdir "base") "ppt") (out_fs out)
        (out_copied out)
    ∧ is_file cw (out_fs out) (joinpath (joinpath workdir "base") "[Content_Types].xml").
Proof.
  unfold merge_presentations.
  intros H. apply bind_ok in H as (fs1 & Hx & H).
  apply bind_ok in H as (pres_tree & _ & H).
  apply bind_ok in H as (rels_tree & _ & H).
  apply bind_ok in H as (ct_tree & _ & H).
  apply bind_ok in H as (ms & Hloop & H).
  apply bind_ok in H as (fs2 & Hw2 & H).
  apply bind_ok in H as (fs3 & Hw3 & H).
  apply bind_ok in H as (fs4 & Hw4 & H).
  apply bind_ok in H as (archive & _ & H). injection H as <-.
  cbn [out_fs out_copied].
  eapply (merge_sources_files cw _ fs1) in Hloop as [Hg Ht]; [|reflexivity|].
  2:{ split; cbn [m_st fs copied]; [apply fs_grows_refl|by intros ev Hev%elem_of_nil]. }
  assert (fs_grows (fs (m_st ms)) fs4) as Hg4.
  { eapply fs_grows_trans; [by eapply write_xml_grows|].
    eapply fs_grows_trans; by eapply write_xml_grows. }
  exists fs1. split_and!; [done|by eapply fs_grows_trans|by eapply trace_files_mono|].
  unfold write_xml in Hw4. apply bind_ok in Hw4 as (fs' & _ & Hw4).
  by eapply write_is_file.
Qed.

(** A document parsed at a member path of a fresh extraction is a file
    member of the package. *)
Lemma parse_extracted_inv (cw : list string) (fs fs1 : FS.t) (pkg : package)
    (to_dir : path) (parts : list string) (t : document) :
  is_absolute to_dir = true → ordinary to_dir →
  Forall (λ x, valid_member_part x = true) parts →
  vacant fs (p_parts to_dir) →
  extract_pptx cw fs pkg to_dir = Ok fs1 →
  parse_xml cw fs1 {| p_root := p_root to_dir; p_parts := p_parts to_dir ++ parts |} = Ok t →
  pk_file pkg parts = Some (Xml t).
Proof.
  intros Habs Hord Hparts Hvac Hx Hp.
  unfold parse_xml in Hp. apply bind_ok in Hp as (c & Hr & Hp).
  destruct c as [d|b]; [|discriminate]. injection Hp as ->.
  unfold FS.read, FS.stat, FS.resolve, is_absolute in Hr. cbn [p_root p_parts] in Hr.
  unfold is_absolute in Habs. rewrite Habs in Hr.
  destruct (FS.walk fs1 [] (p_parts to_dir ++ parts)) as [n|] eqn:En; [|discriminate].
  apply walk_plain_list in En; [|apply Forall_app; by split]. cbn in En. subst n.
  assert (fs1 !! (p_parts to_dir ++ parts) = Some (FS.File (Xml t))) as Hf.
  { unfold FS.node_at in Hr. destruct (p_parts to_dir ++ parts) as [|a l] eqn:E;
      [discriminate|]. by destruct (fs1 !! (a :: l)) as [[c|]|]; simplify_eq. }
  apply (extract_fold_files cw to_dir Habs Hord _ _ _ Hx) in Hf
    as [(rel & E & H)|[_ H]].
  - by apply app_inv_head in E as <-.
  - rewrite Hvac in H; [done|by apply prefix_app_r].
Qed.

End MergeFiles.

(** X20.  A merge in a fresh working directory returns only if the base
    package holds its three manifests, [ppt/presentation.xml],
    [ppt/_rels/presentation.xml.rels] and [[Content_Types].xml], each as
    well-formed XML; without one of them it does not return. *)
Theorem merge_needs_base_manifests
    (fuel : nat) (cw : list string) (workdir : path) (fs0 : FS.t)
    (base : package) (extras : list package) (out : merged) :
  is_absolute workdir = true → ordinary workdir →
  vacant fs0 (p_parts workdir ++ ["base"]) →
  merge_presentations fuel cw workdir fs0 (base :: extras) = Ok out →
  has_manifests base.
Proof.
  intros Habs Hord Hvac. unfold merge_presentations.
  destruct plain_literals as (_ & _ & _ & _ & _ & Hbase).
  rewrite (joinpath_plain workdir "base" Hbase).
  set (base_dir := {| p_root := p_root workdir; p_parts := p_parts workdir ++ ["base"] |}).
  assert (is_absolute base_dir = true) as Hbabs by exact Habs.
  assert (ordinary base_dir) as Hbord.
  { apply Forall_app. split; [exact Hord|by repeat constructor]. }
  destruct (manifest_paths base_dir) as (-> & -> & ->).
  intros H. apply bind_ok in H as (fs1 & Hx & H).
  apply bind_ok in H as (pres_tree & Hp1 & H).
  apply bind_ok in H as (rels_tree & Hp2 & H).
  apply bind_ok in H as (ct_tree & Hp3 & _).
  exists pres_tree, rels_tree, ct_tree.
  split_and!; eapply (parse_extracted_inv cw fs0 fs1 base base_dir); try done;
    by repeat constructor.
Qed.


(** X22.  A merge drops no file of the base deck: the archive it writes has a
    member for every path under which the base deck stores a file, named
    by the path's components joined by slashes, when these hold no
    backslash (what the member holds may differ from what the base deck
    stores). *)
Theorem merged_archive_keeps_base_paths
    (fuel : nat) (cw : list string) (workdir : path) (fs0 : FS.t)
    (base : package) (extras : list package) (out : merged) :
  is_absolute workdir = true → ordinary workdir →
  merge_presentations fuel cw workdir fs0 (base :: extras) = Ok out →
  ∀ rel, is_Some (pk_file base rel) → Forall (λ x, mem_char "\" x = false) rel →
    ∃ c, (join_with "/" rel, c) ∈ out_archive out.
Proof.
  intros Habs Hord H rel [c Hc] Hback.
  pose proof H as Hfiles.
  apply merge_presentations_files in Hfiles as (fs1 & Hx & Hg & _ & Hct).
  destruct plain_literals as (_ & _ & _ & _ & Hpl & Hbase).
  rewrite (joinpath_plain workdir "base" Hbase) in *.
  set (base_dir := {| p_root := p_root workdir; p_parts := p_parts workdir ++ ["base"] |})
    in *.
  assert (is_absolute base_dir = true) as Hbabs by exact Habs.
  assert (ordinary base_dir) as Hbord.
  { apply Forall_app. split; [exact Hord|by repeat constructor]. }
  assert (fs1 !! (p_parts base_dir ++ rel) = Some (FS.File c)) as Hf1.
  { apply (extract_fold_files cw base_dir Hbabs Hbord _ _ _ Hx). left. by exists rel. }
  pose proof (Hg (p_parts base_dir ++ rel)) as Hk. rewrite Hf1 in Hk. destruct Hk as [c' Hc'].
  assert (FS.resolve cw (out_fs out) base_dir = Some (p_parts base_dir)
          ∧ FS.is_dir (out_fs out) (p_parts base_dir) = true) as [Hres Hisdir].
  { destruct Hct as (n & x & Hn & _). rewrite (joinpath_plain _ _ Hpl) in Hn.
    unfold FS.resolve, is_absolute in Hn |- *. cbn [p_root p_parts base_dir] in Hn |- *.
    unfold is_absolute in Habs. rewrite Habs in Hn |- *.
    rewrite walk_app in Hn.
    destruct (FS.walk (out_fs out) [] (p_parts workdir ++ ["base"])) as [d|] eqn:Ed;
      [|discriminate].
    pose proof (walk_plain_list _ _ Hbord _ _ Ed) as E. cbn [app] in E. subst d.
    split; [done|]. cbn [FS.walk] in Hn.
    destruct (FS.is_dir (out_fs out) (p_parts base_dir)) eqn:Ei; [done|discriminate]. }
  assert (rel ≠ []) as Hne.
  { intros ->. rewrite app_nil_r in Hc'.
    unfold FS.is_dir, FS.node_at in Hisdir. cbn [base_dir p_parts] in Hisdir, Hc'.
    destruct (p_parts workdir ++ ["base"]) eqn:E; [by destruct (p_parts workdir)|].
    by rewrite Hc' in Hisdir. }
  assert (Forall tidy rel) as Htidy.
  { pose proof Hc as Hm. apply pk_file_step_parts in Hm as [?|(m & _ & <-)]; [done|].
    apply Forall_forall. intros x Hx'. rewrite Forall_forall in Hback.
    split_and!; [|by apply (split_slash_parts m.1); apply list_elem_of_filter in Hx' as [_ ?]
                 |by apply Hback].
    by apply list_elem_of_filter in Hx' as [? _]. }
  assert (walked (out_fs out) (p_parts base_dir) rel = true) as Hw.
  { apply (walked_grows fs1); [exact Hg|].
    by eapply (extracted_walked cw fs0 fs1 base base_dir). }
  assert (zip_dir cw (out_fs out) base_dir = Ok (out_archive out)) as Hzip.
  { revert H. unfold merge_presentations. rewrite (joinpath_plain workdir "base" Hbase).
    fold base_dir. intros H.
    do 8 (apply bind_ok in H as (? & _ & H)).
    apply bind_ok in H as (archive & Hz & H). by injection H as <-. }
  exists c'. apply (zip_dir_members _ _ _ _ _ Hres Hzip). exists rel.
  split_and!; [done|done|by apply arc_name_tidy].
Qed.

Section MergeWitnesses.

Import Examples.

Lemma merge_a_returns :
  ∃ out, merge_presentations 10 cwd0 workdir0 fs0 [deck_a] = Ok out.
Proof.
  apply observe_unit. vm_compute. reflexivity.
Qed.

Lemma deck_a_rel_ids :
  NoDup (map rel_id (doc_relationships (pk_document deck_a presentation_rels_parts))).
Proof.
  assert (map rel_id (doc_relationships (pk_document deck_a presentation_rels_parts))
          = [Some "rId2"]) as -> by (vm_compute; reflexivity).
  apply NoDup_singleton.
Qed.

Lemma vacant_workdir0 : vacant fs0 (p_parts workdir0 ++ ["base"]).
Proof.
  intros k [l ->]. unfold fs0. rewrite !lookup_insert_ne; [apply lookup_empty|done..].
Qed.

Lemma ordinary_workdir0 : ordinary workdir0.
Proof. unfold ordinary. simpl. by repeat constructor. Qed.

End MergeWitnesses.

Lemma merged_relationships_kept_witness :
  ∃ out added,
    merge_presentations 10 Examples.cwd0 Examples.workdir0 Examples.fs0
      [Examples.deck_a; Examples.deck_b] = Ok out
    ∧ doc_relationships (out_presentation_rels out)
      = doc_relationships (pk_document Examples.deck_a presentation_rels_parts) ++ added
    ∧ length added = length (all_imported [Examples.deck_b]).
Proof.
  destruct merge_ab_returns as [out E].
  destruct has_manifests_examples as (Ha & Hb & _).
  destruct (merged_relationships_kept 10 Examples.cwd0 Examples.workdir0 Examples.fs0
              Examples.deck_a [Examples.deck_b] out eq_refl Ha
              (Forall_cons_2 _ _ _ Hb (Forall_nil_2 _)) E) as (added & H1 & H2 & _).
  exists out, added. split; [exact E|]. split; [exact H1|exact H2].
Defined.

Lemma merged_relationship_ids_distinct_witness :
  ∃ out,
    merge_presentations 10 Examples.cwd0 Examples.workdir0 Examples.fs0
      [Examples.deck_a; Examples.deck_b] = Ok out
    ∧ NoDup (map rel_id (doc_relationships (out_presentation_rels out))).
Proof.
  destruct merge_ab_returns as [out E].
  destruct has_manifests_examples as (Ha & _).
  exists out. split; [exact E|].
  exact (merged_relationship_ids_distinct 10 Examples.cwd0 Examples.workdir0 Examples.fs0
           Examples.deck_a [Examples.deck_b] out eq_refl Ha deck_a_rel_ids E).
Defined.

Lemma merged_manifest_registers_slides_witness :
  ∃ out,
    merge_presentations 10 Examples.cwd0 Examples.workdir0 Examples.fs0
      [Examples.deck_a; Examples.deck_b] = Ok out
    ∧ doc_types (pk_document Examples.deck_a content_types_parts)
        `prefix_of` doc_types (out_content_types out).
Proof.
  destruct merge_ab_returns as [out E].
  destruct has_manifests_examples as (Ha & _).
  exists out. split; [exact E|].
  exact (proj1 (merged_manifest_registers_slides 10 Examples.cwd0 Examples.workdir0
                  Examples.fs0 Examples.deck_a [Examples.deck_b] out eq_refl Ha E)).
Defined.

Lemma merge_single_deck_witness :
  ∃ out,
    merge_presentations 10 Examples.cwd0 Examples.workdir0 Examples.fs0 [Examples.deck_a]
    = Ok out
    ∧ out_presentation_rels out = pk_document Examples.deck_a presentation_rels_parts
    ∧ ("ppt/slides/slide1.xml", Xml Examples.empty_doc) ∈ out_archive out.
Proof.
  destruct merge_a_returns as [out E].
  destruct has_manifests_examples as (Ha & _).
  assert (Forall (λ m : string * content, mem_char "\" m.1 = false)
            (pk_members Examples.deck_a)) as Hnames by (by repeat constructor).
  destruct (merge_single_deck 10 Examples.cwd0 Examples.workdir0 Examples.fs0
              Examples.deck_a out eq_refl ordinary_workdir0 vacant_workdir0 Ha Hnames E)
    as (_ & H2 & _ & H4).
  exists out. split; [exact E|]. split; [exact H2|].
  apply H4. right. right. right. exists ["ppt"; "slides"; "slide1.xml"].
  split_and!; [done|done|done|reflexivity|vm_compute; reflexivity].
Defined.


Lemma merged_archive_keeps_base_paths_witness :
  ∃ out c,
    merge_presentations 10 Examples.cwd0 Examples.workdir0 Examples.fs0
      [Examples.deck_a; Examples.deck_b] = Ok out
    ∧ ("ppt/slides/slide1.xml", c) ∈ out_archive out.
Proof.
  destruct merge_ab_returns as [out E].
  destruct (merged_archive_keeps_base_paths 10 Examples.cwd0 Examples.workdir0
              Examples.fs0 Examples.deck_a [Examples.deck_b] out eq_refl
              ordinary_workdir0 E ["ppt"; "slides"; "slide1.xml"]) as [c Hc].
  - eexists. vm_compute. reflexivity.
  - by repeat constructor.
  - exists out, c. split; [exact E|exact Hc].
Defined.

Lemma merge_needs_base_manifests_witness :
  ∃ out,
    merge_presentations 10 Examples.cwd0 Examples.workdir0 Examples.fs0 [Examples.deck_a]
    = Ok out
    ∧ has_manifests Examples.deck_a.
Proof.
  destruct merge_a_returns as [out E]. exists out. split; [exact E|].
  exact (merge_needs_base_manifests 10 Examples.cwd0 Examples.workdir0 Examples.fs0
           Examples.deck_a [] out eq_refl ordinary_workdir0 vacant_workdir0 E).
Defined.

(* ===================================================================== *)
(** * The interactive file list *)
(* ===================================================================== *)

Section FileList.

Lemma listdir_no_fuel (cwd : list string) (fs : FS.t) (p : path) :
  FS.listdir cwd fs p ≠ OutOfFuel.
Proof.
  unfold FS.listdir. destruct (FS.resolve cwd fs p); [|done].
  by destruct (FS.node_at fs l) as [[?|]|].
Qed.

Lemma sorted_is_range (idxs : list Z) (n : nat) :
  merge_sort Z.le idxs = seqZ 1 (Z.of_nat n) ↔ idxs ≡ₚ seqZ 1 (Z.of_nat n).
Proof.
  split.
  - intros <-. symmetry. apply merge_sort_Permutation.
  - intros H. apply (Sorted_unique Z.le).
    + apply Sorted_merge_sort. apply _.
    + clear. generalize 1. induction n as [|n IH]; intros m.
      * rewrite seqZ_nil by lia. constructor.
      * rewrite seqZ_cons by lia. replace (Z.pred (Z.of_nat (S n))) with (Z.of_nat n) by lia.
        constructor; [apply IH|]. destruct n as [|n].
        -- rewrite seqZ_nil by lia. constructor.
        -- rewrite seqZ_cons by lia. constructor. lia.
    + by rewrite merge_sort_Permutation.
Qed.

Lemma parse_order_spec (n : nat) (order : string) (idxs : list Z) :
  parse_order n order = Some idxs ↔
  mapM int (split order) = Some idxs ∧ idxs ≡ₚ seqZ 1 (Z.of_nat n).
Proof.
  unfold parse_order. destruct (mapM int (split order)) as [l|]; simpl.
  - case_bool_decide as H.
    + apply sorted_is_range in H. split; [by intros [= <-]|by intros [[= <-] _]].
    + split; [discriminate|]. intros [[= <-] Hp]. destruct H. by apply sorted_is_range.
  - split; [discriminate|by intros [? _]].
Qed.

Lemma read_order_spec (n : nat) (lines : list string) :
  ∀ out (idxs : list Z) (c' : console),
    read_order n lines out = (inr idxs, c') →
    ∃ bad line,
      lines = bad ++ line :: stdin c'
      ∧ Forall (λ l, parse_order n (strip l) = None) bad
      ∧ parse_order n (strip line) = Some idxs
      ∧ stdout c'
        = out ++ concat (map (λ _, ["> "; invalid_message]) bad) ++ ["> "].
Proof.
  induction lines as [|line rest IH]; intros out idxs c'; simpl; [discriminate|].
  destruct (parse_order n (strip line)) as [l|] eqn:E.
  - intros [= <- <-]. exists [], line. by split_and!.
  - intros H. apply IH in H as (bad & line' & -> & Hbad & Hline & Hout).
    exists (line :: bad), line'. split_and!; [done|by constructor|done|].
    rewrite Hout. simpl. by rewrite <- !app_assoc.
Qed.

Lemma getitem_range {A} (l : list A) :
  omap (λ i, getitem l (i - 1)) (seqZ 1 (Z.of_nat (length l))) = l.
Proof.
  induction l as [|x l IH] using rev_ind; [done|].
  rewrite length_app. simpl. rewrite Nat.add_1_r, seqZ_S, omap_app. simpl.
  assert (getitem (l ++ [x]) (1 + Z.of_nat (length l) - 1) = Some x) as ->.
  { unfold getitem. destruct (Z.leb_spec 0 (1 + Z.of_nat (length l) - 1)); [|lia].
    replace (Z.to_nat (1 + Z.of_nat (length l) - 1)) with (length l) by lia.
    by rewrite list_lookup_middle. }
  f_equal. etrans; [|exact IH]. apply list_omap_ext, Forall_Forall2_diag, Forall_seqZ.
  intros i Hi. unfold getitem. destruct (Z.leb_spec 0 (i - 1)); [|lia].
  apply lookup_app_l. lia.
Qed.

Lemma mapM_omap {A B} (f : A → option B) (l : list A) (k : list B) :
  mapM f l = Some k → omap f l = k.
Proof.
  intros H%mapM_Some_1. induction H as [|x y l k Hx _ IH]; [done|].
  change (omap f (x :: l))
    with (match f x with Some y => y :: omap f l | None => omap f l end).
  by rewrite Hx, IH.
Qed.

Lemma getitem_lookup {A} (l : list A) (idxs : list Z) (fl : list A) :
  Forall (λ i, 1 ≤ i) idxs →
  mapM (λ i, getitem l (i - 1)) idxs = Some fl →
  Forall2 (λ i f, l !! Z.to_nat (i - 1) = Some f) idxs fl.
Proof.
  intros Hpos H%mapM_Some_1. induction H as [|i f idxs fl Hi _ IH]; [constructor|].
  apply Forall_cons in Hpos as [Hi1 Hpos]. constructor; [|by apply IH].
  unfold getitem in Hi. by destruct (Z.leb_spec 0 (i - 1)); [|lia].
Qed.

Lemma list_files_stdin (l : list (Z * path)) : ∀ c, stdin (list_files c l) = stdin c.
Proof.
  unfold list_files. induction l as [|x l IH]; intros c; [done|]. simpl. by rewrite IH.
Qed.

(** The steps of a call that returns. *)
Lemma build_file_list_returns
    (cwd : list string) (fs : FS.t) (folder : path) (c c' : console)
    (files : list path) :
  build_file_list_from_folder cwd fs folder c = (inr files, c') →
  ∃ names bad line idxs,
    FS.listdir cwd fs folder = Ok names
    ∧ stdin c = bad ++ line :: stdin c'
    ∧ Forall (λ l, parse_order
                     (length (filter (λ p, is_pptx p = true) (map (child folder) names)))
                     (strip l) = None) bad
    ∧ parse_order (length (filter (λ p, is_pptx p = true) (map (child folder) names)))
                  (strip line) = Some idxs
    ∧ mapM (λ i, getitem (filter (λ p, is_pptx p = true) (map (child folder) names))
                   (i - 1)) idxs = Some files.
Proof.
  unfold build_file_list_from_folder.
  destruct (FS.listdir cwd fs folder) as [names| |]; [|discriminate..].
  set (pptx_files := filter _ _).
  destruct pptx_files as [|p0 rest] eqn:Ep; [discriminate|]. rewrite <- Ep.
  destruct (read_order _ _ _) as [[s|idxs] c1] eqn:Er; [discriminate|].
  destruct (mapM _ idxs) as [fl|] eqn:Em; [|discriminate].
  intros [= <- <-].
  apply read_order_spec in Er as (bad & line & Hin & Hbad & Hline & _).
  exists names, bad, line, idxs. split_and!; [done| |done|done|done].
  rewrite <- Hin. cbn [stdin print]. by rewrite list_files_stdin.
Qed.

End FileList.

(** X23.  The files [build_file_list_from_folder] returns are the [.pptx]
    entries of the folder, each exactly once: a rearrangement of the
    list it printed. *)
Theorem build_file_list_is_permutation
    (cwd : list string) (fs : FS.t) (folder : path) (c c' : console)
    (files : list path) :
  build_file_list_from_folder cwd fs folder c = (inr files, c') →
  ∃ names,
    FS.listdir cwd fs folder = Ok names
    ∧ files ≡ₚ filter (λ p, is_pptx p = true) (map (child folder) names).
Proof.
  intros H. apply build_file_list_returns in H
    as (names & bad & line & idxs & Hl & _ & _ & Hline & Hm).
  exists names. split; [done|].
  apply parse_order_spec in Hline as [_ Hperm].
  apply mapM_omap in Hm. subst files. rewrite Hperm. by rewrite getitem_range.
Qed.

(** X24.  The order of the returned files is the one typed on the first line
    that names every number from 1 to the number of files exactly once:
    the lines before it were not such lines, the lines after it are left
    unread, and the [j]-th file returned is the one printed under the
    [j]-th number of that line. *)
Theorem build_file_list_follows_first_valid_line
    (cwd : list string) (fs : FS.t) (folder : path) (c c' : console)
    (files : list path) :
  build_file_list_from_folder cwd fs folder c = (inr files, c') →
  ∃ names bad line idxs,
    FS.listdir cwd fs folder = Ok names
    ∧ stdin c = bad ++ line :: stdin c'
    ∧ Forall (λ l, ∀ k, mapM int (split (strip l)) = Some k →
                        ¬ k ≡ₚ seqZ 1 (Z.of_nat (length files))) bad
    ∧ mapM int (split (strip line)) = Some idxs
    ∧ idxs ≡ₚ seqZ 1 (Z.of_nat (length files))
    ∧ Forall2 (λ i f,
                 filter (λ p, is_pptx p = true) (map (child folder) names)
                   !! Z.to_nat (i - 1) = Some f) idxs files.
Proof.
  intros H. apply build_file_list_returns in H
    as (names & bad & line & idxs & Hl & Hin & Hbad & Hline & Hm).
  set (pptx_files := filter _ _) in *.
  apply parse_order_spec in Hline as [Hint Hperm].
  assert (length files = length pptx_files) as Hlen.
  { rewrite <- (length_mapM _ _ _ Hm), Hperm, length_seqZ. lia. }
  rewrite Hlen.
  exists names, bad, line, idxs. split_and!; [done|done| |done|done|].
  - eapply Forall_impl; [exact Hbad|]. intros l Hnone k Hk Hkp.
    assert (parse_order (length pptx_files) (strip l) = Some k) as E
      by (by apply parse_order_spec).
    congruence.
  - apply getitem_lookup; [|done]. rewrite Hperm. apply Forall_seqZ. lia.
Qed.

(** X25.  A typed line is accepted exactly when its white-space separated
    words all read as integers and, together, are the numbers from 1 to
    the number of files, each exactly once. *)
Theorem parse_order_accepts_permutations (n : nat) (order : string) (idxs : list Z) :
  parse_order n order = Some idxs ↔
  mapM int (split order) = Some idxs ∧ idxs ≡ₚ seqZ 1 (Z.of_nat n).
Proof. apply parse_order_spec. Qed.

Lemma cli_example_returns :
  ∃ files c',
    build_file_list_from_folder ["home"] CliExample.folder_fs CliExample.here
      CliExample.terminal = (inr files, c').
Proof.
  destruct (build_file_list_from_folder ["home"] CliExample.folder_fs CliExample.here
              CliExample.terminal) as [[s|files] c'] eqn:E.
  - exfalso. vm_compute in E. discriminate.
  - by exists files, c'.
Qed.

Lemma build_file_list_is_permutation_witness :
  ∃ files c' names,
    build_file_list_from_folder ["home"] CliExample.folder_fs CliExample.here
      CliExample.terminal = (inr files, c')
    ∧ files ≡ₚ filter (λ p, is_pptx p = true) (map (child CliExample.here) names).
Proof.
  destruct cli_example_returns as (files & c' & E).
  destruct (build_file_list_is_permutation _ _ _ _ _ _ E) as (names & _ & Hp).
  exists files, c', names. split; [exact E|exact Hp].
Defined.

Lemma build_file_list_follows_first_valid_line_witness :
  ∃ files c' bad line,
    build_file_list_from_folder ["home"] CliExample.folder_fs CliExample.here
      CliExample.terminal = (inr files, c')
    ∧ stdin CliExample.terminal = bad ++ line :: stdin c'.
Proof.
  destruct cli_example_returns as (files & c' & E).
  destruct (build_file_list_follows_first_valid_line _ _ _ _ _ _ E)
    as (names & bad & line & idxs & _ & Hin & _).
  exists files, c', bad, line. split; [exact E|exact Hin].
Defined.

(* ===================================================================== *)
(** * More on the allocator, the defaults and the relationship ids *)
(* ===================================================================== *)

Section MoreFacts.

Lemma first_unused_least (cwd : list string) (fs : FS.t) (p : path) (base ext : string)
    (fuel : nat) :
  ∀ (c : string) (i : Z) (r : string),
    first_unused cwd fuel fs p base ext c i = Ok r →
    (FS.path_exists cwd fs (joinpath p c) = false ∧ r = c)
    ∨ (FS.path_exists cwd fs (joinpath p c) = true
       ∧ ∃ j, i ≤ j ∧ r = candidate base ext j
              ∧ FS.path_exists cwd fs (joinpath p r) = false
              ∧ ∀ k, i ≤ k < j →
                     FS.path_exists cwd fs (joinpath p (candidate base ext k)) = true).
Proof.
  induction fuel as [|fuel IH]; intros c i r; cbn [first_unused]; [discriminate|].
  destruct (FS.path_exists cwd fs (joinpath p c)) eqn:E.
  - intros H. right. split; [done|]. fold (candidate base ext i) in H.
    apply IH in H as [[Hfree ->]|(Hused & j & Hj & -> & Hfree & Hall)].
    + exists i. split_and!; [lia|done|done|]. intros k Hk. lia.
    + exists j. split_and!; [lia|done|done|]. intros k Hk.
      destruct (decide (k = i)) as [->|Hne]; [done|]. apply Hall. lia.
  - intros [= <-]. by left.
Qed.

Lemma add_missing_defaults_nothing (src : list (option string * option string)) :
  ∀ droot have, (∀ kv, kv ∈ src → kv ∈ have) →
    add_missing_defaults droot have src = Ok droot.
Proof.
  induction src as [|kv src IH]; intros droot have Hin; [done|].
  cbn [add_missing_defaults]. rewrite bool_decide_eq_true_2 by apply Hin, list_elem_of_here.
  apply IH. intros kv' Hkv'. by apply Hin, list_elem_of_further.
Qed.

Lemma list_max_Z_snoc (x : Z) (l : list Z) (y : Z) :
  list_max_Z x (l ++ [y]) = Z.max (list_max_Z x l) y.
Proof. unfold list_max_Z. by rewrite fold_left_app. Qed.

End MoreFacts.

(** X26.  In a folder without a numbered convention the allocator returns the
    source's file name when no entry has it, and otherwise [base_i ext]
    for the least [i] from 1 on whose name no entry has. *)
Theorem pick_new_filename_least_suffix
    (cwd : list string) (fs : FS.t) (dst_folder : path)
    (folder fname base ext new : string) :
  kind_prefix folder = None →
  pick_new_filename cwd fs dst_folder folder fname base ext = Ok new →
  (FS.path_exists cwd fs (joinpath dst_folder fname) = false ∧ new = fname)
  ∨ (FS.path_exists cwd fs (joinpath dst_folder fname) = true
     ∧ ∃ j, 1 ≤ j ∧ new = candidate base ext j
            ∧ FS.path_exists cwd fs (joinpath dst_folder new) = false
            ∧ ∀ k, 1 ≤ k < j →
                   FS.path_exists cwd fs (joinpath dst_folder (candidate base ext k))
                   = true).
Proof.
  intros Hk. rewrite pick_fallback by done. apply first_unused_least.
Qed.

(** X27.  Merging the defaults of the same source manifest a second time adds
    nothing: the destination manifest the first merge returned is
    returned again. *)
Theorem ensure_default_types_idempotent (dest_ct src_ct dest_ct' : list ct_child) :
  ensure_default_types_from_source dest_ct src_ct = Ok dest_ct' →
  ensure_default_types_from_source dest_ct' src_ct = Ok dest_ct'.
Proof.
  unfold ensure_default_types_from_source. intros H.
  apply add_missing_defaults_spec in H as (added & -> & Hadded & Hall).
  apply add_missing_defaults_nothing. intros kv Hkv.
  apply elem_of_list_to_set. rewrite omap_app. apply elem_of_app.
  destruct (Hall _ Hkv) as [Hin|(el & Hel & Hp)].
  - left. by apply elem_of_list_to_set in Hin.
  - right. apply list_elem_of_omap. by exists el.
Qed.

(** X28.  Relationship ids count up: after a relationship with the id
    [next_rel_id] returned is appended, the next id is the following
    number. *)
Theorem next_rel_id_counts_up
    (rels : list relationship) (type target : option string) :
  ∃ n, next_rel_id rels = "rId" +:+ str n
       ∧ next_rel_id (rels ++ [MkRel (Some (next_rel_id rels)) type target])
         = "rId" +:+ str (n + 1).
Proof.
  destruct (next_rel_id_shape rels) as (m & Hm & Hub & Hatt).
  exists (m + 1). split; [done|].
  assert (rid_number (MkRel (Some (next_rel_id rels)) type target) = Some (m + 1)) as Hnew
    by (apply rid_number_str; by rewrite Hm).
  unfold next_rel_id at 1. rewrite omap_app. cbn [omap list_omap]. rewrite Hnew.
  do 2 f_equal. destruct (omap rid_number rels) as [|x l] eqn:E; simpl.
  - destruct Hatt as [Hin|[_ ->]]; [by apply elem_of_nil in Hin|done].
  - rewrite list_max_Z_snoc.
    assert (list_max_Z x l ≤ m); [|lia].
    apply Hub. apply list_max_Z_in.
Qed.

Lemma pick_new_filename_least_suffix_witness :
  ∃ new,
    pick_new_filename Examples.cwd0 (Examples.extracted Examples.deck_b)
      (MkPath "/" ["tmp"; "td"; "src_b"; "ppt"; "media"]) "media" "image1.png"
      "image1" ".png" = Ok new
    ∧ ((FS.path_exists Examples.cwd0 (Examples.extracted Examples.deck_b)
          (joinpath (MkPath "/" ["tmp"; "td"; "src_b"; "ppt"; "media"]) "image1.png")
        = false ∧ new = "image1.png")
       ∨ (FS.path_exists Examples.cwd0 (Examples.extracted Examples.deck_b)
            (joinpath (MkPath "/" ["tmp"; "td"; "src_b"; "ppt"; "media"]) "image1.png")
          = true
          ∧ ∃ j, 1 ≤ j ∧ new = candidate "image1" ".png" j
                 ∧ FS.path_exists Examples.cwd0 (Examples.extracted Examples.deck_b)
                     (joinpath (MkPath "/" ["tmp"; "td"; "src_b"; "ppt"; "media"]) new)
                   = false
                 ∧ ∀ k, 1 ≤ k < j →
                        FS.path_exists Examples.cwd0 (Examples.extracted Examples.deck_b)
                          (joinpath (MkPath "/" ["tmp"; "td"; "src_b"; "ppt"; "media"])
                             (candidate "image1" ".png" k)) = true)).
Proof.
  destruct (observe_unit
              (pick_new_filename Examples.cwd0 (Examples.extracted Examples.deck_b)
                 (MkPath "/" ["tmp"; "td"; "src_b"; "ppt"; "media"]) "media" "image1.png"
                 "image1" ".png")) as [new E]; [vm_compute; reflexivity|].
  exists new. split; [exact E|].
  exact (pick_new_filename_least_suffix _ _ _ "media" _ _ _ _ eq_refl E).
Defined.

Lemma ensure_default_types_idempotent_witness :
  ensure_default_types_from_source
    [Default (Some "png") (Some "image/png"); Default (Some "xml") (Some "application/xml")]
    [Default (Some "xml") (Some "application/xml"); Default (Some "png") (Some "image/png")]
  = Ok [Default (Some "png") (Some "image/png");
        Default (Some "xml") (Some "application/xml")].
Proof.
  apply (ensure_default_types_idempotent [Default (Some "png") (Some "image/png")]).
  vm_compute. reflexivity.
Defined.

(* ===================================================================== *)
(** * The imported slides are copies *)
(* ===================================================================== *)

Section ImportsFound.

Implicit Types (ms : merge_state) (fs : FS.t).




End ImportsFound.

Section SourcesFound.

Variables (fuel : nat) (cw : list string) (workdir : path).
Hypothesis workdir_absolute : is_absolute workdir = true.

Implicit Types (ms : merge_state) (fs : FS.t).






End SourcesFound.

(* ===================================================================== *)
(** * The merged slide list *)
(* ===================================================================== *)


